(** * arbitrum-v3-bot: orchestration core, embedded and verified

    A shallow embedding of the liquidity-management bot: the retry harness
    ([src/utils]), the range computation, the monolithic rebalance protocol
    and its reconciler, the modular actions ([src/actions]) and the
    event-driven scheduler.

    Conventions.
    - JS [number]s that hold integers (ticks, spacings, retry counters,
      millisecond clocks) and [bigint]s are [Z].
    - [Math.floor (a / s)] on integer-valued doubles below [2^53] is the
      floored quotient [a / s] of [Z]; [Math.ceil (a / s)] is [- ((- a) / s)].
    - An [async] function is a computation over an explicit [World]: the
      trace of calls made to external collaborators, the state file and the
      scheduler's module-level flags.  Effects made before a [throw] stay. *)

From Stdlib Require Import ZArith List String Bool Lia QArith Qabs.
From Stdlib Require Decimal DecimalPos DecimalZ.
From Stdlib Require Import DecimalString.
Import ListNotations.
Local Open Scope string_scope.
Local Open Scope Z_scope.
Local Open Scope list_scope.

(* ===================================================================== *)
(** ** Range computation (executeFullRebalance, step 3) *)
(* ===================================================================== *)

Module Range.

(** [const WIDTH = 2000], [MIN_TICK], [MAX_TICK]. *)
Definition WIDTH : Z := 2000.
Definition MIN_TICK : Z := -887272.
Definition MAX_TICK : Z := 887272.

(** [Math.floor(a / s)] and [Math.ceil(a / s)]. *)
Definition floorDiv (a s : Z) : Z := a / s.
Definition ceilDiv (a s : Z) : Z := - ((- a) / s).

(** The symmetric window around the refreshed tick:
    [Math.floor((tick - WIDTH) / tickSpace) * tickSpace] and
    [Math.floor((tick + WIDTH) / tickSpace) * tickSpace]. *)
Definition window (tick tickSpace : Z) : Z * Z :=
  (floorDiv (tick - WIDTH) tickSpace * tickSpace,
   floorDiv (tick + WIDTH) tickSpace * tickSpace).

(** The clamp-and-normalize step: the four [if]s that follow, in order. *)
Definition clampNormalize (tickSpace : Z) (b : Z * Z) : Z * Z :=
  let '(tickLower, tickUpper) := b in
  (* Safety Clamp *)
  let tickLower :=
    if tickLower <? MIN_TICK then ceilDiv MIN_TICK tickSpace * tickSpace
    else tickLower in
  let tickUpper :=
    if tickUpper >? MAX_TICK then floorDiv MAX_TICK tickSpace * tickSpace
    else tickUpper in
  (* Ensure valid range *)
  let tickUpper :=
    if tickLower =? tickUpper then tickUpper + tickSpace else tickUpper in
  (* Double check if upper hit max, move lower down *)
  let '(tickLower, tickUpper) :=
    if tickUpper >? MAX_TICK
    then (let tu := floorDiv MAX_TICK tickSpace * tickSpace in
          (tu - tickSpace, tu))
    else (tickLower, tickUpper) in
  if tickLower >? tickUpper then (tickUpper, tickLower)
  else (tickLower, tickUpper).

Definition computeRange (tick tickSpace : Z) : Z * Z :=
  clampNormalize tickSpace (window tick tickSpace).

End Range.

(* ===================================================================== *)
(** ** Values exchanged with the ledger and the SDK *)
(* ===================================================================== *)

(** What a [throw] carries. *)
Inductive Err : Type :=
| JsError (msg : string)     (* [new Error(msg)] raised by the bot's own code *)
| TypeError (msg : string)   (* raised by the runtime on [undefined.x] *)
| Rejected (code : Z).       (* rejection coming from an external collaborator *)

Inductive Res (A : Type) : Type :=
| Ok (a : A)
| Throw (e : Err).
Arguments Ok {A} a.
Arguments Throw {A} e.

Definition isOk {A} (r : Res A) : bool :=
  match r with Ok _ => true | Throw _ => false end.

Inductive Token : Type := USDC | WETH.

Definition Token_eqb (a b : Token) : bool :=
  match a, b with USDC, USDC | WETH, WETH => true | _, _ => false end.

Inductive Spender : Type := NONFUNGIBLE_POSITION_MANAGER_ADDR | SWAP_ROUTER_ADDR.

(** Handle of a submitted transaction. *)
Definition Tx : Type := Z.

(** [interface BotState]. *)
Record BotState : Type := { tokenId : string; lastCheck : Z }.

(** [bot_state.json]: absent, present but unreadable, or holding a record. *)
Inductive FileState : Type :=
| NoFile
| Unreadable
| Stored (s : BotState).

(** The fields of [npm.positions(tokenId)] the bot reads. *)
Record PositionInfo : Type := {
  liquidity : Z;
  tickLower : Z;
  tickUpper : Z;
  tokensOwed0 : Z;
  tokensOwed1 : Z
}.

Record Slot0 : Type := { sqrtPriceX96 : Z; tick : Z }.

(** A receipt log: [topics[0]] when there is one, and the first ABI word of
    [data] when [decode(["uint256"], data)] succeeds. *)
Record LogEntry : Type := { topic0 : option string; dataWord0 : option Z }.
Record Receipt : Type := { logs : list LogEntry }.

Record DecreaseParams : Type := {
  dec_tokenId : string;
  dec_liquidity : Z;
  dec_amount0Min : Z;
  dec_amount1Min : Z;
  dec_deadline : Z
}.

Record CollectParams : Type := {
  col_tokenId : string;
  col_amount0Max : Z;
  col_amount1Max : Z
}.

Record SwapParams : Type := {
  tokenIn : Token;
  tokenOut : Token;
  swap_fee : Z;
  swap_deadline : Z;
  amountIn : Z;
  amountOutMinimum : Z;
  sqrtPriceLimitX96 : Z
}.

Record MintParams : Type := {
  mint_token0 : Token;
  mint_token1 : Token;
  mint_fee : Z;
  mint_tickLower : Z;
  mint_tickUpper : Z;
  amount0Desired : Z;
  amount1Desired : Z;
  amount0Min : Z;
  amount1Min : Z;
  mint_deadline : Z
}.

(** [iface.encodeFunctionData(...)]: the entries of a multicall. *)
Inductive NpmCall : Type :=
| EncDecreaseLiquidity (p : DecreaseParams)
| EncCollect (p : CollectParams)
| EncBurn (id : string).

(** Every call the bot makes to a collaborator. *)
Inductive Call : Type :=
| Erc20BalanceOf (t : Token)
| Erc20Allowance (t : Token) (s : Spender)
| Erc20Approve (t : Token) (s : Spender)
| NpmBalanceOf
| NpmTokenOfOwnerByIndex (index : Z)
| NpmPositions (id : string)
| NpmDecreaseLiquidity (p : DecreaseParams)
| NpmCollect (p : CollectParams)
| NpmBurn (id : string)
| NpmMulticall (calls : list NpmCall)
| NpmMint (p : MintParams)
| RouterExactInputSingle (p : SwapParams)
| PoolSlot0
| PoolLiquidity
| GetNetwork
| TxWait (tx : Tx)
| TxWaitRace (tx : Tx) (timeoutMs : Z)
| Sleep (ms : Z)
| WriteStateFile (s : BotState)
| StateModuleLoad
| ScanLocalOrphans
| ActionsExecuteFullRebalance (oldTokenId : string)
| CheckHealthAndPanic (id : string)
| AdjustHedge (lpEthAmount : Z) (id : string)
| SendEmailAlert (subject body : string)
| Operation (tag : Z).

Definition Trace : Type := list Call.

(** The spec's ledger write interface: withdrawal, collection, burn (alone or
    batched), swap, mint; [ActionsExecuteFullRebalance] bundles them. *)
Definition mutating (c : Call) : bool :=
  match c with
  | NpmDecreaseLiquidity _ | NpmCollect _ | NpmBurn _ | NpmMulticall _
  | NpmMint _ | RouterExactInputSingle _ | ActionsExecuteFullRebalance _ => true
  | _ => false
  end.

Definition isWriteStateFile (c : Call) : bool :=
  match c with WriteStateFile _ => true | _ => false end.

Definition isSwap (c : Call) : bool :=
  match c with RouterExactInputSingle _ => true | _ => false end.

(** The transactions the bot submits: the ledger writes and the ERC-20
    approvals of the first run. *)
Definition isTransaction (c : Call) : bool :=
  match c with
  | Erc20Approve _ _ => true
  | c => mutating c
  end.

(* ===================================================================== *)
(** ** The world and the computation monad *)
(* ===================================================================== *)

(** [let isProcessing = false; let lastHedgeTime = 0; let isSafeMode = false]
    are the module-level variables of the event-driven entry point. *)
Record World : Type := {
  trace : Trace;
  stateFile : FileState;
  isProcessing : bool;
  lastHedgeTime : Z;
  isSafeMode : bool
}.

Definition initialWorld (f : FileState) : World :=
  {| trace := []; stateFile := f;
     isProcessing := false; lastHedgeTime := 0; isSafeMode := false |}.

Definition M (A : Type) : Type := World -> Res A * World.

Definition ret {A} (a : A) : M A := fun w => (Ok a, w).
Definition throw {A} (e : Err) : M A := fun w => (Throw e, w).

Definition bind {A B} (c : M A) (k : A -> M B) : M B :=
  fun w =>
    match c w with
    | (Ok a, w') => k a w'
    | (Throw e, w') => (Throw e, w')
    end.

Notation "x <- c ;; k" := (bind c (fun x => k))
  (at level 61, c at next level, right associativity).
Notation "c ;;; k" := (bind c (fun _ => k))
  (at level 61, right associativity).

(** [try { c } catch (e) { h e }]. *)
Definition tryCatch {A} (c : M A) (h : Err -> M A) : M A :=
  fun w =>
    match c w with
    | (Ok a, w') => (Ok a, w')
    | (Throw e, w') => h e w'
    end.

(** [try { c } finally { f }], for an [f] that does not throw. *)
Definition tryFinally {A} (c : M A) (f : World -> World) : M A :=
  fun w => let '(r, w') := c w in (r, f w').

Definition liftRes {A} (r : Res A) : M A := fun w => (r, w).

Definition logCall (c : Call) (w : World) : World :=
  {| trace := trace w ++ [c]; stateFile := stateFile w;
     isProcessing := isProcessing w; lastHedgeTime := lastHedgeTime w;
     isSafeMode := isSafeMode w |}.

(** An awaited call to a collaborator: the answer may depend on everything
    that was called before; the call is recorded whether it succeeds or not. *)
Definition call {A} (c : Call) (answer : Trace -> Res A) : M A :=
  fun w => (answer (trace w), logCall c w).

Definition set_isProcessing (b : bool) (w : World) : World :=
  {| trace := trace w; stateFile := stateFile w;
     isProcessing := b; lastHedgeTime := lastHedgeTime w;
     isSafeMode := isSafeMode w |}.

Definition set_lastHedgeTime (t : Z) (w : World) : World :=
  {| trace := trace w; stateFile := stateFile w;
     isProcessing := isProcessing w; lastHedgeTime := t;
     isSafeMode := isSafeMode w |}.

Definition set_isSafeMode (b : bool) (w : World) : World :=
  {| trace := trace w; stateFile := stateFile w;
     isProcessing := isProcessing w; lastHedgeTime := lastHedgeTime w;
     isSafeMode := b |}.

Definition set_stateFile (f : FileState) (w : World) : World :=
  {| trace := trace w; stateFile := f;
     isProcessing := isProcessing w; lastHedgeTime := lastHedgeTime w;
     isSafeMode := isSafeMode w |}.

Definition modify (f : World -> World) : M unit := fun w => (Ok tt, f w).
Definition gets {A} (f : World -> A) : M A := fun w => (Ok (f w), w).

(** [x.toString()] of a [bigint]. *)
Definition toString (z : Z) : string := NilZero.string_of_int (Z.to_int z).

(* ===================================================================== *)
(** ** Retry and timeout harness (src/utils) *)
(* ===================================================================== *)

Module Utils.
Section WithConfig.

(** [MAX_RETRIES] comes from the configuration module. *)
Variable MAX_RETRIES : Z.

Definition sleep (ms : Z) : M unit := call (Sleep ms) (fun _ => Ok tt).

(** [withRetry(operation, retries)]: the recursion is on the number of
    retries left, [fuel = Z.to_nat retries], so that [retries > 0] is
    [fuel = S _] and [retries - 1] goes with the predecessor. *)
Fixpoint withRetry_rec {T} (operation : M T) (fuel : nat) (retries : Z)
  : M T :=
  tryCatch operation (fun error =>
    match fuel with
    | S fuel' =>
        let delay := 1000 * (MAX_RETRIES - retries + 1) in
        sleep delay ;;;
        withRetry_rec operation fuel' (retries - 1)
    | O => throw error
    end).

Definition withRetry {T} (operation : M T) (retries : Z) : M T :=
  withRetry_rec operation (Z.to_nat retries) retries.

(** [withRetry(operation)], with the default [retries = MAX_RETRIES]. *)
Definition withRetryDefault {T} (operation : M T) : M T :=
  withRetry operation MAX_RETRIES.

End WithConfig.

(** [waitWithTimeout(tx, timeoutMs)]: [tx.wait()] raced against a timer
    that rejects with [Error("TIMEOUT")]; a null receipt is an error. *)
Inductive RaceOutcome : Type :=
| TimerFirst
| Settled (r : Res (option Receipt)).

Definition waitWithTimeout (race : Trace -> Tx -> Z -> RaceOutcome)
    (tx : Tx) (timeoutMs : Z) : M Receipt :=
  receipt <- call (TxWaitRace tx timeoutMs)
               (fun h => match race h tx timeoutMs with
                         | TimerFirst => Throw (JsError "TIMEOUT")
                         | Settled r => r
                         end) ;;
  match receipt with
  | None => throw (JsError "Tx dropped or failed")
  | Some rc => ret rc
  end.

End Utils.

(* ===================================================================== *)
(** ** JS numbers, the SDK pool object and the collaborators *)
(* ===================================================================== *)

(** The double-precision operations the monolithic [rebalancePortfolio]
    performs.  They stay abstract: every statement below holds for any
    implementation, IEEE-754 doubles included. *)
Record NumOps : Type := {
  num : Type;
  ofUnits : Z -> Z -> num;         (* [Number(ethers.formatUnits(x, d))] *)
  ofPrice : Token -> Q -> num;     (* [parseFloat(p.toSignificant(6))], base token given *)
  lit_0 : num;
  lit_2 : num;
  lit_0_99 : num;
  fadd : num -> num -> num;
  fsub : num -> num -> num;
  fmul : num -> num -> num;
  fdiv : num -> num -> num;
  fabs : num -> num;
  flt : num -> num -> bool;        (* [a < b] *)
  toUnits : num -> Z -> Res Z      (* [ethers.parseUnits(x.toFixed(d), d)] *)
}.

(** [Position.fromAmounts(...)]: the amounts the SDK derives. *)
Record SdkPosition : Type := {
  mintAmounts : Z * Z;
  mintAmountsWithSlippage : Z * Z  (* at the configured [SLIPPAGE_TOLERANCE] *)
}.

(** The SDK [Pool] object.  Prices are exact fractions in raw units of the
    quote token per raw unit of the base token; [getOutputAmount] includes
    the construction of the input [CurrencyAmount]. *)
Record Pool : Type := {
  token0 : Token;
  token1 : Token;
  fee : Z;
  tickCurrent : Z;
  tickSpacing : Z;
  token0Price : Q;
  token1Price : Q;
  getOutputAmount : Token -> Z -> Res Z;
  fromAmounts : Z -> Z -> Z -> Z -> Res SdkPosition;
  positionAmounts : Z -> Z -> Z -> Res (Z * Z)
}.

(** Constants of the configuration module. *)
Record Config : Type := {
  MAX_RETRIES : Z;
  TX_TIMEOUT_MS : Z;
  (* [WETH_TOKEN.address.toLowerCase() < USDC_TOKEN.address.toLowerCase()] *)
  wethSortsFirst : bool
}.

Definition POOL_FEE : Z := 3000.       (* [FeeAmount.MEDIUM] *)
Definition MAX_UINT128 : Z := 2 ^ 128 - 1.
Definition MINT_SIGNATURE : string :=
  "Mint(uint256,address,address,uint24,int24,int24,uint128,uint256,uint256)".
Definition HEDGE_CHECK_INTERVAL_MS : Z := 60 * 1000.

(** The collaborators: ledger node, wallet, file clock, hedge and alerting
    modules.  Each answer may depend on the calls made so far. *)
Record Env : Type := {
  clock : Trace -> Z;                                   (* [Date.now()] *)
  ethers_id : string -> string;                         (* [ethers.id] *)
  newPool : Slot0 -> Z -> Res Pool;                     (* [new Pool(...)] *)
  erc20_balanceOf : Trace -> Token -> Res Z;
  erc20_allowance : Trace -> Token -> Spender -> Res Z;
  erc20_approve : Trace -> Token -> Spender -> Res Tx;
  npm_balanceOf : Trace -> Res Z;
  npm_tokenOfOwnerByIndex : Trace -> Z -> Res Z;
  npm_positions : Trace -> string -> Res PositionInfo;
  npm_decreaseLiquidity : Trace -> DecreaseParams -> Res Tx;
  npm_collect : Trace -> CollectParams -> Res Tx;
  npm_burn : Trace -> string -> Res Tx;
  npm_multicall : Trace -> list NpmCall -> Res Tx;
  npm_mint : Trace -> MintParams -> Res Tx;
  router_exactInputSingle : Trace -> SwapParams -> Res Tx;
  pool_slot0 : Trace -> Res Slot0;
  pool_liquidity : Trace -> Res Z;
  provider_getNetwork : Trace -> Res Z;
  tx_wait : Trace -> Tx -> Res (option Receipt);
  tx_race : Trace -> Tx -> Z -> Utils.RaceOutcome;
  (* modules of the event-driven entry point that are not part of the core *)
  state_loadState : Trace -> Res (option string);
  state_scanLocalOrphans : Trace -> Res unit;
  actions_executeFullRebalance : Trace -> string -> Res unit;
  aave_checkHealthAndPanic : Trace -> string -> Res bool;
  aave_adjustHedge : Trace -> Z -> string -> Res unit;
  utils_sendEmailAlert : Trace -> string -> string -> Res unit
}.

(** [await Promise.all([a, b])]: both calls are issued; the first rejection
    (in order) is the result. *)
Definition promiseAll2 {A B} (a : M A) (b : M B) : M (A * B) :=
  fun w =>
    let '(ra, w1) := a w in
    let '(rb, w2) := b w1 in
    match ra, rb with
    | Ok x, Ok y => (Ok (x, y), w2)
    | Throw e, _ => (Throw e, w2)
    | Ok _, Throw e => (Throw e, w2)
    end.

(** [Math.floor(Date.now() / 1000) + 120]. *)
Definition deadlineAt (now : Z) : Z := now / 1000 + 120.

(** [receipt.logs.find(log => log.topics[0] === ethers.id(MINT_SIGNATURE))]. *)
Definition isMintEvent (env : Env) (log : LogEntry) : bool :=
  match topic0 log with
  | Some t => String.eqb t (ethers_id env MINT_SIGNATURE)
  | None => false
  end.

(** [AbiCoder.decode(["uint256"], event.data)[0].toString()]. *)
Definition DECODE_ERROR : Err := Rejected (-1).
Definition decodeTokenId (event : LogEntry) : M string :=
  match dataWord0 event with
  | Some id => ret (toString id)
  | None => throw DECODE_ERROR
  end.

(** [fraction.quotient]: [JSBI.divide] truncates. *)
Definition quotient (q : Q) : Z := Z.quot (Qnum q) (Zpos (Qden q)).

(* ===================================================================== *)
(** ** The monolithic entry point: state, reconciler, rebalance protocol *)
(* ===================================================================== *)

Module Monolith.
Section WithEnv.

Variable F : NumOps.
Variable env : Env.

Definition dateNow : M Z := gets (fun w => clock env (trace w)).

(** [loadState()]: the stored record, or the default when the file is
    absent or cannot be parsed.  A file that parses is taken to hold a
    record with a string [tokenId], as every file [saveState] writes
    does. *)
Definition loadState : M BotState :=
  fun w =>
    match stateFile w with
    | Stored s => (Ok s, w)
    | NoFile | Unreadable => (Ok {| tokenId := "0"; lastCheck := 0 |}, w)
    end.

(** [saveState(tokenId)]: overwrite the file, stamped with [Date.now()].
    The write is taken to succeed; a failing [fs.writeFileSync] is not
    part of the model. *)
Definition saveState (tokenId : string) : M unit :=
  now <- dateNow ;;
  let state := {| tokenId := tokenId; lastCheck := now |} in
  modify (fun w => logCall (WriteStateFile state)
                     (set_stateFile (Stored state) w)).

Definition findOrphanedPosition : M string :=
  balance <- call NpmBalanceOf (npm_balanceOf env) ;;
  if balance >? 0 then
    let lastIndex := balance - 1 in
    tokenId <- call (NpmTokenOfOwnerByIndex lastIndex)
                 (fun h => npm_tokenOfOwnerByIndex env h lastIndex) ;;
    ret (toString tokenId)
  else ret "0".

Definition getBalance (token : Token) : M Z :=
  call (Erc20BalanceOf token) (fun h => erc20_balanceOf env h token).

Definition txWait (tx : Tx) : M (option Receipt) :=
  call (TxWait tx) (fun h => tx_wait env h tx).

Definition checkAndApprove (token : Token) (spender : Spender) : M unit :=
  allowance <- call (Erc20Allowance token spender)
                 (fun h => erc20_allowance env h token spender) ;;
  if allowance =? 0 then
    tryCatch
      (tx <- call (Erc20Approve token spender)
               (fun h => erc20_approve env h token spender) ;;
       txWait tx ;;;
       ret tt)
      (fun e => throw e)
  else ret tt.

Definition approveAll : M unit :=
  checkAndApprove USDC NONFUNGIBLE_POSITION_MANAGER_ADDR ;;;
  checkAndApprove WETH NONFUNGIBLE_POSITION_MANAGER_ADDR ;;;
  checkAndApprove USDC SWAP_ROUTER_ADDR ;;;
  checkAndApprove WETH SWAP_ROUTER_ADDR.

(** [new Percent(1).subtract(new Percent(50, 10_000))] is the fraction
    9950 / 10000, and [expectedOutput.multiply(..)] multiplies numerators
    and denominators. *)
Definition slippageTolerance : Q := Qmake 50 10000.
Definition minAmountOutOf (expectedOutput : Z) : Z :=
  quotient (Qmult (inject_Z expectedOutput)
                  (Qminus (inject_Z 1) slippageTolerance)).

(** The signed deviation of the USDC holding from half of the total. *)
(** [priceWethInUsdc]: the price of whichever pool token is WETH. *)
Definition priceWethInUsdcOf (pool : Pool) : num F :=
  if Token_eqb (token0 pool) WETH
  then ofPrice F (token0 pool) (token0Price pool)
  else ofPrice F (token1 pool) (token1Price pool).

(** [usdcDiff]: the signed deviation of the USDC holding from half of the
    total value, [valUSDC - (valUSDC + valWETH * price) / 2]. *)
Definition usdcDiffOf (pool : Pool) (balUSDC balWETH : Z) : num F :=
  let valUSDC := ofUnits F balUSDC 6 in
  let valWETH := ofUnits F balWETH 18 in
  let totalValueUSDC :=
    fadd F valUSDC (fmul F valWETH (priceWethInUsdcOf pool)) in
  let targetValue := fdiv F totalValueUSDC (lit_2 F) in
  fsub F valUSDC targetValue.

(** [router.exactInputSingle({...})] followed by [tx.wait()], as written
    in each of the two branches of [rebalancePortfolio]. *)
Definition swapExactInput (tIn tOut : Token) (amountInRaw minOut : Z)
  : M unit :=
  now <- dateNow ;;
  let p := {| tokenIn := tIn; tokenOut := tOut; swap_fee := POOL_FEE;
              swap_deadline := deadlineAt now; amountIn := amountInRaw;
              amountOutMinimum := minOut; sqrtPriceLimitX96 := 0 |} in
  tx <- call (RouterExactInputSingle p)
          (fun h => router_exactInputSingle env h p) ;;
  txWait tx ;;;
  ret tt.

Definition rebalancePortfolio (configuredPool : Pool) : M unit :=
  balUSDC <- getBalance USDC ;;
  balWETH <- getBalance WETH ;;
  let usdcDiff := usdcDiffOf configuredPool balUSDC balWETH in
  if flt F (fabs F usdcDiff) (lit_2 F) then ret tt
  else if flt F (lit_0 F) usdcDiff then
    (* Excess USDC, sell USDC -> buy WETH *)
    amountInRaw <- liftRes (toUnits F usdcDiff 6) ;;
    expectedOutput <- liftRes (getOutputAmount configuredPool USDC amountInRaw) ;;
    swapExactInput USDC WETH amountInRaw (minAmountOutOf expectedOutput)
  else
    (* Excess WETH, sell WETH -> buy USDC *)
    let wethToSellVal :=
      fdiv F (fabs F usdcDiff) (priceWethInUsdcOf configuredPool) in
    amountInRaw <- liftRes (toUnits F (fmul F wethToSellVal (lit_0_99 F)) 18) ;;
    expectedOutput <- liftRes (getOutputAmount configuredPool WETH amountInRaw) ;;
    swapExactInput WETH USDC amountInRaw (minAmountOutOf expectedOutput).

Definition mintMaxLiquidity (configuredPool : Pool) (tickLower tickUpper : Z)
  : M string :=
  balUSDC <- getBalance USDC ;;
  balWETH <- getBalance WETH ;;
  position <- liftRes (fromAmounts configuredPool tickLower tickUpper
                         balWETH balUSDC) ;;
  now <- dateNow ;;
  let mintParams :=
    {| mint_token0 := token0 configuredPool;
       mint_token1 := token1 configuredPool;
       mint_fee := POOL_FEE;
       mint_tickLower := tickLower;
       mint_tickUpper := tickUpper;
       amount0Desired := fst (mintAmounts position);
       amount1Desired := snd (mintAmounts position);
       amount0Min := 0;
       amount1Min := 0;
       mint_deadline := deadlineAt now |} in
  tx <- call (NpmMint mintParams) (fun h => npm_mint env h mintParams) ;;
  receipt <- txWait tx ;;
  match receipt with
  | None => throw (TypeError "Cannot read properties of null (reading 'logs')")
  | Some rc =>
      match find (isMintEvent env) (logs rc) with
      | None =>
          throw (TypeError "Cannot read properties of undefined (reading 'data')")
      | Some event => decodeTokenId event
      end
  end.

(** Step 1 of [executeFullRebalance], the body of its [try] block. *)
Definition exitOldPosition (oldTokenId : string) : M unit :=
  pos <- call (NpmPositions oldTokenId)
           (fun h => npm_positions env h oldTokenId) ;;
  let liquidity := liquidity pos in
  (if liquidity >? 0 then
     now <- dateNow ;;
     let p := {| dec_tokenId := oldTokenId; dec_liquidity := liquidity;
                 dec_amount0Min := 0; dec_amount1Min := 0;
                 dec_deadline := deadlineAt now |} in
     txDec <- call (NpmDecreaseLiquidity p)
                (fun h => npm_decreaseLiquidity env h p) ;;
     txWait txDec ;;;
     ret tt
   else ret tt) ;;;
  let c := {| col_tokenId := oldTokenId;
              col_amount0Max := MAX_UINT128; col_amount1Max := MAX_UINT128 |} in
  txCol <- call (NpmCollect c) (fun h => npm_collect env h c) ;;
  txWait txCol ;;;
  call (NpmBurn oldTokenId) (fun h => npm_burn env h oldTokenId) ;;;
  ret tt.

(** Steps 3 to 5: refresh the price, compute the range, mint, save. *)
Definition refreshRangeMintSave (configuredPool : Pool) : M unit :=
  newSlot0 <- call PoolSlot0 (pool_slot0 env) ;;
  let newCurrentTick := tick newSlot0 in
  let tickSpace := tickSpacing configuredPool in
  let '(tickLower, tickUpper) := Range.computeRange newCurrentTick tickSpace in
  newTokenId <- mintMaxLiquidity configuredPool tickLower tickUpper ;;
  saveState newTokenId.

(** Step 1 with its guard and its [catch], which only logs a warning. *)
Definition exitIfAny (oldTokenId : string) : M unit :=
  if negb (String.eqb oldTokenId "0") then
    tryCatch (exitOldPosition oldTokenId) (fun _ => ret tt)
  else ret tt.

Definition executeFullRebalance (configuredPool : Pool) (oldTokenId : string)
  : M unit :=
  (* 1. Burn old position if exists *)
  exitIfAny oldTokenId ;;;
  (* 2. Rebalance (Swap) *)
  rebalancePortfolio configuredPool ;;;
  (* 3-5. *)
  refreshRangeMintSave configuredPool.

(** The head of [runLifeCycle], up to the pool object. *)
Definition startup : M (Slot0 * Pool) :=
  call GetNetwork (provider_getNetwork env) ;;;
  approveAll ;;;
  sl <- promiseAll2 (call PoolSlot0 (pool_slot0 env))
                    (call PoolLiquidity (pool_liquidity env)) ;;
  let '(slot0, poolLiquidity) := sl in
  configuredPool <- liftRes (newPool env slot0 poolLiquidity) ;;
  ret (slot0, configuredPool).

Definition runLifeCycle : M unit :=
  sp <- startup ;;
  let '(slot0, configuredPool) := sp in
  let currentTick := tick slot0 in
  st <- loadState ;;
  let tokenId := tokenId st in
  (* Scenario A: First Run *)
  if String.eqb tokenId "0" then
    recoveredId <- findOrphanedPosition ;;
    (if negb (String.eqb recoveredId "0") then saveState recoveredId
     else ret tt) ;;;
    executeFullRebalance configuredPool "0"
  else
    (* Scenario B: Check Existing Position *)
    tryCatch
      (pos <- call (NpmPositions tokenId)
                (fun h => npm_positions env h tokenId) ;;
       if (liquidity pos =? 0) && (tickLower pos =? 0) then
         executeFullRebalance configuredPool "0"
       else
         let isOutOfRange :=
           (currentTick <? tickLower pos) || (currentTick >? tickUpper pos) in
         if isOutOfRange then executeFullRebalance configuredPool tokenId
         else ret tt)
      (fun _ => ret tt).

End WithEnv.
End Monolith.

(* ===================================================================== *)
(** ** The modular actions (src/actions) *)
(* ===================================================================== *)

Module Actions.
Section WithEnv.

Variable cfg : Config.
Variable env : Env.

Definition dateNow : M Z := gets (fun w => clock env (trace w)).

Definition withRetry {T} (operation : M T) : M T :=
  Utils.withRetryDefault (MAX_RETRIES cfg) operation.

Definition waitWithTimeout (tx : Tx) (timeoutMs : Z) : M Receipt :=
  Utils.waitWithTimeout (tx_race env) tx timeoutMs.

Definition getBalance (token : Token) : M Z :=
  withRetry (call (Erc20BalanceOf token)
               (fun h => erc20_balanceOf env h token)).

Definition atomicExitPosition (tokenId : string) : M unit :=
  pos <- withRetry (call (NpmPositions tokenId)
                      (fun h => npm_positions env h tokenId)) ;;
  let liquidity := liquidity pos in
  now <- dateNow ;;
  (* 1. Decrease Liquidity *)
  let calls :=
    if liquidity >? 0 then
      [EncDecreaseLiquidity
         {| dec_tokenId := tokenId; dec_liquidity := liquidity;
            dec_amount0Min := 0; dec_amount1Min := 0;
            dec_deadline := deadlineAt now |}]
    else [] in
  (* 2. Collect Fees, 3. Burn NFT *)
  let calls :=
    calls ++ [EncCollect {| col_tokenId := tokenId;
                            col_amount0Max := MAX_UINT128;
                            col_amount1Max := MAX_UINT128 |};
              EncBurn tokenId] in
  tryCatch
    (tx <- call (NpmMulticall calls) (fun h => npm_multicall env h calls) ;;
     waitWithTimeout tx (TX_TIMEOUT_MS cfg) ;;;
     ret tt)
    (fun e => throw e).

(** [router.exactInputSingle({..., amountOutMinimum: 0, ...})] followed by
    [waitWithTimeout], as written in each of the two branches. *)
Definition swapExactInput (tIn tOut : Token) (amountInRaw : Z) : M unit :=
  now <- dateNow ;;
  let p := {| tokenIn := tIn; tokenOut := tOut; swap_fee := POOL_FEE;
              swap_deadline := deadlineAt now; amountIn := amountInRaw;
              amountOutMinimum := 0; sqrtPriceLimitX96 := 0 |} in
  tx <- call (RouterExactInputSingle p)
          (fun h => router_exactInputSingle env h p) ;;
  waitWithTimeout tx (TX_TIMEOUT_MS cfg) ;;;
  ret tt.

(** The amounts are the SDK's exact fractions of raw units.
    [parseFloat(a.toExact()) < 5] on a USDC amount is [a.quotient < 5 * 10^6]
    and [< 0.002] on a WETH amount is [a.quotient < 2 * 10^15]: [toExact]
    prints the quotient scaled by the token's decimals, and neighbouring
    quotients are further apart than the rounding of a double there. *)
Definition rebalancePortfolio (configuredPool : Pool) : M unit :=
  balUSDC <- getBalance USDC ;;
  balWETH <- getBalance WETH ;;
  let priceWethToUsdc :=
    if Token_eqb (token0 configuredPool) WETH
    then token0Price configuredPool else token1Price configuredPool in
  let wethAmount := inject_Z balWETH in
  let usdcAmount := inject_Z balUSDC in
  let wethValueInUsdc := Qmult priceWethToUsdc wethAmount in
  match Qcompare usdcAmount wethValueInUsdc with
  | Gt =>
      (* Sell USDC *)
      let diff := Qminus usdcAmount wethValueInUsdc in
      let amountToSell := Qdiv diff (inject_Z 2) in
      if quotient amountToSell <? 5 * 10 ^ 6 then ret tt
      else swapExactInput USDC WETH (quotient amountToSell)
  | _ =>
      (* Sell WETH *)
      let diffValueInUsdc := Qminus wethValueInUsdc usdcAmount in
      let amountToSellValue := Qdiv diffValueInUsdc (inject_Z 2) in
      let priceUsdcToWeth :=
        if Token_eqb (token0 configuredPool) USDC
        then token0Price configuredPool else token1Price configuredPool in
      let amountToSell := Qmult priceUsdcToWeth amountToSellValue in
      if quotient amountToSell <? 2 * 10 ^ 15 then ret tt
      else swapExactInput WETH USDC (quotient amountToSell)
  end.

Definition MINT_PARSE_ERROR : Err :=
  JsError "Mint successful but failed to parse Token ID from logs.".

Definition mintMaxLiquidity (configuredPool : Pool) (tickLower tickUpper : Z)
  : M string :=
  balUSDC <- getBalance USDC ;;
  balWETH <- getBalance WETH ;;
  position <- liftRes (fromAmounts configuredPool tickLower tickUpper
                         balWETH balUSDC) ;;
  let '(amount0Min, amount1Min) := mintAmountsWithSlippage position in
  now <- dateNow ;;
  let mintParams :=
    {| mint_token0 := token0 configuredPool;
       mint_token1 := token1 configuredPool;
       mint_fee := POOL_FEE;
       mint_tickLower := tickLower;
       mint_tickUpper := tickUpper;
       amount0Desired := fst (mintAmounts position);
       amount1Desired := snd (mintAmounts position);
       amount0Min := amount0Min;
       amount1Min := amount1Min;
       mint_deadline := deadlineAt now |} in
  tx <- call (NpmMint mintParams) (fun h => npm_mint env h mintParams) ;;
  receipt <- waitWithTimeout tx (TX_TIMEOUT_MS cfg) ;;
  match find (isMintEvent env) (logs receipt) with
  | None => throw MINT_PARSE_ERROR
  | Some event => decodeTokenId event
  end.

End WithEnv.
End Actions.

(* ===================================================================== *)
(** ** The event-driven scheduler *)
(* ===================================================================== *)

Module Scheduler.
Section WithEnv.

Variable cfg : Config.
Variable env : Env.

Definition dateNow : M Z := gets (fun w => clock env (trace w)).

(** [!tokenId || tokenId === "0"]. *)
Definition noActivePosition (tokenId : option string) : bool :=
  match tokenId with
  | None => true
  | Some s => String.eqb s "" || String.eqb s "0"
  end.

Definition idOf (tokenId : option string) : string :=
  match tokenId with Some s => s | None => "" end.

Definition readPool : M (Slot0 * Pool) :=
  sl <- promiseAll2 (call PoolSlot0 (pool_slot0 env))
                    (call PoolLiquidity (pool_liquidity env)) ;;
  let '(slot0, poolLiquidity) := sl in
  configuredPool <- liftRes (newPool env slot0 poolLiquidity) ;;
  ret (slot0, configuredPool).

Definition executeFullRebalance (oldTokenId : string) : M unit :=
  call (ActionsExecuteFullRebalance oldTokenId)
    (fun h => actions_executeFullRebalance env h oldTokenId).

Definition sendEmailAlert (subject body : string) : M unit :=
  call (SendEmailAlert subject body)
    (fun h => utils_sendEmailAlert env h subject body).

Definition onNewBlock (blockNumber : Z) : M unit :=
  loaded <- call StateModuleLoad (state_loadState env) ;;
  if noActivePosition loaded then
    readPool ;;;
    executeFullRebalance "0" ;;;
    modify (set_lastHedgeTime 0)
  else
    let tokenId := idOf loaded in
    (* CRITICAL PATH: SAFETY CHECK *)
    isSafe <- call (CheckHealthAndPanic tokenId)
                (fun h => aave_checkHealthAndPanic env h tokenId) ;;
    if negb isSafe then
      sendEmailAlert "Bot Stopped" "Entered SAFE MODE after panic exit." ;;;
      modify (set_isSafeMode true)
    else
      (* STRATEGY PATH *)
      now <- dateNow ;;
      last <- gets lastHedgeTime ;;
      if now - last <? HEDGE_CHECK_INTERVAL_MS then ret tt
      else
        sp <- readPool ;;
        let '(slot0, configuredPool) := sp in
        let currentTick := tick slot0 in
        pos <- call (NpmPositions tokenId)
                 (fun h => npm_positions env h tokenId) ;;
        if liquidity pos =? 0 then
          sendEmailAlert "CRITICAL: Position Closed."
            (String.append "ID: " tokenId) ;;;
          call ScanLocalOrphans (state_scanLocalOrphans env)
        else
          let tl := tickLower pos in
          let tu := tickUpper pos in
          if (currentTick <? tl) || (currentTick >? tu) then
            executeFullRebalance tokenId ;;;
            now' <- dateNow ;;
            modify (set_lastHedgeTime now')
          else
            (* Check Hedge *)
            amounts <- liftRes (positionAmounts configuredPool
                                  (liquidity pos) tl tu) ;;
            let '(amount0, amount1) := amounts in
            let lpEthAmount :=
              if wethSortsFirst cfg then amount0 else amount1 in
            call (AdjustHedge lpEthAmount tokenId)
              (fun h => aave_adjustHedge env h lpEthAmount tokenId) ;;;
            now' <- dateNow ;;
            modify (set_lastHedgeTime now').

(** The listener registered by [setupEventListeners], run to completion:
    safe-mode check, single-flight guard, then
    [try { await onNewBlock } catch { log } finally { isProcessing = false }]. *)
Definition blockListener (blockNumber : Z) : M unit :=
  fun w =>
    if isSafeMode w then (Ok tt, w)
    else if isProcessing w then (Ok tt, w)
    else
      tryFinally
        (tryCatch (onNewBlock blockNumber) (fun _ => ret tt))
        (set_isProcessing false)
        (set_isProcessing true w).

(** *** Interleaving of listeners

    A listener suspends at each [await]; other block events may be
    delivered meanwhile.  A process state is the world together with the
    block numbers of the evaluations that have entered [onNewBlock] and
    not yet left the [finally].  While one of them is suspended only
    listeners and re-subscriptions run, and these read the flags without
    writing them, so the evaluation's effects are applied when it
    settles. *)
Record Proc : Type := { world : World; inFlight : list Z }.

Inductive Event : Type :=
| BlockEvent (blockNumber : Z)   (* the provider delivers a block *)
| Settle                         (* the oldest running evaluation finishes *)
| Reconnect.                     (* [setupEventListeners] runs again *)

Definition step (p : Proc) (ev : Event) : Proc :=
  match ev with
  | BlockEvent blockNumber =>
      if isSafeMode (world p) then p
      else if isProcessing (world p) then p
      else {| world := set_isProcessing true (world p);
              inFlight := inFlight p ++ [blockNumber] |}
  | Settle =>
      match inFlight p with
      | [] => p
      | blockNumber :: rest =>
          let '(_, w') :=
            tryFinally
              (tryCatch (onNewBlock blockNumber) (fun _ => ret tt))
              (set_isProcessing false) (world p) in
          {| world := w'; inFlight := rest |}
      end
  | Reconnect => p
  end.

Definition run (p : Proc) (evs : list Event) : Proc := fold_left step evs p.

Definition startProc (f : FileState) : Proc :=
  {| world := initialWorld f; inFlight := [] |}.

End WithEnv.
End Scheduler.

(* ===================================================================== *)
(** ** Vocabulary of the statements *)
(* ===================================================================== *)

(** The world after a sequence of calls has been recorded. *)
Definition logCalls (cs : list Call) (w : World) : World :=
  {| trace := trace w ++ cs; stateFile := stateFile w;
     isProcessing := isProcessing w; lastHedgeTime := lastHedgeTime w;
     isSafeMode := isSafeMode w |}.

(** The calls a computation adds to the trace of [w]. *)
Definition newCalls (w w' : World) : Trace :=
  skipn (List.length (trace w)) (trace w').

(** Delay before the [i]-th retry of [withRetry(op, retries)]. *)
Definition retryDelay (MAX_RETRIES retries : Z) (i : nat) : Z :=
  1000 * (MAX_RETRIES - retries + Z.of_nat i).

(** The world in which attempt number [j] (counted from 0) of
    [withRetry(op, retries)] starts: the world left by the failed attempt
    before it, after the sleep that precedes the [j]-th retry. *)
Fixpoint attemptWorld {T} (MAX_RETRIES retries : Z) (op : M T)
    (j : nat) (w : World) : World :=
  match j with
  | O => w
  | S j' =>
      logCall (Sleep (retryDelay MAX_RETRIES retries j))
        (snd (op (attemptWorld MAX_RETRIES retries op j' w)))
  end.

(** The trace of [j] failed attempts at [c], each followed by its sleep. *)
Definition failedAttempts (MAX_RETRIES retries : Z) (c : Call) (j : nat)
  : Trace :=
  flat_map (fun i => [c; Sleep (retryDelay MAX_RETRIES retries i)]) (seq 1 j).

(** A computation that leaves a component of the world as it found it. *)
Definition keeps {X} (sel : World -> X) {A} (c : M A) : Prop :=
  forall w, sel (snd (c w)) = sel w.

(** A computation that only makes calls satisfying [P], and never drops
    what was recorded before. *)
Definition emits (P : Call -> bool) {A} (c : M A) : Prop :=
  forall w, exists cs,
    trace (snd (c w)) = trace w ++ cs /\ forallb P cs = true.

(** A computation that never clears [isSafeMode]. *)
Definition keepsSafeMode {A} (c : M A) : Prop :=
  forall w, isSafeMode w = true -> isSafeMode (snd (c w)) = true.

Definition notStateWrite (c : Call) : bool := negb (isWriteStateFile c).
Definition notMutating (c : Call) : bool := negb (mutating c).
Definition notTransaction (c : Call) : bool := negb (isTransaction c).

(** The single-flight invariant of the scheduler process: either no
    evaluation is running and the guard is down, or exactly one is running,
    the guard is up and safe mode is not set. *)
Definition guardInv (p : Scheduler.Proc) : Prop :=
  (isProcessing (Scheduler.world p) = false /\ Scheduler.inFlight p = []) \/
  (isProcessing (Scheduler.world p) = true /\
   isSafeMode (Scheduler.world p) = false /\
   exists blockNumber, Scheduler.inFlight p = [blockNumber]).

(** The deviation in the words of the specification: the held balances are
    converted to a common value unit (USDC) at the pool's price, and the
    deviation is the distance of the USDC holding from half of the total
    value.  Balances are in raw units (6 and 18 decimals), the price is in
    USDC per WETH; the arithmetic is exact. *)
Definition specDeviation (balUSDC balWETH : Z) (priceWethInUsdc : Q) : Q :=
  let valUSDC := Qmake balUSDC (10 ^ 6) in
  let valWETH := Qmake balWETH (10 ^ 18) in
  let totalValue := Qplus valUSDC (Qmult valWETH priceWethInUsdc) in
  Qabs (Qminus valUSDC (Qdiv totalValue (inject_Z 2))).

(** *** Sample collaborators, for running the model on concrete inputs *)

(** Exact rational arithmetic as an instance of the number operations;
    [ofPrice] rescales a raw price by the decimals of the two tokens and
    [toUnits] rounds half up to [d] decimals. *)
Definition QNum : NumOps :=
  {| num := Q;
     ofUnits := fun x d => Qmake x (Z.to_pos (10 ^ d));
     ofPrice := fun base p =>
       match base with
       | WETH => Qmult p (inject_Z (10 ^ 12))
       | USDC => Qdiv p (inject_Z (10 ^ 12))
       end;
     lit_0 := inject_Z 0;
     lit_2 := inject_Z 2;
     lit_0_99 := Qmake 99 100;
     fadd := Qplus; fsub := Qminus; fmul := Qmult; fdiv := Qdiv;
     fabs := Qabs;
     flt := fun a b => match Qcompare a b with Lt => true | _ => false end;
     toUnits := fun x d =>
       let y := Qmult x (inject_Z (10 ^ d)) in
       Ok ((2 * Qnum y + Zpos (Qden y)) / (2 * Zpos (Qden y))) |}.

(** A pool with WETH as token0, at 3000 USDC per WETH (3 * 10^-9 raw USDC
    per raw WETH), whose quote for any input is [quote]. *)
Definition samplePool (quote : Z) : Pool :=
  {| token0 := WETH; token1 := USDC; fee := POOL_FEE;
     tickCurrent := 0; tickSpacing := 60;
     token0Price := Qmake 3 1000000000; token1Price := Qmake 1000000000 3;
     getOutputAmount := fun _ _ => Ok quote;
     fromAmounts := fun _ _ a0 a1 =>
       Ok {| mintAmounts := (a0, a1); mintAmountsWithSlippage := (a0, a1) |};
     positionAmounts := fun _ _ _ => Ok (1, 1) |}.

(** A pool as the entry points build it, [new Pool(tokenA, tokenB, fee,
    sqrtPriceX96, liquidity, tick)] with WETH as token0, at [usdcPerWeth]
    USDC per WETH.  No tick data provider is passed, and on such a pool the
    SDK rejects every request for a quote. *)
Definition NO_TICK_DATA : Err := JsError "No tick data provider was given".

Definition poolWithoutTicks (usdcPerWeth : Z) : Pool :=
  {| token0 := WETH; token1 := USDC; fee := POOL_FEE;
     tickCurrent := 0; tickSpacing := 60;
     token0Price := Qmake usdcPerWeth (10 ^ 12);
     token1Price := Qmake (10 ^ 12) (Z.to_pos usdcPerWeth);
     getOutputAmount := fun _ _ => Throw NO_TICK_DATA;
     fromAmounts := fun _ _ a0 a1 =>
       Ok {| mintAmounts := (a0, a1); mintAmountsWithSlippage := (a0, a1) |};
     positionAmounts := fun _ _ _ => Ok (1, 1) |}.

(** The knobs of a sample run; everything else succeeds. *)
Record Script : Type := {
  s_now : Z;                          (* the clock, constant *)
  s_loaded : option string;           (* what the state module returns *)
  s_healthy : Res bool;               (* the health verdict *)
  s_positions : Res PositionInfo;     (* [npm.positions] *)
  s_owned : list Z;                   (* tokens owned by the account *)
  s_balances : Token -> Z;            (* ERC-20 balances *)
  s_quote : Z;                        (* the pool's quote *)
  s_swap : Res Tx;                    (* the swap submission *)
  s_slot0 : Res Slot0;                (* [pool.slot0] *)
  s_mintLogs : option Receipt;        (* receipt of every waited transaction *)
  s_rebalance : Res unit              (* the actions module's protocol *)
}.

Definition scriptedEnv (s : Script) : Env :=
  {| clock := fun _ => s_now s;
     ethers_id := fun sig => sig;
     newPool := fun _ _ => Ok (samplePool (s_quote s));
     erc20_balanceOf := fun _ t => Ok (s_balances s t);
     erc20_allowance := fun _ _ _ => Ok 1;
     erc20_approve := fun _ _ _ => Ok 1;
     npm_balanceOf := fun _ => Ok (Z.of_nat (List.length (s_owned s)));
     npm_tokenOfOwnerByIndex := fun _ i =>
       match nth_error (s_owned s) (Z.to_nat i) with
       | Some id => Ok id
       | None => Throw (Rejected 1)
       end;
     npm_positions := fun _ _ => s_positions s;
     npm_decreaseLiquidity := fun _ _ => Ok 2;
     npm_collect := fun _ _ => Ok 3;
     npm_burn := fun _ _ => Ok 4;
     npm_multicall := fun _ _ => Ok 5;
     npm_mint := fun _ _ => Ok 6;
     router_exactInputSingle := fun _ _ => s_swap s;
     pool_slot0 := fun _ => s_slot0 s;
     pool_liquidity := fun _ => Ok 1000;
     provider_getNetwork := fun _ => Ok 42161;
     tx_wait := fun _ _ => Ok (s_mintLogs s);
     tx_race := fun _ _ _ => Utils.Settled (Ok (s_mintLogs s));
     state_loadState := fun _ => Ok (s_loaded s);
     state_scanLocalOrphans := fun _ => Ok tt;
     actions_executeFullRebalance := fun _ _ => s_rebalance s;
     aave_checkHealthAndPanic := fun _ _ => s_healthy s;
     aave_adjustHedge := fun _ _ _ => Ok tt;
     utils_sendEmailAlert := fun _ _ _ => Ok tt |}.

Definition mintReceipt (id : Z) : Receipt :=
  {| logs := [ {| topic0 := Some "Transfer(address,address,uint256)";
                  dataWord0 := None |};
               {| topic0 := Some MINT_SIGNATURE; dataWord0 := Some id |} ] |}.

Definition receiptWithoutMint : Receipt :=
  {| logs := [ {| topic0 := Some "Transfer(address,address,uint256)";
                  dataWord0 := None |} ] |}.

Definition sampleScript : Script :=
  {| s_now := 1700000000000;
     s_loaded := Some "77";
     s_healthy := Ok true;
     s_positions := Ok {| liquidity := 500; tickLower := 100; tickUpper := 200;
                          tokensOwed0 := 0; tokensOwed1 := 0 |};
     s_owned := [];
     s_balances := fun t => match t with USDC => 10000000 | WETH => 0 end;
     s_quote := 1600000000000000;
     s_swap := Ok 7;
     s_slot0 := Ok {| sqrtPriceX96 := 1; tick := 500 |};
     s_mintLogs := Some (mintReceipt 78);
     s_rebalance := Ok tt |}.

Definition sampleConfig : Config :=
  {| MAX_RETRIES := 3; TX_TIMEOUT_MS := 60000; wethSortsFirst := true |}.

(** The record [loadState] yields for a given state file. *)
Definition recordOf (f : FileState) : BotState :=
  match f with
  | Stored s => s
  | NoFile | Unreadable => {| tokenId := "0"; lastCheck := 0 |}
  end.

(** Variations of the sample script. *)
Definition withPositions (r : Res PositionInfo) (s : Script) : Script :=
  {| s_now := s_now s; s_loaded := s_loaded s; s_healthy := s_healthy s;
     s_positions := r; s_owned := s_owned s; s_balances := s_balances s;
     s_quote := s_quote s; s_swap := s_swap s; s_slot0 := s_slot0 s;
     s_mintLogs := s_mintLogs s; s_rebalance := s_rebalance s |}.

Definition withSwap (r : Res Tx) (s : Script) : Script :=
  {| s_now := s_now s; s_loaded := s_loaded s; s_healthy := s_healthy s;
     s_positions := s_positions s; s_owned := s_owned s;
     s_balances := s_balances s; s_quote := s_quote s; s_swap := r;
     s_slot0 := s_slot0 s; s_mintLogs := s_mintLogs s;
     s_rebalance := s_rebalance s |}.

Definition withOwned (l : list Z) (s : Script) : Script :=
  {| s_now := s_now s; s_loaded := s_loaded s; s_healthy := s_healthy s;
     s_positions := s_positions s; s_owned := l;
     s_balances := s_balances s; s_quote := s_quote s; s_swap := s_swap s;
     s_slot0 := s_slot0 s; s_mintLogs := s_mintLogs s;
     s_rebalance := s_rebalance s |}.

Definition withReceipt (r : option Receipt) (s : Script) : Script :=
  {| s_now := s_now s; s_loaded := s_loaded s; s_healthy := s_healthy s;
     s_positions := s_positions s; s_owned := s_owned s;
     s_balances := s_balances s; s_quote := s_quote s; s_swap := s_swap s;
     s_slot0 := s_slot0 s; s_mintLogs := r;
     s_rebalance := s_rebalance s |}.

Definition withHealth (r : Res bool) (s : Script) : Script :=
  {| s_now := s_now s; s_loaded := s_loaded s; s_healthy := r;
     s_positions := s_positions s; s_owned := s_owned s;
     s_balances := s_balances s; s_quote := s_quote s; s_swap := s_swap s;
     s_slot0 := s_slot0 s; s_mintLogs := s_mintLogs s;
     s_rebalance := s_rebalance s |}.

Definition withRebalance (r : Res unit) (s : Script) : Script :=
  {| s_now := s_now s; s_loaded := s_loaded s; s_healthy := s_healthy s;
     s_positions := s_positions s; s_owned := s_owned s;
     s_balances := s_balances s; s_quote := s_quote s; s_swap := s_swap s;
     s_slot0 := s_slot0 s; s_mintLogs := s_mintLogs s;
     s_rebalance := r |}.

Definition withBalances (b : Token -> Z) (s : Script) : Script :=
  {| s_now := s_now s; s_loaded := s_loaded s; s_healthy := s_healthy s;
     s_positions := s_positions s; s_owned := s_owned s;
     s_balances := b; s_quote := s_quote s; s_swap := s_swap s;
     s_slot0 := s_slot0 s; s_mintLogs := s_mintLogs s;
     s_rebalance := s_rebalance s |}.

(** 12 USDC and 0.003 WETH: at 3000 USDC per WETH, 1.50 USDC from an even
    split. *)
Definition balancedScript : Script :=
  withBalances
    (fun t => match t with USDC => 12000000 | WETH => 3000000000000000 end)
    sampleScript.

(* ===================================================================== *)
(** ** Further code: range variant, approvals, polling entry point, analytics *)
(* ===================================================================== *)

Module Variants.

(** The range computation of the polling entry points, which has no clamp:
    [tl = Math.floor((tick - WIDTH) / tickSpace) * tickSpace], likewise [tu],
    [if (tl === tu) tu += tickSpace], [if (tl > tu) swap].  [WIDTH] is 2000
    in the modular entry point and 1000 in the first monolithic one. *)
Definition computeRangeUnclamped (WIDTH tick tickSpace : Z) : Z * Z :=
  let tl := Range.floorDiv (tick - WIDTH) tickSpace * tickSpace in
  let tu := Range.floorDiv (tick + WIDTH) tickSpace * tickSpace in
  let tu := if tl =? tu then tu + tickSpace else tu in
  if tl >? tu then (tu, tl) else (tl, tu).

End Variants.

(** [for (const x of xs) { await body(x) }]. *)
Fixpoint forEach {A} (xs : list A) (body : A -> M unit) : M unit :=
  match xs with
  | [] => ret tt
  | x :: rest => body x ;;; forEach rest body
  end.

Module ActionsSetup.
Section WithEnv.

Variable cfg : Config.
Variable env : Env.

(** The body of the inner loop of [approveAll] in [src/actions]. *)
Definition approveIfNeeded (token : Token) (spender : Spender) : M unit :=
  allowance <- Actions.withRetry cfg
                 (call (Erc20Allowance token spender)
                    (fun h => erc20_allowance env h token spender)) ;;
  if allowance =? 0 then
    tx <- call (Erc20Approve token spender)
            (fun h => erc20_approve env h token spender) ;;
    Actions.waitWithTimeout env tx (TX_TIMEOUT_MS cfg) ;;;
    ret tt
  else ret tt.

Definition approveAll : M unit :=
  let tokens := [USDC; WETH] in
  let spenders := [NONFUNGIBLE_POSITION_MANAGER_ADDR; SWAP_ROUTER_ADDR] in
  forEach tokens (fun token =>
    forEach spenders (fun spender => approveIfNeeded token spender)).

End WithEnv.
End ActionsSetup.

Module Polling.
Section WithEnv.

Variable cfg : Config.
Variable env : Env.

(** [loadState] and [saveState] come from the state module. *)
Variable loadState : M BotState.
Variable saveState : string -> M unit.

Definition WIDTH : Z := 2000.

(** The head of [runLifeCycle], up to the pool object. *)
Definition startup : M (Slot0 * Pool) :=
  ActionsSetup.approveAll cfg env ;;;
  sl <- Actions.withRetry cfg
          (promiseAll2 (call PoolSlot0 (pool_slot0 env))
                       (call PoolLiquidity (pool_liquidity env))) ;;
  let '(slot0, poolLiquidity) := sl in
  configuredPool <- liftRes (newPool env slot0 poolLiquidity) ;;
  ret (slot0, configuredPool).

(** Rebalance, refresh the tick, compute the range, mint, save: the
    statements written out in both branches of [runLifeCycle]. *)
Definition rebalanceMintSave (configuredPool : Pool) : M unit :=
  Actions.rebalancePortfolio cfg env configuredPool ;;;
  newSlot0 <- call PoolSlot0 (pool_slot0 env) ;;
  let newTick := tick newSlot0 in
  let tickSpace := tickSpacing configuredPool in
  let '(tl, tu) := Variants.computeRangeUnclamped WIDTH newTick tickSpace in
  newId <- Actions.mintMaxLiquidity cfg env configuredPool tl tu ;;
  saveState newId.

Definition runLifeCycle : M unit :=
  sp <- startup ;;
  let '(slot0, configuredPool) := sp in
  let currentTick := tick slot0 in
  st <- loadState ;;
  let tokenId := tokenId st in
  (* Branch A: Create new Position *)
  if String.eqb tokenId "0" then rebalanceMintSave configuredPool
  else
    (* Branch B: Manage Existing Position *)
    tryCatch
      (pos <- Actions.withRetry cfg
                (call (NpmPositions tokenId)
                   (fun h => npm_positions env h tokenId)) ;;
       if (liquidity pos =? 0) && (tickLower pos =? 0) then saveState "0"
       else
         let tl := tickLower pos in
         let tu := tickUpper pos in
         if (currentTick <? tl) || (currentTick >? tu) then
           (* 1. Atomic Exit *)
           Actions.atomicExitPosition cfg env tokenId ;;;
           (* 2. - 5. *)
           rebalanceMintSave configuredPool
         else ret tt)
      (fun _ => ret tt).

End WithEnv.
End Polling.

Module Analytics.
Section WithLibraries.

(** RSI values are doubles; they are only passed around. *)
Variable rsiValue : Type.
(** [parseFloat(candle[4])]; [candle[4]] is [undefined] on a short row. *)
Variable parseFloat : option string -> rsiValue.
(** [RSI.calculate({ values, period })]. *)
Variable RSI_calculate : list rsiValue -> Z -> Res (list rsiValue).
(** The literal [50]. *)
Variable neutral : rsiValue.
(** [axios.get(BINANCE_API_URL, { params: { symbol, interval, limit } })]:
    the rows of [response.data]. *)
Variable axios_get : string -> string -> Z -> Res (list (list string)).

Definition getEthRsiFrom (interval : string) (period : Z) : Res rsiValue :=
  let attempt : Res rsiValue :=
    match axios_get "ETHUSDT" interval (period + 10) with
    | Throw e => Throw e
    | Ok data =>
        let closes := map (fun candle => parseFloat (nth_error candle 4)) data in
        match RSI_calculate closes period with
        | Throw e => Throw e
        | Ok rsiResult =>
            match rev rsiResult with
            | latestRsi :: _ => Ok latestRsi
            | [] => Throw (JsError "Insufficient data to calculate RSI")
            end
        end
    end in
  (* catch (error) { return 50 } *)
  match attempt with
  | Ok v => Ok v
  | Throw _ => Ok neutral
  end.

(** [getEthRsi(interval = '1h', period = 14)]. *)
Definition getEthRsi (interval : option string) (period : option Z)
  : Res rsiValue :=
  getEthRsiFrom (match interval with Some i => i | None => "1h" end)
                (match period with Some n => n | None => 14 end).

End WithLibraries.
End Analytics.

(** *** Vocabulary of the further statements *)

(** Total time slept in a trace. *)
Fixpoint totalSleep (cs : Trace) : Z :=
  match cs with
  | [] => 0
  | Sleep ms :: rest => ms + totalSleep rest
  | _ :: rest => totalSleep rest
  end.

Definition isMint (c : Call) : bool :=
  match c with NpmMint _ => true | _ => false end.

(** The calls of an exit: position read, withdrawal, collection, burn,
    alone or batched. *)
Definition isExitCall (c : Call) : bool :=
  match c with
  | NpmPositions _ | NpmDecreaseLiquidity _ | NpmCollect _ | NpmBurn _
  | NpmMulticall _ => true
  | _ => false
  end.

(** The two actions of the scheduler's strategy path. *)
Definition isAction (c : Call) : bool :=
  match c with
  | ActionsExecuteFullRebalance _ | AdjustHedge _ _ => true
  | _ => false
  end.

Definition notExitCall (c : Call) : bool := negb (isExitCall c).
Definition notAction (c : Call) : bool := negb (isAction c).
Definition notSwap (c : Call) : bool := negb (isSwap c).
Definition notMint (c : Call) : bool := negb (isMint c).

(** The batch [atomicExitPosition] builds for a position. *)
Definition exitBatch (tokenId : string) (liquidity deadline : Z)
  : list NpmCall :=
  (if liquidity >? 0 then
     [EncDecreaseLiquidity
        {| dec_tokenId := tokenId; dec_liquidity := liquidity;
           dec_amount0Min := 0; dec_amount1Min := 0;
           dec_deadline := deadline |}]
   else []) ++
  [EncCollect {| col_tokenId := tokenId;
                 col_amount0Max := MAX_UINT128;
                 col_amount1Max := MAX_UINT128 |};
   EncBurn tokenId].

(** The transactions of the exit step of the monolithic
    [executeFullRebalance], in the order it submits them. *)
Definition exitTransactions (tokenId : string) (liquidity deadline : Z)
  : list Call :=
  (if liquidity >? 0 then
     [NpmDecreaseLiquidity
        {| dec_tokenId := tokenId; dec_liquidity := liquidity;
           dec_amount0Min := 0; dec_amount1Min := 0;
           dec_deadline := deadline |}]
   else []) ++
  [NpmCollect {| col_tokenId := tokenId;
                 col_amount0Max := MAX_UINT128;
                 col_amount1Max := MAX_UINT128 |};
   NpmBurn tokenId].

(* ===================================================================== *)
(** * Properties *)
(* ===================================================================== *)

(** ** The computation monad *)

Lemma logCalls_nil (w : World) : logCalls [] w = w.
Proof. destruct w; unfold logCalls; cbn. now rewrite app_nil_r. Qed.

Lemma logCalls_app (cs ds : list Call) (w : World) :
  logCalls ds (logCalls cs w) = logCalls (cs ++ ds) w.
Proof. unfold logCalls; cbn. now rewrite app_assoc. Qed.

Lemma logCall_logCalls (c : Call) (w : World) : logCall c w = logCalls [c] w.
Proof. reflexivity. Qed.

Lemma newCalls_logCalls (cs : list Call) (w : World) :
  newCalls w (logCalls cs w) = cs.
Proof.
  unfold newCalls, logCalls; cbn.
  rewrite skipn_app, skipn_all, Nat.sub_diag. reflexivity.
Qed.

Lemma newCalls_self (w : World) : newCalls w w = [].
Proof. unfold newCalls. now rewrite skipn_all. Qed.

Lemma newCalls_logCall (c : Call) (w : World) : newCalls w (logCall c w) = [c].
Proof. rewrite logCall_logCalls. apply newCalls_logCalls. Qed.

(** Normalises the worlds met along a run to [logCalls cs w]. *)
Ltac norm_world :=
  rewrite ?logCall_logCalls, ?logCalls_app;
  cbn [List.app];
  rewrite ?newCalls_logCalls, ?newCalls_self.

(** Splits on the next answer a run is waiting for. *)
Ltac next_answer :=
  match goal with
  | |- context [match ?x with Ok _ => _ | Throw _ => _ end] =>
      let E := fresh "E" in destruct x eqn:E
  | |- context [match ?x with Some _ => _ | None => _ end] =>
      let E := fresh "E" in destruct x eqn:E
  | |- context [if ?x then _ else _] =>
      let E := fresh "E" in destruct x eqn:E
  end.

(** *** Frame rules *)

Lemma keeps_bind {X} (sel : World -> X) {A B} (c : M A) (k : A -> M B) :
  keeps sel c -> (forall a, keeps sel (k a)) ->
  keeps sel (bind c k).
Proof.
  intros Hc Hk w. unfold bind. specialize (Hc w).
  destruct (c w) as [[a | e] w']; cbn in *; [rewrite Hk |]; assumption.
Qed.

Lemma keeps_call {X} (sel : World -> X) {A} (c : Call) (f : Trace -> Res A) :
  (forall w, sel (logCall c w) = sel w) -> keeps sel (call c f).
Proof. intros H w. apply H. Qed.

Lemma keeps_ret {X} (sel : World -> X) {A} (a : A) : keeps sel (ret a).
Proof. intros w. reflexivity. Qed.

Lemma keeps_liftRes {X} (sel : World -> X) {A} (r : Res A) : keeps sel (liftRes r).
Proof. intros w. reflexivity. Qed.

Lemma keeps_gets {X} (sel : World -> X) {A} (f : World -> A) : keeps sel (gets f).
Proof. intros w. reflexivity. Qed.

Lemma keeps_promiseAll2 {X} (sel : World -> X) {A B} (a : M A) (b : M B) :
  keeps sel a -> keeps sel b -> keeps sel (promiseAll2 a b).
Proof.
  intros Ha Hb w. unfold promiseAll2. specialize (Ha w).
  destruct (a w) as [ra w1]. specialize (Hb w1).
  destruct (b w1) as [rb w2]. cbn in *.
  destruct ra, rb; cbn; congruence.
Qed.

Lemma keeps_throw {X} (sel : World -> X) {A} (e : Err) :
  keeps sel (throw (A := A) e).
Proof. intros w. reflexivity. Qed.

Lemma keeps_tryCatch {X} (sel : World -> X) {A} (c : M A) (h : Err -> M A) :
  keeps sel c -> (forall e, keeps sel (h e)) -> keeps sel (tryCatch c h).
Proof.
  intros Hc Hh w. unfold tryCatch. specialize (Hc w).
  destruct (c w) as [[a | e] w']; cbn in *; [| rewrite Hh]; assumption.
Qed.

Lemma emits_ret P {A} (a : A) : emits P (ret a).
Proof. intros w. exists []. cbn. now rewrite app_nil_r. Qed.

Lemma emits_throw P {A} (e : Err) : emits P (throw (A := A) e).
Proof. intros w. exists []. cbn. now rewrite app_nil_r. Qed.

Lemma emits_liftRes P {A} (r : Res A) : emits P (liftRes r).
Proof. intros w. exists []. cbn. now rewrite app_nil_r. Qed.

Lemma emits_gets P {A} (f : World -> A) : emits P (gets f).
Proof. intros w. exists []. cbn. now rewrite app_nil_r. Qed.

Lemma emits_call (P : Call -> bool) {A} (c : Call) (f : Trace -> Res A) :
  P c = true -> emits P (call c f).
Proof. intros H w. exists [c]. cbn. now rewrite H. Qed.

Lemma emits_bind P {A B} (c : M A) (k : A -> M B) :
  emits P c -> (forall a, emits P (k a)) -> emits P (bind c k).
Proof.
  intros Hc Hk w. unfold bind. destruct (Hc w) as (cs & Ht & Hp).
  destruct (c w) as [[a | e] w']; cbn in *.
  - destruct (Hk a w') as (ds & Ht' & Hp').
    exists (cs ++ ds). rewrite Ht', Ht, <- app_assoc, forallb_app, Hp, Hp'.
    now split.
  - now exists cs.
Qed.

Lemma emits_tryCatch P {A} (c : M A) (h : Err -> M A) :
  emits P c -> (forall e, emits P (h e)) -> emits P (tryCatch c h).
Proof.
  intros Hc Hh w. unfold tryCatch. destruct (Hc w) as (cs & Ht & Hp).
  destruct (c w) as [[a | e] w']; cbn in *.
  - now exists cs.
  - destruct (Hh e w') as (ds & Ht' & Hp').
    exists (cs ++ ds). rewrite Ht', Ht, <- app_assoc, forallb_app, Hp, Hp'.
    now split.
Qed.

Lemma emits_promiseAll2 P {A B} (a : M A) (b : M B) :
  emits P a -> emits P b -> emits P (promiseAll2 a b).
Proof.
  intros Ha Hb w. unfold promiseAll2. destruct (Ha w) as (cs & Ht & Hp).
  destruct (a w) as [ra w1]. destruct (Hb w1) as (ds & Ht' & Hp').
  destruct (b w1) as [rb w2]. cbn in *.
  exists (cs ++ ds).
  destruct ra, rb; cbn; rewrite Ht', Ht, <- app_assoc, forallb_app, Hp, Hp';
    now split.
Qed.

Lemma newCalls_trans (w w1 w2 : World) (cs ds : list Call) :
  trace w1 = trace w ++ cs -> trace w2 = trace w1 ++ ds ->
  newCalls w w2 = cs ++ ds.
Proof.
  intros H1 H2. unfold newCalls.
  rewrite H2, H1, <- app_assoc, skipn_app, skipn_all, Nat.sub_diag.
  reflexivity.
Qed.

Lemma forallb_negb_filter {A} (P : A -> bool) (l : list A) :
  forallb (fun x => negb (P x)) l = true -> filter P l = [].
Proof.
  induction l as [| x l IH]; cbn; [reflexivity |].
  intros H. apply andb_prop in H as [Hx Hl].
  destruct (P x); [discriminate | auto].
Qed.

(** Discharges [keeps] and [emits] goals by following the structure of the
    computation. *)
Ltac frame :=
  repeat first
    [ apply keeps_ret | apply keeps_throw | apply keeps_liftRes
    | apply keeps_gets | apply keeps_call; reflexivity
    | apply emits_ret | apply emits_throw | apply emits_liftRes
    | apply emits_gets | apply emits_call; reflexivity
    | apply keeps_bind | apply keeps_tryCatch | apply keeps_promiseAll2
    | apply emits_bind | apply emits_tryCatch | apply emits_promiseAll2
    | match goal with
      | |- forall _, _ => intro
      | |- keeps _ (if ?b then _ else _) => destruct b
      | |- emits _ (if ?b then _ else _) => destruct b
      | |- keeps _ (match ?x with _ => _ end) => destruct x
      | |- emits _ (match ?x with _ => _ end) => destruct x
      end ].

(** ** Range computation *)

Section RangeFacts.
Import Range.

Variables tick s : Z.
Hypothesis Htick : MIN_TICK <= tick <= MAX_TICK.
Hypothesis Hs : 0 < s <= WIDTH.

Let q1 := (tick - WIDTH) / s.
Let q2 := (tick + WIDTH) / s.
Let qM := MAX_TICK / s.

Lemma window_facts :
  q1 * s <= tick - WIDTH < q1 * s + s /\
  q2 * s <= tick + WIDTH < q2 * s + s /\
  qM * s <= MAX_TICK < qM * s + s /\
  q1 < q2 /\ q1 <= qM /\ - qM <= q2 /\ 1 <= qM.
Proof.
  unfold q1, q2, qM.
  pose proof (Z.div_mod (tick - WIDTH) s ltac:(lia)) as E1.
  pose proof (Z.mod_pos_bound (tick - WIDTH) s ltac:(lia)) as B1.
  pose proof (Z.div_mod (tick + WIDTH) s ltac:(lia)) as E2.
  pose proof (Z.mod_pos_bound (tick + WIDTH) s ltac:(lia)) as B2.
  pose proof (Z.div_mod MAX_TICK s ltac:(lia)) as E3.
  pose proof (Z.mod_pos_bound MAX_TICK s ltac:(lia)) as B3.
  unfold MIN_TICK, MAX_TICK, WIDTH in *.
  set (a := (tick - 2000) / s) in *. set (b := (tick + 2000) / s) in *.
  set (c := 887272 / s) in *.
  repeat split; try nia.
Qed.

End RangeFacts.

(** A pair of distinct, ordered multiples of the spacing inside the largest
    aligned window is left alone by [clampNormalize]. *)
Lemma clampNormalize_fixed (s a b : Z) :
  0 < s ->
  - (Range.MAX_TICK / s) <= a -> a < b -> b <= Range.MAX_TICK / s ->
  Range.clampNormalize s (a * s, b * s) = (a * s, b * s).
Proof.
  intros Hs Ha Hab Hb.
  pose proof (Z.div_mod Range.MAX_TICK s ltac:(lia)) as E3.
  pose proof (Z.mod_pos_bound Range.MAX_TICK s ltac:(lia)) as B3.
  unfold Range.clampNormalize, Range.floorDiv, Range.ceilDiv.
  unfold Range.MIN_TICK, Range.MAX_TICK in *.
  set (c := 887272 / s) in *.
  assert (L1 : (a * s <? -887272) = false) by (apply Z.ltb_ge; nia).
  assert (L2 : (b * s >? 887272) = false)
    by (rewrite Z.gtb_ltb; apply Z.ltb_ge; nia).
  assert (L3 : (a * s =? b * s) = false) by (apply Z.eqb_neq; nia).
  assert (L4 : (a * s >? b * s) = false)
    by (rewrite Z.gtb_ltb; apply Z.ltb_ge; nia).
  rewrite L1, L2, L3, L2, L4. reflexivity.
Qed.

Ltac step_with H := rewrite H; cbv beta iota; rewrite ?Z.gtb_ltb.

(** On a tick inside the global limits and a spacing of at most the
    half-width, the computed range is such a pair. *)
Lemma computeRange_aligned (tick s : Z) :
  Range.MIN_TICK <= tick <= Range.MAX_TICK -> 0 < s <= Range.WIDTH ->
  exists a b,
    Range.computeRange tick s = (a * s, b * s) /\
    - (Range.MAX_TICK / s) <= a /\ a < b /\ b <= Range.MAX_TICK / s.
Proof.
  intros Htick Hs.
  destruct (window_facts tick s Htick Hs)
    as (W1 & W2 & W3 & Q12 & Q1M & QM2 & QM1).
  unfold Range.computeRange, Range.window, Range.clampNormalize,
    Range.floorDiv, Range.ceilDiv.
  replace (- Range.MIN_TICK) with Range.MAX_TICK by reflexivity.
  set (q1 := (tick - Range.WIDTH) / s) in *.
  set (q2 := (tick + Range.WIDTH) / s) in *.
  set (qM := Range.MAX_TICK / s) in *.
  unfold Range.MIN_TICK, Range.MAX_TICK, Range.WIDTH in *.
  destruct (Z.ltb_spec (q1 * s) (-887272)) as [C1 | C1];
    destruct (Z.ltb_spec 887272 (q2 * s)) as [C2 | C2];
    rewrite ?Z.gtb_ltb; rewrite ?Z.gtb_ltb in *.
  - (* both bounds clamped *)
    step_with (proj2 (Z.ltb_lt 887272 (q2 * s)) C2).
    assert (E : (- qM * s =? qM * s) = false) by (apply Z.eqb_neq; nia).
    step_with E.
    assert (E2 : (887272 <? qM * s) = false) by (apply Z.ltb_ge; nia).
    step_with E2.
    assert (E3 : (qM * s <? - qM * s) = false) by (apply Z.ltb_ge; nia).
    step_with E3.
    exists (- qM), qM. repeat split; lia.
  - (* lower bound clamped *)
    step_with (proj2 (Z.ltb_ge 887272 (q2 * s)) C2).
    destruct (Z.eqb_spec (- qM * s) (q2 * s)) as [E | E].
    + assert (E2 : (887272 <? q2 * s + s) = false) by (apply Z.ltb_ge; nia).
      step_with E2.
      assert (E3 : (q2 * s + s <? - qM * s) = false) by (apply Z.ltb_ge; nia).
      step_with E3.
      exists (- qM), (q2 + 1). repeat split; try nia.
      f_equal; nia.
    + step_with (proj2 (Z.ltb_ge 887272 (q2 * s)) C2).
      assert (E3 : (q2 * s <? - qM * s) = false) by (apply Z.ltb_ge; nia).
      step_with E3.
      exists (- qM), q2. repeat split; nia.
  - (* upper bound clamped *)
    step_with (proj2 (Z.ltb_lt 887272 (q2 * s)) C2).
    assert (E : (q1 * s =? qM * s) = false) by (apply Z.eqb_neq; nia).
    step_with E.
    assert (E2 : (887272 <? qM * s) = false) by (apply Z.ltb_ge; nia).
    step_with E2.
    assert (E3 : (qM * s <? q1 * s) = false) by (apply Z.ltb_ge; nia).
    step_with E3.
    exists q1, qM. repeat split; nia.
  - (* no clamping *)
    step_with (proj2 (Z.ltb_ge 887272 (q2 * s)) C2).
    assert (E : (q1 * s =? q2 * s) = false) by (apply Z.eqb_neq; nia).
    step_with E.
    step_with (proj2 (Z.ltb_ge 887272 (q2 * s)) C2).
    assert (E3 : (q2 * s <? q1 * s) = false) by (apply Z.ltb_ge; nia).
    step_with E3.
    exists q1, q2. repeat split; nia.
Qed.

(** C7: for every tick a pool can report (within the global limits) and
    every tick spacing between 1 and the half-width 2000 (the pool of the
    bot has spacing 60), clamping and normalizing the computed range a
    second time returns the same pair, the lower bound is strictly below
    the upper bound, and both lie in [-887272, 887272]. *)
Theorem computeRange_idempotent_within_limits (tick s : Z) :
  Range.MIN_TICK <= tick <= Range.MAX_TICK -> 0 < s <= Range.WIDTH ->
  let r := Range.computeRange tick s in
  Range.clampNormalize s r = r /\
  fst r < snd r /\
  Range.MIN_TICK <= fst r /\ snd r <= Range.MAX_TICK.
Proof.
  intros Htick Hs r.
  destruct (computeRange_aligned tick s Htick Hs) as (a & b & E & Ha & Hab & Hb).
  subst r. rewrite E. cbn [fst snd].
  split; [apply clampNormalize_fixed; lia |].
  pose proof (Z.div_mod Range.MAX_TICK s ltac:(lia)) as E3.
  pose proof (Z.mod_pos_bound Range.MAX_TICK s ltac:(lia)) as B3.
  unfold Range.MIN_TICK, Range.MAX_TICK, Range.WIDTH in *.
  set (c := 887272 / s) in *.
  repeat split; nia.
Qed.

Lemma computeRange_idempotent_within_limits_witness :
  let r := Range.computeRange 887272 60 in
  r = (885240, 887220) /\
  Range.clampNormalize 60 r = r /\
  fst r < snd r /\
  Range.MIN_TICK <= fst r /\ snd r <= Range.MAX_TICK.
Proof.
  split; [reflexivity |].
  apply (computeRange_idempotent_within_limits 887272 60);
    unfold Range.MIN_TICK, Range.MAX_TICK, Range.WIDTH; lia.
Defined.

(** The spec's end-to-end scenario: tick 0, spacing 10. *)
Example computeRange_scenario : Range.computeRange 0 10 = (-2000, 2000).
Proof. reflexivity. Qed.

(** ** Retry harness *)

Lemma failedAttempts_S (MAX r : Z) (c : Call) (j : nat) :
  failedAttempts MAX r c (S j) =
  [c; Sleep (1000 * (MAX - r + 1))] ++ failedAttempts MAX (r - 1) c j.
Proof.
  unfold failedAttempts. cbn [seq flat_map].
  f_equal.
  rewrite <- seq_shift, flat_map_concat_map, map_map, <- flat_map_concat_map.
  apply flat_map_ext. intros i. unfold retryDelay.
  do 3 f_equal. lia.
Qed.

Lemma withRetry_rec_spec (MAX : Z) {T} (c : Call) (f : Trace -> Res T)
    (n : nat) (r : Z) (w : World) :
  exists j : nat,
    (j <= n)%nat /\
    (forall i, (i < j)%nat ->
       isOk (f (trace w ++ failedAttempts MAX r c i)) = false) /\
    Utils.withRetry_rec MAX (call c f) n r w =
      (f (trace w ++ failedAttempts MAX r c j),
       logCalls (failedAttempts MAX r c j ++ [c]) w) /\
    (isOk (f (trace w ++ failedAttempts MAX r c j)) = true \/ j = n).
Proof.
  revert r w. induction n as [| n IH]; intros r w.
  - exists 0%nat. cbn [failedAttempts seq flat_map].
    rewrite app_nil_r. repeat split.
    + lia.
    + intros i Hi; lia.
    + cbn. unfold tryCatch, call, throw.
      destruct (f (trace w)); reflexivity.
    + now right.
  - destruct (f (trace w)) as [v | e] eqn:E0.
    + exists 0%nat. cbn [failedAttempts seq flat_map].
      rewrite app_nil_r, E0. repeat split.
      * lia.
      * intros i Hi; lia.
      * cbn. unfold tryCatch, call. now rewrite E0.
      * now left.
    + set (d := 1000 * (MAX - r + 1)).
      destruct (IH (r - 1) (logCalls [c; Sleep d] w))
        as (j & Hj & Hfail & Hrun & Hlast).
      exists (S j).
      assert (Etr : forall k,
                 trace w ++ failedAttempts MAX r c (S k) =
                 trace (logCalls [c; Sleep d] w) ++
                 failedAttempts MAX (r - 1) c k).
      { intros k. rewrite failedAttempts_S. cbn [trace logCalls].
        now rewrite <- app_assoc. }
      repeat split.
      * lia.
      * intros [| i] Hi.
        -- cbn [failedAttempts seq flat_map]. now rewrite app_nil_r, E0.
        -- rewrite Etr. apply Hfail. lia.
      * rewrite Etr.
        assert (Hop : forall w0, call c f w0 = (f (trace w0), logCall c w0))
          by reflexivity.
        revert Hrun. generalize (call c f) as op, Hop. intros op Hop' Hrun.
        cbn [Utils.withRetry_rec]. unfold tryCatch at 1.
        rewrite Hop', E0. unfold bind, Utils.sleep, call.
        fold d. rewrite !logCall_logCalls, logCalls_app.
        cbn [app]. rewrite Hrun, logCalls_app.
        rewrite failedAttempts_S. reflexivity.
      * rewrite Etr. destruct Hlast as [Hl | Hl]; [now left | right; lia].
Qed.

Lemma tryCatch_rethrow {T} (op : M T) (w : World) :
  tryCatch op (fun error => throw error) w = op w.
Proof. unfold tryCatch, throw. now destruct (op w) as [[v | e] w']. Qed.

Lemma attemptWorld_shift {T} (MAX r : Z) (op : M T) (k : nat) (w : World) :
  attemptWorld MAX r op (S k) w =
  attemptWorld MAX (r - 1) op k
    (logCall (Sleep (retryDelay MAX r 1)) (snd (op w))).
Proof.
  induction k as [| k IH]; [reflexivity |].
  cbn [attemptWorld] in *. rewrite IH.
  do 2 f_equal. unfold retryDelay. lia.
Qed.

Lemma withRetry_rec_attempts (MAX : Z) {T} (op : M T)
    (n : nat) (r : Z) (w : World) :
  exists j : nat,
    (j <= n)%nat /\
    (forall i, (i < j)%nat ->
       isOk (fst (op (attemptWorld MAX r op i w))) = false) /\
    Utils.withRetry_rec MAX op n r w = op (attemptWorld MAX r op j w) /\
    (isOk (fst (op (attemptWorld MAX r op j w))) = true \/ j = n).
Proof.
  revert r w. induction n as [| n IH]; intros r w.
  - exists 0%nat. cbn [attemptWorld Utils.withRetry_rec].
    split; [lia |]. split; [intros i Hi; lia |].
    split; [apply tryCatch_rethrow | now right].
  - destruct (op w) as [[v | e] w'] eqn:E0.
    + exists 0%nat. cbn [attemptWorld Utils.withRetry_rec].
      split; [lia |]. split; [intros i Hi; lia |].
      split; [unfold tryCatch; now rewrite E0 | left; now rewrite E0].
    + destruct (IH (r - 1) (logCall (Sleep (retryDelay MAX r 1)) w'))
        as (j & Hj & Hfail & Hrun & Hlast).
      assert (Esh : forall k,
                attemptWorld MAX r op (S k) w =
                attemptWorld MAX (r - 1) op k
                  (logCall (Sleep (retryDelay MAX r 1)) w')).
      { intros k. rewrite attemptWorld_shift. now rewrite E0. }
      exists (S j). split; [lia |]. split; [| split].
      * intros [| i] Hi.
        -- cbn [attemptWorld]. now rewrite E0.
        -- rewrite Esh. apply Hfail. lia.
      * rewrite Esh, <- Hrun.
        cbn [Utils.withRetry_rec]. unfold tryCatch at 1. rewrite E0.
        reflexivity.
      * rewrite Esh. destruct Hlast as [Hl | Hl]; [now left | right; lia].
Qed.

(** C9, as amended: for every operation and every budget [retries],
    [withRetry] makes [j + 1] attempts for some [j <= retries], so at least
    one and at most [retries] retries: the first [j] attempts fail, the
    [i]-th retry is preceded by a sleep of
    [1000 * (MAX_RETRIES - retries + i)] ms, and the outcome of the last
    attempt (its result, or its error unchanged) is the outcome of
    [withRetry]; that last attempt succeeded unless the budget is used up.
    With the default budget [retries = MAX_RETRIES] the [i]-th delay is
    [1000 * i] ms. *)
Theorem withRetry_spec (MAX : Z) {T} (op : M T) (retries : Z) (w : World) :
  (exists j : nat,
     (j <= Z.to_nat retries)%nat /\
     (forall i, (i < j)%nat ->
        isOk (fst (op (attemptWorld MAX retries op i w))) = false) /\
     Utils.withRetry MAX op retries w =
       op (attemptWorld MAX retries op j w) /\
     (isOk (fst (op (attemptWorld MAX retries op j w))) = true \/
      j = Z.to_nat retries)) /\
  (forall i, retryDelay MAX retries i = 1000 * (MAX - retries + Z.of_nat i)) /\
  (forall i, retryDelay MAX MAX i = 1000 * Z.of_nat i).
Proof.
  split; [| split].
  - unfold Utils.withRetry. apply withRetry_rec_attempts.
  - reflexivity.
  - intros i. unfold retryDelay. lia.
Qed.

(** For an operation that is a single call [c], the trace of the run is
    [c; Sleep d1; c; Sleep d2; ...; c]. *)
Lemma withRetry_call_trace (MAX : Z) {T} (c : Call) (f : Trace -> Res T)
    (retries : Z) (w : World) :
  exists j : nat,
    (j <= Z.to_nat retries)%nat /\
    Utils.withRetry MAX (call c f) retries w =
      (f (trace w ++ failedAttempts MAX retries c j),
       logCalls (failedAttempts MAX retries c j ++ [c]) w) /\
    (isOk (f (trace w ++ failedAttempts MAX retries c j)) = true \/
     j = Z.to_nat retries).
Proof.
  destruct (withRetry_rec_spec MAX c f (Z.to_nat retries) retries w)
    as (j & Hj & _ & Hrun & Hlast).
  exists j. now repeat split.
Qed.

(** A run of the default budget 3: two failures, then success. *)
Example withRetry_third_attempt :
  let f := fun h : Trace =>
             if (List.length h <? 4)%nat then Throw (Rejected 7) else Ok 42 in
  Utils.withRetryDefault 3 (call (Operation 0) f) (initialWorld NoFile) =
  (Ok 42,
   logCalls [Operation 0; Sleep 1000; Operation 0; Sleep 2000; Operation 0]
     (initialWorld NoFile)).
Proof. reflexivity. Qed.

(** A run that uses the budget up: the last error comes out. *)
Example withRetry_exhausted :
  let f := fun h : Trace => Throw (A := Z) (Rejected (Z.of_nat (List.length h))) in
  Utils.withRetryDefault 2 (call (Operation 0) f) (initialWorld NoFile) =
  (Throw (Rejected 4),
   logCalls [Operation 0; Sleep 1000; Operation 0; Sleep 2000; Operation 0]
     (initialWorld NoFile)).
Proof. reflexivity. Qed.

(** C9, as stated, fails for a budget other than the default: with
    [MAX_RETRIES = 3] and a budget of 1, the delay before the first retry is
    3000 ms, not 1000 ms. *)
Lemma withRetry_delay_not_linear_in_budget :
  let f := fun _ : Trace => Throw (A := Z) (Rejected 7) in
  Utils.withRetry 3 (call (Operation 0) f) 1 (initialWorld NoFile) =
    (Throw (Rejected 7),
     logCalls [Operation 0; Sleep 3000; Operation 0] (initialWorld NoFile)) /\
  3000 <> 1000 * 1.
Proof. split; [reflexivity | lia]. Qed.

(** Witness of C9: a budget of 2 with [MAX_RETRIES = 3]; the operation fails
    once and then succeeds, after a delay of [1000 * (3 - 2 + 1)] ms. *)
Lemma withRetry_spec_witness :
  let f := fun h : Trace =>
             if (List.length h <? 2)%nat then Throw (Rejected 7) else Ok 42 in
  let op := call (Operation 0) f in
  let w := initialWorld NoFile in
  Utils.withRetry 3 op 2 w =
    (Ok 42, logCalls [Operation 0; Sleep 2000; Operation 0] w) /\
  exists j : nat,
    (j <= 2)%nat /\
    Utils.withRetry 3 op 2 w = op (attemptWorld 3 2 op j w).
Proof.
  intros f op w. split; [reflexivity |].
  destruct (proj1 (withRetry_spec 3 op 2 w)) as (j & Hj & _ & Hrun & _).
  exists j. split; [exact Hj | exact Hrun].
Defined.

Section RetryFirstSuccess.

Variable cfg : Config.

Lemma withRetry_first_success {T} (op : M T) (v : T) (w w' : World) :
  op w = (Ok v, w') -> Actions.withRetry cfg op w = (Ok v, w').
Proof.
  intros H. unfold Actions.withRetry, Utils.withRetryDefault, Utils.withRetry.
  destruct (Z.to_nat (MAX_RETRIES cfg)); cbn; unfold tryCatch; now rewrite H.
Qed.

End RetryFirstSuccess.

(** ** Identifiers as strings *)

Lemma toString_zero_iff (z : Z) : toString z = "0" <-> z = 0.
Proof.
  split.
  - intros H. apply DecimalZ.to_int_inj.
    assert (Hnn : Z.to_int z <> Decimal.Pos Decimal.Nil /\
                  Z.to_int z <> Decimal.Neg Decimal.Nil).
    { destruct z as [| p | p]; cbn; split; try discriminate;
        intros [= E]; now apply (DecimalPos.Unsigned.to_uint_nonnil p). }
    destruct Hnn as [H1 H2].
    pose proof (NilZero.isi (Z.to_int z) H1 H2) as E.
    unfold toString in H. rewrite H in E. cbn in E.
    now injection E as <-.
  - intros ->. reflexivity.
Qed.

(** ** Slippage bound *)

Lemma minAmountOutOf_eq (expectedOutput : Z) :
  Monolith.minAmountOutOf expectedOutput = Z.quot (expectedOutput * 9950) 10000.
Proof. reflexivity. Qed.

Lemma minAmountOutOf_pos (expectedOutput : Z) :
  0 < Monolith.minAmountOutOf expectedOutput <-> 2 <= expectedOutput.
Proof.
  rewrite minAmountOutOf_eq.
  pose proof (Z.quot_rem' (expectedOutput * 9950) 10000) as E.
  split; intros H.
  - destruct (Z_lt_le_dec expectedOutput 2) as [Hlt | Hge]; [| assumption].
    exfalso.
    destruct (Z_le_gt_dec 0 expectedOutput) as [Hnn | Hneg].
    + assert (expectedOutput = 0 \/ expectedOutput = 1) as [-> | ->] by lia;
        cbn in H; lia.
    + pose proof (Z.quot_opp_l (expectedOutput * 9950) 10000 ltac:(lia)) as Eo.
      pose proof (Z.quot_pos (- (expectedOutput * 9950)) 10000
                    ltac:(lia) ltac:(lia)).
      lia.
  - pose proof (Z.rem_bound_pos (expectedOutput * 9950) 10000
                  ltac:(lia) ltac:(lia)).
    lia.
Qed.

(** ** Rebalance step of the monolithic entry point *)

Section RebalanceFacts.

Variable F : NumOps.
Variable env : Env.

(** The monolithic rebalance step: when the two balance reads answer and
    the deviation it computes (in doubles) is below 2 (USDC), the step
    returns normally after the two reads: no swap is submitted and no call
    that could change a balance is made. *)
Theorem rebalance_skips_below_threshold
    (pool : Pool) (w : World) (balUSDC balWETH : Z) :
  erc20_balanceOf env (trace w) USDC = Ok balUSDC ->
  erc20_balanceOf env (trace w ++ [Erc20BalanceOf USDC]) WETH = Ok balWETH ->
  flt F (fabs F (Monolith.usdcDiffOf F pool balUSDC balWETH)) (lit_2 F) = true ->
  Monolith.rebalancePortfolio F env pool w =
    (Ok tt, logCalls [Erc20BalanceOf USDC; Erc20BalanceOf WETH] w) /\
  filter mutating
    (newCalls w (snd (Monolith.rebalancePortfolio F env pool w))) = [].
Proof.
  intros HU HW Hskip.
  assert (E : Monolith.rebalancePortfolio F env pool w =
              (Ok tt, logCalls [Erc20BalanceOf USDC; Erc20BalanceOf WETH] w)).
  { unfold Monolith.rebalancePortfolio, Monolith.getBalance.
    unfold bind at 1, call at 1. rewrite HU.
    unfold bind at 1, call at 1. cbn [trace logCall]. rewrite HW.
    rewrite Hskip. unfold ret. now norm_world. }
  split; [exact E |].
  rewrite E. cbn [snd]. now rewrite newCalls_logCalls.
Qed.

(** The shape of every run of [swapExactInput]. *)
Lemma swapExactInput_calls (tIn tOut : Token) (amountInRaw minOut : Z)
    (w : World) :
  exists p cs,
    tokenIn p = tIn /\ amountIn p = amountInRaw /\
    amountOutMinimum p = minOut /\
    filter isSwap cs = [] /\
    (forall q, ~ In (RouterExactInputSingle q) cs) /\
    snd (Monolith.swapExactInput env tIn tOut amountInRaw minOut w) =
      logCalls (RouterExactInputSingle p :: cs) w.
Proof.
  unfold Monolith.swapExactInput, Monolith.dateNow, Monolith.txWait.
  unfold bind, gets, call, ret.
  match goal with
  | |- context [RouterExactInputSingle ?q] => exists q
  end.
  repeat next_answer; cbn [snd]; norm_world.
  - exists [TxWait a]. repeat split; try reflexivity.
    intros q [H | []]; discriminate.
  - exists [TxWait a]. repeat split; try reflexivity.
    intros q [H | []]; discriminate.
  - exists []. repeat split; try reflexivity. intros q [].
Qed.

(** The monolithic rebalance step computes the slippage bound: a run
    submits at most one swap, and a swap it submits carries as minimum
    output the pool's quote for the swapped amount multiplied by
    9950 / 10000 and truncated. *)
Theorem swap_min_output_bound (pool : Pool) (w : World) :
  let calls := newCalls w (snd (Monolith.rebalancePortfolio F env pool w)) in
  (List.length (filter isSwap calls) <= 1)%nat /\
  (forall p,
     In (RouterExactInputSingle p) calls ->
     exists expectedOutput,
       getOutputAmount pool (tokenIn p) (amountIn p) = Ok expectedOutput /\
       amountOutMinimum p = Z.quot (expectedOutput * 9950) 10000 /\
       (0 < amountOutMinimum p <-> 2 <= expectedOutput)).
Proof.
  set (Good := fun calls : Trace =>
    (List.length (filter isSwap calls) <= 1)%nat /\
    (forall p,
       In (RouterExactInputSingle p) calls ->
       exists expectedOutput,
         getOutputAmount pool (tokenIn p) (amountIn p) = Ok expectedOutput /\
         amountOutMinimum p = Z.quot (expectedOutput * 9950) 10000 /\
         (0 < amountOutMinimum p <-> 2 <= expectedOutput))).
  change (Good (newCalls w (snd (Monolith.rebalancePortfolio F env pool w)))).
  assert (Hswap : forall tIn tOut a e cs0,
    filter isSwap cs0 = [] ->
    (forall q, ~ In (RouterExactInputSingle q) cs0) ->
    getOutputAmount pool tIn a = Ok e ->
    Good (newCalls w (snd (Monolith.swapExactInput env tIn tOut a
                             (Monolith.minAmountOutOf e) (logCalls cs0 w))))).
  { intros tIn tOut a e cs0 Hns Hnin Hq.
    destruct (swapExactInput_calls tIn tOut a (Monolith.minAmountOutOf e)
                (logCalls cs0 w)) as (p & cs & Hin & Ha & Hm & Hcs & Hcs' & Hw).
    rewrite Hw. norm_world. unfold Good.
    rewrite filter_app, Hns. cbn [filter isSwap List.app].
    rewrite Hcs. split; [cbn; lia |].
    intros q Hq'. apply in_app_or in Hq'.
    destruct Hq' as [Hq' | [Hq' | Hq']].
    - now apply Hnin in Hq'.
    - injection Hq' as <-. exists e. rewrite Hin, Ha, Hm.
      split; [assumption |]. split; [apply minAmountOutOf_eq |].
      apply minAmountOutOf_pos.
    - now apply Hcs' in Hq'. }
  assert (Hnone : forall cs0,
    filter isSwap cs0 = [] ->
    (forall q, ~ In (RouterExactInputSingle q) cs0) ->
    Good (newCalls w (logCalls cs0 w))).
  { intros cs0 Hns Hnin. unfold Good. rewrite newCalls_logCalls, Hns.
    split; [cbn; lia |]. intros p Hp. now apply Hnin in Hp. }
  assert (Hr1 : filter isSwap [Erc20BalanceOf USDC] = [] /\
                (forall q, ~ In (RouterExactInputSingle q) [Erc20BalanceOf USDC])).
  { split; [reflexivity |]. intros q H; cbn in H; intuition discriminate. }
  assert (Hr2 : filter isSwap [Erc20BalanceOf USDC; Erc20BalanceOf WETH] = [] /\
                (forall q, ~ In (RouterExactInputSingle q)
                             [Erc20BalanceOf USDC; Erc20BalanceOf WETH])).
  { split; [reflexivity |]. intros q H; cbn in H; intuition discriminate. }
  destruct Hr1 as [Hr1 Hr1']. destruct Hr2 as [Hr2 Hr2'].
  clearbody Good.
  unfold Monolith.rebalancePortfolio, Monolith.getBalance.
  unfold bind at 1, call at 1.
  destruct (erc20_balanceOf env (trace w) USDC) as [balUSDC | e1].
  2:{ cbn [snd]. rewrite logCall_logCalls. now apply Hnone. }
  unfold bind at 1, call at 1. cbn [trace logCall].
  destruct (erc20_balanceOf env (trace w ++ [Erc20BalanceOf USDC]) WETH)
    as [balWETH | e2].
  2:{ cbn [snd]. rewrite !logCall_logCalls, logCalls_app. now apply Hnone. }
  rewrite !logCall_logCalls, logCalls_app. cbn [List.app].
  destruct (flt F (fabs F _) (lit_2 F)).
  { unfold ret. cbn [snd]. now apply Hnone. }
  destruct (flt F (lit_0 F) _).
  - unfold bind at 1, liftRes at 1.
    destruct (toUnits F _ 6) as [amountInRaw | e3].
    2:{ cbn [snd]. now apply Hnone. }
    unfold bind at 1, liftRes at 1.
    destruct (getOutputAmount pool USDC amountInRaw) as [expected | e4] eqn:Eq.
    2:{ cbn [snd]. now apply Hnone. }
    now apply Hswap.
  - unfold bind at 1, liftRes at 1.
    destruct (toUnits F _ 18) as [amountInRaw | e3].
    2:{ cbn [snd]. now apply Hnone. }
    unfold bind at 1, liftRes at 1.
    destruct (getOutputAmount pool WETH amountInRaw) as [expected | e4] eqn:Eq.
    2:{ cbn [snd]. now apply Hnone. }
    now apply Hswap.
Qed.

End RebalanceFacts.

(** The spec's example: a deviation of 1.50 USDC (12 USDC and 0.003 WETH at
    3000 USDC per WETH) against the threshold of 2, in the monolithic
    step. *)
Lemma rebalance_skips_below_threshold_witness :
  let env := scriptedEnv balancedScript in
  let w := initialWorld NoFile in
  Qeq (Monolith.usdcDiffOf QNum (samplePool 1) 12000000 3000000000000000)
      (Qmake 3 2) /\
  Monolith.rebalancePortfolio QNum env (samplePool 1) w =
    (Ok tt, logCalls [Erc20BalanceOf USDC; Erc20BalanceOf WETH] w) /\
  filter mutating
    (newCalls w (snd (Monolith.rebalancePortfolio QNum env (samplePool 1) w)))
    = [].
Proof.
  split; [reflexivity |].
  apply (rebalance_skips_below_threshold QNum (scriptedEnv balancedScript)
           (samplePool 1) (initialWorld NoFile) 12000000 3000000000000000);
    reflexivity.
Defined.

(** C3 fails in [src/actions]: with 10 USDC and no WETH at 3000 USDC per
    WETH, [rebalancePortfolio] sells 5 USDC in a swap whose minimum output is
    0, not a bound derived from a quote; the pool is never asked for one.
    The monolithic sibling computes the bound (lemma above), which for a
    quote of 1.6 * 10^15 wei is 1.592 * 10^15 wei. *)
Lemma actions_swap_has_no_min_output :
  let env := scriptedEnv sampleScript in
  let w := initialWorld NoFile in
  newCalls w
    (snd (Actions.rebalancePortfolio sampleConfig env
            (poolWithoutTicks 3000) w)) =
    [Erc20BalanceOf USDC; Erc20BalanceOf WETH;
     RouterExactInputSingle
       {| tokenIn := USDC; tokenOut := WETH; swap_fee := 3000;
          swap_deadline := 1700000120; amountIn := 5000000;
          amountOutMinimum := 0; sqrtPriceLimitX96 := 0 |};
     TxWaitRace 7 60000] /\
  fst (Actions.rebalancePortfolio sampleConfig env (poolWithoutTicks 3000) w)
    = Ok tt /\
  Monolith.minAmountOutOf 1600000000000000 = 1592000000000000.
Proof. repeat split; reflexivity. Qed.

(** C8 fails in [src/actions]: with no USDC and 0.006 WETH at 500 USDC per
    WETH the deviation from an even split is 1.50 USDC, below the threshold
    of 2, yet [rebalancePortfolio] sells 0.003 WETH: its threshold for an
    excess of WETH is a quantity, 0.002 WETH, which is worth 1 USDC at this
    price.  The monolithic sibling skips the swap on the same holdings. *)
Lemma actions_swaps_below_threshold :
  let balances := fun t => match t with USDC => 0 | WETH => 6000000000000000 end in
  let env := scriptedEnv (withBalances balances sampleScript) in
  let pool := poolWithoutTicks 500 in
  let w := initialWorld NoFile in
  Qeq (specDeviation 0 6000000000000000 (inject_Z 500)) (Qmake 3 2) /\
  Qlt (specDeviation 0 6000000000000000 (inject_Z 500)) (inject_Z 2) /\
  newCalls w (snd (Actions.rebalancePortfolio sampleConfig env pool w)) =
    [Erc20BalanceOf USDC; Erc20BalanceOf WETH;
     RouterExactInputSingle
       {| tokenIn := WETH; tokenOut := USDC; swap_fee := 3000;
          swap_deadline := 1700000120; amountIn := 3000000000000000;
          amountOutMinimum := 0; sqrtPriceLimitX96 := 0 |};
     TxWaitRace 7 60000] /\
  Monolith.rebalancePortfolio QNum env pool w =
    (Ok tt, logCalls [Erc20BalanceOf USDC; Erc20BalanceOf WETH] w).
Proof. repeat split; reflexivity. Qed.

Section ActionsRebalanceFacts.

Variable cfg : Config.
Variable env : Env.

(** The modular rebalance step skips the swap when the amount to sell is
    below its threshold: 5 USDC when USDC is in excess, 0.002 WETH
    otherwise. *)
Lemma actions_rebalance_skips (pool : Pool) (w : World) (balUSDC balWETH : Z) :
  erc20_balanceOf env (trace w) USDC = Ok balUSDC ->
  erc20_balanceOf env (trace w ++ [Erc20BalanceOf USDC]) WETH = Ok balWETH ->
  let priceWethToUsdc :=
    if Token_eqb (token0 pool) WETH then token0Price pool
    else token1Price pool in
  let priceUsdcToWeth :=
    if Token_eqb (token0 pool) USDC then token0Price pool
    else token1Price pool in
  let wethValueInUsdc := Qmult priceWethToUsdc (inject_Z balWETH) in
  match Qcompare (inject_Z balUSDC) wethValueInUsdc with
  | Gt =>
      quotient (Qdiv (Qminus (inject_Z balUSDC) wethValueInUsdc) (inject_Z 2))
        < 5 * 10 ^ 6
  | _ =>
      quotient
        (Qmult priceUsdcToWeth
           (Qdiv (Qminus wethValueInUsdc (inject_Z balUSDC)) (inject_Z 2)))
        < 2 * 10 ^ 15
  end ->
  Actions.rebalancePortfolio cfg env pool w =
    (Ok tt, logCalls [Erc20BalanceOf USDC; Erc20BalanceOf WETH] w).
Proof.
  intros HU HW pw pu wv Hskip.
  unfold Actions.rebalancePortfolio, Actions.getBalance.
  unfold bind at 1.
  rewrite (withRetry_first_success cfg _ balUSDC w
             (logCall (Erc20BalanceOf USDC) w))
    by (unfold call; now rewrite HU).
  unfold bind at 1.
  rewrite (withRetry_first_success cfg _ balWETH
             (logCall (Erc20BalanceOf USDC) w)
             (logCall (Erc20BalanceOf WETH) (logCall (Erc20BalanceOf USDC) w)))
    by (unfold call; cbn [trace logCall]; now rewrite HW).
  fold pw pu. fold wv.
  destruct (Qcompare (inject_Z balUSDC) wv);
    apply Z.ltb_lt in Hskip; rewrite Hskip; unfold ret; now norm_world.
Qed.

End ActionsRebalanceFacts.

(** ** Rebalance protocol *)

Section ProtocolFacts.

Variable F : NumOps.
Variable env : Env.

Lemma exitIfAny_frame (old : string) :
  keeps stateFile (Monolith.exitIfAny env old) /\
  emits notStateWrite (Monolith.exitIfAny env old).
Proof.
  unfold Monolith.exitIfAny, Monolith.exitOldPosition, Monolith.txWait,
    Monolith.dateNow.
  split; frame.
Qed.

Lemma rebalancePortfolio_frame (pool : Pool) :
  keeps stateFile (Monolith.rebalancePortfolio F env pool) /\
  emits notStateWrite (Monolith.rebalancePortfolio F env pool).
Proof.
  unfold Monolith.rebalancePortfolio, Monolith.swapExactInput,
    Monolith.getBalance, Monolith.txWait, Monolith.dateNow.
  split; frame.
Qed.

Lemma mintMaxLiquidity_frame (pool : Pool) (tl tu : Z) :
  keeps stateFile (Monolith.mintMaxLiquidity env pool tl tu) /\
  emits notStateWrite (Monolith.mintMaxLiquidity env pool tl tu).
Proof.
  unfold Monolith.mintMaxLiquidity, decodeTokenId,
    Monolith.getBalance, Monolith.txWait, Monolith.dateNow.
  split; frame.
Qed.

(** The exit step never lets an error out. *)
Lemma exitIfAny_never_throws (old : string) (w : World) :
  fst (Monolith.exitIfAny env old w) = Ok tt.
Proof.
  unfold Monolith.exitIfAny.
  destruct (negb (String.eqb old "0")); [| reflexivity].
  unfold tryCatch.
  destruct (Monolith.exitOldPosition env old w) as [[[] | e] w'];
    reflexivity.
Qed.

Lemma saveState_run (id : string) (w : World) :
  Monolith.saveState env id w =
  (Ok tt,
   let st := {| tokenId := id; lastCheck := clock env (trace w) |} in
   logCalls [WriteStateFile st] (set_stateFile (Stored st) w)).
Proof. reflexivity. Qed.

(** The phases of [executeFullRebalance] after the exit.  For a file write
    that succeeds:
    - the exit step always ends normally, whatever failed inside it;
    - a failure of the rebalance step, of the price refresh or of the mint
      ends the invocation there, with that error and the world as it was
      at the failure, so that no later step runs;
    - whenever the invocation throws, the state file is unchanged and no
      state write was made; when it returns, the last call is the state
      write, made after a mint was submitted. *)
Theorem rebalance_protocol_abort (pool : Pool) (old : string) :
  (forall w, fst (Monolith.exitIfAny env old w) = Ok tt) /\
  (forall w e w2,
     Monolith.rebalancePortfolio F env pool
       (snd (Monolith.exitIfAny env old w)) = (Throw e, w2) ->
     Monolith.executeFullRebalance F env pool old w = (Throw e, w2)) /\
  (forall w e w2,
     Monolith.rebalancePortfolio F env pool
       (snd (Monolith.exitIfAny env old w)) = (Ok tt, w2) ->
     pool_slot0 env (trace w2) = Throw e ->
     Monolith.executeFullRebalance F env pool old w =
       (Throw e, logCall PoolSlot0 w2)) /\
  (forall w w2 slot0 e w3,
     Monolith.rebalancePortfolio F env pool
       (snd (Monolith.exitIfAny env old w)) = (Ok tt, w2) ->
     pool_slot0 env (trace w2) = Ok slot0 ->
     Monolith.mintMaxLiquidity env pool
       (fst (Range.computeRange (tick slot0) (tickSpacing pool)))
       (snd (Range.computeRange (tick slot0) (tickSpacing pool)))
       (logCall PoolSlot0 w2) = (Throw e, w3) ->
     Monolith.executeFullRebalance F env pool old w = (Throw e, w3)) /\
  (forall w e w',
     Monolith.executeFullRebalance F env pool old w = (Throw e, w') ->
     stateFile w' = stateFile w /\
     filter isWriteStateFile (newCalls w w') = []) /\
  (forall w w',
     Monolith.executeFullRebalance F env pool old w = (Ok tt, w') ->
     exists pre p tx st,
       newCalls w w' =
         pre ++ [NpmMint p; TxWait tx; WriteStateFile st] /\
       filter isWriteStateFile pre = [] /\
       stateFile w' = Stored st).
Proof.
  assert (Hexit : forall w, exists w1,
            Monolith.exitIfAny env old w = (Ok tt, w1)).
  { intros w. pose proof (exitIfAny_never_throws old w) as H.
    destruct (Monolith.exitIfAny env old w) as [r w1]. cbn in H. subst r.
    now exists w1. }
  split; [apply exitIfAny_never_throws |].
  split; [| split; [| split; [| split]]].
  - intros w e w2 H. destruct (Hexit w) as (w1 & E1).
    unfold Monolith.executeFullRebalance, bind. rewrite E1 in *. cbn [snd] in H.
    now rewrite H.
  - intros w e w2 H Hs. destruct (Hexit w) as (w1 & E1).
    unfold Monolith.executeFullRebalance, bind. rewrite E1 in *. cbn [snd] in H.
    rewrite H. unfold Monolith.refreshRangeMintSave, bind, call.
    now rewrite Hs.
  - intros w w2 slot0 e w3 H Hs Hm. destruct (Hexit w) as (w1 & E1).
    unfold Monolith.executeFullRebalance, bind. rewrite E1 in *. cbn [snd] in H.
    rewrite H. unfold Monolith.refreshRangeMintSave, bind, call.
    rewrite Hs.
    destruct (Range.computeRange (tick slot0) (tickSpacing pool)) as [tl tu].
    cbn [fst snd] in Hm. now rewrite Hm.
  - intros w e w' H.
    destruct (exitIfAny_frame old) as [K1 E1].
    destruct (rebalancePortfolio_frame pool) as [K2 E2].
    specialize (K1 w). destruct (E1 w) as (cs1 & T1 & P1).
    unfold Monolith.executeFullRebalance, bind in H.
    destruct (Monolith.exitIfAny env old w) as [[[] | e1] w1]; cbn [snd] in *.
    2:{ injection H as <- <-. split; [assumption |].
        apply forallb_negb_filter.
        unfold newCalls. now rewrite T1, skipn_app, skipn_all, Nat.sub_diag. }
    specialize (K2 w1). destruct (E2 w1) as (cs2 & T2 & P2).
    destruct (Monolith.rebalancePortfolio F env pool w1) as [[[] | e2] w2];
      cbn [snd] in *.
    2:{ injection H as <- <-. split; [congruence |].
        apply forallb_negb_filter.
        rewrite (newCalls_trans w w1 w2 cs1 cs2 T1 T2), forallb_app.
        unfold notStateWrite in *. now rewrite P1, P2. }
    unfold Monolith.refreshRangeMintSave, bind, call in H.
    destruct (pool_slot0 env (trace w2)) as [slot0 | e3].
    2:{ injection H as <- <-. split; [cbn; congruence |].
        apply forallb_negb_filter.
        rewrite (newCalls_trans w w1 (logCall PoolSlot0 w2) cs1
                   (cs2 ++ [PoolSlot0]) T1).
        - rewrite !forallb_app. unfold notStateWrite in *.
          now rewrite P1, P2.
        - cbn. now rewrite T2, <- app_assoc. }
    destruct (Range.computeRange (tick slot0) (tickSpacing pool)) as [tl tu].
    destruct (mintMaxLiquidity_frame pool tl tu) as [K3 E3].
    specialize (K3 (logCall PoolSlot0 w2)).
    destruct (E3 (logCall PoolSlot0 w2)) as (cs3 & T3 & P3).
    destruct (Monolith.mintMaxLiquidity env pool tl tu (logCall PoolSlot0 w2))
      as [[newId | e4] w3]; cbn [snd] in *.
    { rewrite saveState_run in H. discriminate. }
    injection H as <- <-. split; [cbn in K3; congruence |].
    apply forallb_negb_filter.
    rewrite (newCalls_trans w w1 w3 cs1 (cs2 ++ [PoolSlot0] ++ cs3) T1).
    + rewrite !forallb_app. unfold notStateWrite in *.
      now rewrite P1, P2, P3.
    + rewrite T3. cbn. rewrite T2, <- !app_assoc. reflexivity.
  - intros w w' H.
    destruct (exitIfAny_frame old) as [_ E1].
    destruct (rebalancePortfolio_frame pool) as [_ E2].
    destruct (E1 w) as (cs1 & T1 & P1).
    unfold Monolith.executeFullRebalance, bind in H.
    destruct (Monolith.exitIfAny env old w) as [[[] | e1] w1]; cbn [snd] in *;
      [| discriminate].
    destruct (E2 w1) as (cs2 & T2 & P2).
    destruct (Monolith.rebalancePortfolio F env pool w1) as [[[] | e2] w2];
      cbn [snd] in *; [| discriminate].
    unfold Monolith.refreshRangeMintSave, bind, call in H.
    destruct (pool_slot0 env (trace w2)) as [slot0 | e3]; [| discriminate].
    destruct (Range.computeRange (tick slot0) (tickSpacing pool)) as [tl tu].
    revert H.
    unfold Monolith.mintMaxLiquidity, Monolith.getBalance, Monolith.txWait,
      Monolith.dateNow, decodeTokenId, bind, call, liftRes, gets, throw, ret.
    repeat (next_answer; try discriminate).
    rewrite saveState_run. intros [= <-].
    match goal with
    | |- context [logCalls [WriteStateFile ?st]
                    (set_stateFile _
                       (logCall (TxWait ?tx) (logCall (NpmMint ?p) _)))] =>
        exists (cs1 ++ cs2 ++ [PoolSlot0; Erc20BalanceOf USDC; Erc20BalanceOf WETH]),
          p, tx, st
    end.
    split; [| split].
    + unfold newCalls. cbn [trace logCalls logCall set_stateFile].
      rewrite T2, T1, <- !app_assoc.
      rewrite skipn_app, skipn_all, Nat.sub_diag. cbn [skipn List.app].
      reflexivity.
    + apply forallb_negb_filter. rewrite !forallb_app.
      unfold notStateWrite in *. now rewrite P1, P2.
    + reflexivity.
Qed.

End ProtocolFacts.

(** C2 fails for the exit phase.  The record tracks position 77, reading it
    from the ledger is rejected, and the holdings are balanced (12 USDC and
    0.003 WETH at 3000 USDC per WETH, so that no swap is due).  The exit
    phase throws, yet [executeFullRebalance] swallows the error: it goes on
    to the range and mint phases, returns normally and overwrites the
    record with the new position 78, leaving position 77 on the ledger.
    The batched exit of [src/actions] rethrows the same failure. *)
Lemma exit_failure_does_not_abort :
  let env := scriptedEnv (withPositions (Throw (Rejected 9)) balancedScript) in
  let pool := poolWithoutTicks 3000 in
  let w := initialWorld (Stored {| tokenId := "77"; lastCheck := 0 |}) in
  let run := Monolith.executeFullRebalance QNum env pool "77" w in
  fst (Monolith.exitOldPosition env "77" w) = Throw (Rejected 9) /\
  fst run = Ok tt /\
  newCalls w (snd run) =
    [NpmPositions "77";
     Erc20BalanceOf USDC; Erc20BalanceOf WETH;
     PoolSlot0;
     Erc20BalanceOf USDC; Erc20BalanceOf WETH;
     NpmMint {| mint_token0 := WETH; mint_token1 := USDC; mint_fee := 3000;
                mint_tickLower := -1500; mint_tickUpper := 2460;
                amount0Desired := 3000000000000000;
                amount1Desired := 12000000;
                amount0Min := 0; amount1Min := 0;
                mint_deadline := 1700000120 |};
     TxWait 6;
     WriteStateFile {| tokenId := "78"; lastCheck := 1700000000000 |}] /\
  stateFile (snd run) =
    Stored {| tokenId := "78"; lastCheck := 1700000000000 |} /\
  fst (Actions.atomicExitPosition sampleConfig env "77" w)
    = Throw (Rejected 9).
Proof. repeat split; reflexivity. Qed.

(** ** Mint *)

Section ActionsFacts.

Variable cfg : Config.
Variable env : Env.

(** The batched exit rethrows what the submission or its wait throws. *)
Lemma atomicExitPosition_rethrows (id : string) (w w1 : World)
    (pos : PositionInfo) (e : Err) :
  Actions.withRetry cfg
    (call (NpmPositions id) (fun h => npm_positions env h id)) w
    = (Ok pos, w1) ->
  (forall calls, npm_multicall env (trace w1) calls = Throw e) ->
  exists calls,
    Actions.atomicExitPosition cfg env id w =
      (Throw e, logCall (NpmMulticall calls) w1).
Proof.
  intros Hpos Hm. unfold Actions.atomicExitPosition.
  unfold bind at 1. rewrite Hpos.
  unfold bind at 1, Actions.dateNow, gets.
  eexists. unfold tryCatch, bind at 1, call at 1. rewrite Hm. reflexivity.
Qed.

(** C5: when the balance reads, the SDK and the mint submission succeed and
    the transaction settles with a receipt that holds no Mint event, the
    mint operation throws its own error, "Mint successful but failed to
    parse Token ID from logs.", after exactly one submission; it returns no
    identifier and leaves the state file alone.  The error differs from the
    timeout error, from the dropped-transaction error and from every
    rejection by a collaborator. *)
Theorem mint_without_event_is_fatal
    (pool : Pool) (tl tu : Z) (w : World)
    (balUSDC balWETH : Z) (position : SdkPosition) (tx : Tx) (rc : Receipt) :
  let h := trace w ++ [Erc20BalanceOf USDC; Erc20BalanceOf WETH] in
  let p := {| mint_token0 := token0 pool;
              mint_token1 := token1 pool;
              mint_fee := POOL_FEE;
              mint_tickLower := tl;
              mint_tickUpper := tu;
              amount0Desired := fst (mintAmounts position);
              amount1Desired := snd (mintAmounts position);
              amount0Min := fst (mintAmountsWithSlippage position);
              amount1Min := snd (mintAmountsWithSlippage position);
              mint_deadline := deadlineAt (clock env h) |} in
  erc20_balanceOf env (trace w) USDC = Ok balUSDC ->
  erc20_balanceOf env (trace w ++ [Erc20BalanceOf USDC]) WETH = Ok balWETH ->
  fromAmounts pool tl tu balWETH balUSDC = Ok position ->
  npm_mint env h p = Ok tx ->
  tx_race env (h ++ [NpmMint p]) tx (TX_TIMEOUT_MS cfg)
    = Utils.Settled (Ok (Some rc)) ->
  find (isMintEvent env) (logs rc) = None ->
  Actions.mintMaxLiquidity cfg env pool tl tu w =
    (Throw Actions.MINT_PARSE_ERROR,
     logCalls [Erc20BalanceOf USDC; Erc20BalanceOf WETH;
               NpmMint p; TxWaitRace tx (TX_TIMEOUT_MS cfg)] w) /\
  stateFile (snd (Actions.mintMaxLiquidity cfg env pool tl tu w)) = stateFile w /\
  Actions.MINT_PARSE_ERROR <> JsError "TIMEOUT" /\
  Actions.MINT_PARSE_ERROR <> JsError "Tx dropped or failed" /\
  (forall code, Actions.MINT_PARSE_ERROR <> Rejected code).
Proof.
  intros h p HU HW Hpos Hmint Hrace Hfind.
  assert (E : Actions.mintMaxLiquidity cfg env pool tl tu w =
    (Throw Actions.MINT_PARSE_ERROR,
     logCalls [Erc20BalanceOf USDC; Erc20BalanceOf WETH;
               NpmMint p; TxWaitRace tx (TX_TIMEOUT_MS cfg)] w)).
  { subst p h. rewrite <- app_assoc in Hrace. cbn [List.app] in Hrace.
    unfold Actions.mintMaxLiquidity, Actions.getBalance.
    unfold bind at 1.
    rewrite (withRetry_first_success cfg _ balUSDC w
               (logCall (Erc20BalanceOf USDC) w))
      by (unfold call; now rewrite HU).
    unfold bind at 1.
    rewrite (withRetry_first_success cfg _ balWETH
               (logCall (Erc20BalanceOf USDC) w)
               (logCall (Erc20BalanceOf WETH) (logCall (Erc20BalanceOf USDC) w)))
      by (unfold call; cbn [trace logCall]; now rewrite HW).
    unfold bind at 1, liftRes at 1. rewrite Hpos.
    destruct (mintAmountsWithSlippage position) as [m0 m1] eqn:Em.
    cbn [fst snd] in *.
    unfold bind at 1, Actions.dateNow, gets.
    cbn [trace logCall]. rewrite <- app_assoc. cbn [List.app].
    unfold bind at 1, call at 1. cbn [trace logCall].
    rewrite <- app_assoc. cbn [List.app].
    rewrite Hmint.
    unfold bind at 1, Actions.waitWithTimeout, Utils.waitWithTimeout.
    unfold bind at 1, call at 1. cbn [trace logCall].
    rewrite <- !app_assoc. cbn [List.app].
    rewrite Hrace. unfold ret. rewrite Hfind. unfold throw.
    now norm_world. }
  split; [exact E |]. rewrite E. cbn [snd].
  repeat split; discriminate.
Qed.

End ActionsFacts.

Lemma mint_without_event_is_fatal_witness :
  let env := scriptedEnv (withReceipt (Some receiptWithoutMint) sampleScript) in
  let w := initialWorld (Stored {| tokenId := "77"; lastCheck := 0 |}) in
  exists p tx,
    Actions.mintMaxLiquidity sampleConfig env (samplePool 1) (-1500) 2460 w =
      (Throw (JsError "Mint successful but failed to parse Token ID from logs."),
       logCalls [Erc20BalanceOf USDC; Erc20BalanceOf WETH;
                 NpmMint p; TxWaitRace tx 60000] w).
Proof.
  intros env w. eexists. eexists.
  refine (proj1 (mint_without_event_is_fatal sampleConfig env (samplePool 1)
                   (-1500) 2460 w 10000000 0
                   {| mintAmounts := (0, 10000000);
                      mintAmountsWithSlippage := (0, 10000000) |}
                   6 receiptWithoutMint _ _ _ _ _ _)); reflexivity.
Defined.

(** The monolithic [mintMaxLiquidity] has no such check: the missing event
    surfaces as the runtime's [TypeError] on [event.data]. *)
Example monolith_mint_without_event :
  let env := scriptedEnv (withReceipt (Some receiptWithoutMint) sampleScript) in
  let w := initialWorld (Stored {| tokenId := "77"; lastCheck := 0 |}) in
  fst (Monolith.mintMaxLiquidity env (samplePool 1) (-1500) 2460 w) =
    Throw (TypeError "Cannot read properties of undefined (reading 'data')") /\
  stateFile (snd (Monolith.executeFullRebalance QNum env (samplePool 1) "0" w))
    = stateFile w.
Proof. split; reflexivity. Qed.

(** ** Reconciler *)

Section ReconcilerFacts.

Variable F : NumOps.
Variable env : Env.

Lemma loadState_run (w : World) :
  Monolith.loadState w = (Ok (recordOf (stateFile w)), w).
Proof. unfold Monolith.loadState, recordOf. now destruct (stateFile w). Qed.

Lemma startup_frame :
  keeps stateFile (Monolith.startup env) /\
  emits notMutating (Monolith.startup env).
Proof.
  unfold Monolith.startup, Monolith.approveAll, Monolith.checkAndApprove,
    Monolith.txWait.
  split; frame.
Qed.

Lemma findOrphanedPosition_none (w : World) :
  npm_balanceOf env (trace w) = Ok 0 ->
  Monolith.findOrphanedPosition env w = (Ok "0", logCalls [NpmBalanceOf] w).
Proof.
  intros H. unfold Monolith.findOrphanedPosition, bind, call.
  now rewrite H.
Qed.

Lemma findOrphanedPosition_last (w : World) (n id : Z) :
  1 <= n ->
  npm_balanceOf env (trace w) = Ok n ->
  npm_tokenOfOwnerByIndex env (trace w ++ [NpmBalanceOf]) (n - 1) = Ok id ->
  Monolith.findOrphanedPosition env w =
    (Ok (toString id),
     logCalls [NpmBalanceOf; NpmTokenOfOwnerByIndex (n - 1)] w).
Proof.
  intros Hn Hb Ht. unfold Monolith.findOrphanedPosition.
  unfold bind at 1, call at 1. rewrite Hb.
  replace (n >? 0) with true by (symmetry; apply Z.gtb_lt; lia).
  unfold bind, call. cbn [trace logCall]. rewrite Ht.
  unfold ret. now norm_world.
Qed.

(** C4: with a record holding "0",
    - when the account owns no token, the reconciler returns "0";
    - when it owns [n >= 1] tokens, the reconciler returns the token at
      enumeration index [n - 1] (for [n = 1], the only one);
    - in [runLifeCycle], that identifier (an identifier is never 0, the
      value that stands for "none") is written to the state file before the
      rebalance protocol starts, and nothing before the write is a
      withdrawal, collection, burn, swap or mint: the whole run is the
      protocol run from the world in which the record is already repaired. *)
Theorem reconciler_recovers_last_token :
  (forall w,
     npm_balanceOf env (trace w) = Ok 0 ->
     Monolith.findOrphanedPosition env w =
       (Ok "0", logCalls [NpmBalanceOf] w)) /\
  (forall w n id,
     1 <= n ->
     npm_balanceOf env (trace w) = Ok n ->
     npm_tokenOfOwnerByIndex env (trace w ++ [NpmBalanceOf]) (n - 1) = Ok id ->
     Monolith.findOrphanedPosition env w =
       (Ok (toString id),
        logCalls [NpmBalanceOf; NpmTokenOfOwnerByIndex (n - 1)] w)) /\
  (forall w w1 slot0 pool n id,
     tokenId (recordOf (stateFile w)) = "0" ->
     Monolith.startup env w = (Ok (slot0, pool), w1) ->
     1 <= n ->
     npm_balanceOf env (trace w1) = Ok n ->
     npm_tokenOfOwnerByIndex env (trace w1 ++ [NpmBalanceOf]) (n - 1) = Ok id ->
     id <> 0 ->
     let reads := [NpmBalanceOf; NpmTokenOfOwnerByIndex (n - 1)] in
     let st := {| tokenId := toString id;
                  lastCheck := clock env (trace w1 ++ reads) |} in
     let w2 := logCalls (reads ++ [WriteStateFile st])
                 (set_stateFile (Stored st) w1) in
     Monolith.runLifeCycle F env w =
       Monolith.executeFullRebalance F env pool "0" w2 /\
     stateFile w2 = Stored st /\
     filter mutating (newCalls w w2) = []).
Proof.
  split; [exact findOrphanedPosition_none |].
  split; [exact findOrphanedPosition_last |].
  intros w w1 slot0 pool n id Hrec Hstart Hn Hb Ht Hid reads st w2.
  destruct startup_frame as [K E].
  pose proof (K w) as Kw. destruct (E w) as (cs & Tcs & Pcs).
  rewrite Hstart in Kw, Tcs. cbn [snd] in Kw, Tcs.
  split; [| split].
  - unfold Monolith.runLifeCycle. unfold bind at 1. rewrite Hstart.
    unfold bind at 1. rewrite loadState_run, Kw, Hrec. cbn [String.eqb Ascii.eqb Bool.eqb].
    unfold bind at 1.
    rewrite (findOrphanedPosition_last w1 n id Hn Hb Ht).
    assert (Hne : String.eqb (toString id) "0" = false).
    { apply String.eqb_neq. intros H. now apply toString_zero_iff in H. }
    rewrite Hne. cbn [negb].
    unfold bind at 1. rewrite saveState_run.
    f_equal. subst w2 st reads.
    unfold logCalls, set_stateFile.
    cbn [trace stateFile isProcessing lastHedgeTime isSafeMode List.app].
    now rewrite <- app_assoc.
  - reflexivity.
  - apply forallb_negb_filter.
    unfold newCalls. subst w2. cbn [trace logCalls set_stateFile].
    rewrite Tcs, <- app_assoc, skipn_app, skipn_all, Nat.sub_diag.
    cbn [skipn List.app].
    change (fun x : Call => negb (mutating x)) with notMutating.
    rewrite forallb_app, Pcs. reflexivity.
Qed.

End ReconcilerFacts.

(** An account owning tokens 41 and 42, with no state file: token 42 is
    recovered and saved before the first swap. *)
Lemma reconciler_recovers_last_token_witness :
  let env := scriptedEnv (withOwned [41; 42] sampleScript) in
  let w := initialWorld NoFile in
  let st := {| tokenId := "42"; lastCheck := 1700000000000 |} in
  Monolith.findOrphanedPosition env w =
    (Ok "42", logCalls [NpmBalanceOf; NpmTokenOfOwnerByIndex 1] w) /\
  (Monolith.runLifeCycle QNum env w =
     Monolith.executeFullRebalance QNum env (samplePool 1600000000000000) "0"
       (logCalls [NpmBalanceOf; NpmTokenOfOwnerByIndex 1; WriteStateFile st]
          (set_stateFile (Stored st) (snd (Monolith.startup env w)))) /\
   filter mutating
     (newCalls w
        (logCalls [NpmBalanceOf; NpmTokenOfOwnerByIndex 1; WriteStateFile st]
           (set_stateFile (Stored st) (snd (Monolith.startup env w))))) = []) /\
  map (fun c => match c with
                | WriteStateFile st => tokenId st
                | c => if mutating c then "mutating" else "read"
                end)
    (newCalls w (snd (Monolith.runLifeCycle QNum env w))) =
    ["read"; "read"; "read"; "read"; "read"; "read"; "read";
     "read"; "read"; "42";
     "read"; "read"; "mutating"; "read"; "read"; "read"; "read";
     "mutating"; "read"; "78"].
Proof.
  intros env w st. split; [| split].
  - apply (proj1 (proj2 (reconciler_recovers_last_token QNum env)) w 2 42);
      [lia | reflexivity | reflexivity].
  - destruct (proj2 (proj2 (reconciler_recovers_last_token QNum env))
                w (snd (Monolith.startup env w))
                {| sqrtPriceX96 := 1; tick := 500 |}
                (samplePool 1600000000000000) 2 42
                eq_refl eq_refl ltac:(lia) eq_refl eq_refl ltac:(lia))
      as (H1 & _ & H3).
    split; [exact H1 | exact H3].
  - reflexivity.
Defined.

(** With a single owned token, it is the one recovered. *)
Example reconciler_single_token :
  let env := scriptedEnv (withOwned [41] sampleScript) in
  fst (Monolith.findOrphanedPosition env (initialWorld NoFile)) = Ok "41".
Proof. reflexivity. Qed.

Section ApprovalFacts.

Variable env : Env.

(** When no allowance is zero, [approveAll] submits nothing, so that the
    head of [runLifeCycle] consists of reads only. *)
Lemma checkAndApprove_reads (t : Token) (s : Spender) :
  (forall h, erc20_allowance env h t s <> Ok 0) ->
  emits notTransaction (Monolith.checkAndApprove env t s).
Proof.
  intros Hnz w. unfold Monolith.checkAndApprove, bind, call.
  destruct (erc20_allowance env (trace w) t s) as [a | e] eqn:E.
  - destruct (Z.eqb_spec a 0) as [-> | Hne].
    + now apply Hnz in E.
    + exists [Erc20Allowance t s]. split; reflexivity.
  - exists [Erc20Allowance t s]. split; reflexivity.
Qed.

Lemma startup_reads_only :
  (forall h t s, erc20_allowance env h t s <> Ok 0) ->
  emits notTransaction (Monolith.startup env).
Proof.
  intros Hnz. unfold Monolith.startup.
  apply emits_bind; [frame | intros _].
  apply emits_bind; [| intros _; frame].
  unfold Monolith.approveAll.
  repeat (apply emits_bind;
          [apply checkAndApprove_reads; intros h; apply Hnz | intros _]).
  apply checkAndApprove_reads; intros h; apply Hnz.
Qed.

End ApprovalFacts.

(** ** Scheduler *)

Section SchedulerFacts.

Variable cfg : Config.
Variable env : Env.

Lemma keeps_readPool {X} (sel : World -> X) :
  (forall c w, sel (logCall c w) = sel w) ->
  keeps sel (Scheduler.readPool env).
Proof.
  intros H. unfold Scheduler.readPool.
  apply keeps_bind.
  - apply keeps_promiseAll2; apply keeps_call; apply H.
  - intros [slot0 l]. apply keeps_bind; [apply keeps_liftRes |].
    intros a. apply keeps_ret.
Qed.

(** [onNewBlock] never writes [isProcessing]. *)
Lemma onNewBlock_keeps_isProcessing (blockNumber : Z) :
  keeps isProcessing (Scheduler.onNewBlock cfg env blockNumber).
Proof.
  assert (Hlog : forall c w, isProcessing (logCall c w) = isProcessing w)
    by reflexivity.
  unfold Scheduler.onNewBlock.
  apply keeps_bind; [now apply keeps_call |]. intros loaded.
  destruct (Scheduler.noActivePosition loaded).
  { apply keeps_bind; [now apply keeps_readPool |]. intros _.
    apply keeps_bind; [now apply keeps_call |]. intros _ w; reflexivity. }
  apply keeps_bind; [now apply keeps_call |]. intros isSafe.
  destruct (negb isSafe).
  { apply keeps_bind; [now apply keeps_call |]. intros _ w; reflexivity. }
  apply keeps_bind; [apply keeps_gets |]. intros now.
  apply keeps_bind; [apply keeps_gets |]. intros last.
  destruct (now - last <? HEDGE_CHECK_INTERVAL_MS); [apply keeps_ret |].
  apply keeps_bind; [now apply keeps_readPool |]. intros [slot0 pool].
  apply keeps_bind; [now apply keeps_call |]. intros pos.
  destruct (liquidity pos =? 0).
  { apply keeps_bind; [now apply keeps_call |]. intros _.
    now apply keeps_call. }
  destruct ((tick slot0 <? tickLower pos) || (tick slot0 >? tickUpper pos)).
  { apply keeps_bind; [now apply keeps_call |]. intros _.
    apply keeps_bind; [apply keeps_gets |]. intros now' w; reflexivity. }
  apply keeps_bind; [apply keeps_liftRes |]. intros [amount0 amount1].
  apply keeps_bind; [now apply keeps_call |]. intros _.
  apply keeps_bind; [apply keeps_gets |]. intros now' w; reflexivity.
Qed.

Lemma safe_bind {A B} (c : M A) (k : A -> M B) :
  keepsSafeMode c -> (forall a, keepsSafeMode (k a)) ->
  keepsSafeMode (bind c k).
Proof.
  intros Hc Hk w Hw. unfold bind. specialize (Hc w Hw).
  destruct (c w) as [[a | e] w']; cbn in *; [apply Hk |]; assumption.
Qed.

Lemma safe_of_keeps {A} (c : M A) : keeps isSafeMode c -> keepsSafeMode c.
Proof. intros H w Hw. now rewrite H. Qed.

Lemma onNewBlock_keeps_safe_mode (blockNumber : Z) :
  keepsSafeMode (Scheduler.onNewBlock cfg env blockNumber).
Proof.
  assert (Hlog : forall c w, isSafeMode (logCall c w) = isSafeMode w)
    by reflexivity.
  assert (Hcall : forall A c (f : Trace -> Res A), keepsSafeMode (call c f))
    by (intros; apply safe_of_keeps; now apply keeps_call).
  assert (Hpool : keepsSafeMode (Scheduler.readPool env))
    by (apply safe_of_keeps; now apply keeps_readPool).
  assert (Hgets : forall A (f : World -> A), keepsSafeMode (gets f))
    by (intros; apply safe_of_keeps, keeps_gets).
  assert (Hhedge : forall t, keepsSafeMode (modify (set_lastHedgeTime t)))
    by (intros t w Hw; exact Hw).
  unfold Scheduler.onNewBlock.
  apply safe_bind; [apply Hcall |]. intros loaded.
  destruct (Scheduler.noActivePosition loaded).
  { apply safe_bind; [apply Hpool |]. intros _.
    apply safe_bind; [apply Hcall |]. intros _. apply Hhedge. }
  apply safe_bind; [apply Hcall |]. intros isSafe.
  destruct (negb isSafe).
  { apply safe_bind; [apply Hcall |]. intros _ w _; reflexivity. }
  apply safe_bind; [apply Hgets |]. intros now.
  apply safe_bind; [apply Hgets |]. intros last.
  destruct (now - last <? HEDGE_CHECK_INTERVAL_MS);
    [apply safe_of_keeps, keeps_ret |].
  apply safe_bind; [apply Hpool |]. intros [slot0 pool].
  apply safe_bind; [apply Hcall |]. intros pos.
  destruct (liquidity pos =? 0).
  { apply safe_bind; [apply Hcall |]. intros _. apply Hcall. }
  destruct ((tick slot0 <? tickLower pos) || (tick slot0 >? tickUpper pos)).
  { apply safe_bind; [apply Hcall |]. intros _.
    apply safe_bind; [apply Hgets |]. intros now'. apply Hhedge. }
  apply safe_bind; [apply safe_of_keeps, keeps_liftRes |].
  intros [amount0 amount1].
  apply safe_bind; [apply Hcall |]. intros _.
  apply safe_bind; [apply Hgets |]. intros now'. apply Hhedge.
Qed.

End SchedulerFacts.

Section SchedulerProcess.

Variable cfg : Config.
Variable env : Env.

Lemma listener_body_lowers_guard (blockNumber : Z) (w : World) :
  isProcessing
    (snd (tryFinally
            (tryCatch (Scheduler.onNewBlock cfg env blockNumber)
               (fun _ => ret tt))
            (set_isProcessing false) w)) = false.
Proof.
  unfold tryFinally.
  destruct (tryCatch _ _ w) as [r w']. reflexivity.
Qed.

Lemma listener_body_catches (blockNumber : Z) (w : World) :
  fst (tryFinally
         (tryCatch (Scheduler.onNewBlock cfg env blockNumber)
            (fun _ => ret tt))
         (set_isProcessing false) w) = Ok tt.
Proof.
  unfold tryFinally, tryCatch.
  destruct (Scheduler.onNewBlock cfg env blockNumber w) as [[[] | e] w'];
    reflexivity.
Qed.

Lemma listener_body_keeps_safe_mode (blockNumber : Z) (w : World) :
  isSafeMode w = true ->
  isSafeMode
    (snd (tryFinally
            (tryCatch (Scheduler.onNewBlock cfg env blockNumber)
               (fun _ => ret tt))
            (set_isProcessing false) w)) = true.
Proof.
  intros Hw. unfold tryFinally, tryCatch.
  pose proof (onNewBlock_keeps_safe_mode cfg env blockNumber w Hw) as H.
  destruct (Scheduler.onNewBlock cfg env blockNumber w) as [[[] | e] w'];
    cbn in *; exact H.
Qed.

Lemma step_keeps_safe_mode (p : Scheduler.Proc) (ev : Scheduler.Event) :
  isSafeMode (Scheduler.world p) = true ->
  isSafeMode (Scheduler.world (Scheduler.step cfg env p ev)) = true.
Proof.
  intros Hs. destruct ev as [bn | |]; cbn.
  - now rewrite Hs.
  - destruct (Scheduler.inFlight p) as [| bn rest]; [assumption |].
    pose proof (listener_body_keeps_safe_mode bn _ Hs) as H.
    destruct (tryFinally _ _ (Scheduler.world p)) as [r w']. exact H.
  - assumption.
Qed.

Lemma step_guardInv (p : Scheduler.Proc) (ev : Scheduler.Event) :
  guardInv p -> guardInv (Scheduler.step cfg env p ev).
Proof.
  intros [[Hp Hq] | (Hp & Hs & bn & Hq)]; destruct ev as [b | |]; cbn.
  - rewrite Hp. destruct (isSafeMode (Scheduler.world p)) eqn:Hs.
    + left; now split.
    + right. cbn. repeat split; [assumption |].
      exists b. now rewrite Hq.
  - rewrite Hq. left; now split.
  - left; now split.
  - rewrite Hp, Hs. right; repeat split; eauto.
  - rewrite Hq.
    pose proof (listener_body_lowers_guard bn (Scheduler.world p)) as H.
    destruct (tryFinally _ _ (Scheduler.world p)) as [r w'].
    left; now split.
  - right; repeat split; eauto.
Qed.

Lemma run_guardInv (evs : list Scheduler.Event) (p : Scheduler.Proc) :
  guardInv p -> guardInv (Scheduler.run cfg env p evs).
Proof.
  revert p. induction evs as [| ev evs IH]; intros p Hp; cbn.
  - assumption.
  - apply IH, step_guardInv, Hp.
Qed.

Lemma start_guardInv (f : FileState) : guardInv (Scheduler.startProc f).
Proof. left; now split. Qed.

Lemma safe_and_idle_is_frozen (p : Scheduler.Proc) (evs : list Scheduler.Event) :
  isSafeMode (Scheduler.world p) = true -> Scheduler.inFlight p = [] ->
  Scheduler.run cfg env p evs = p.
Proof.
  intros Hs Hq. induction evs as [| ev evs IH]; cbn; [reflexivity |].
  assert (E : Scheduler.step cfg env p ev = p).
  { destruct ev; cbn; [now rewrite Hs | now rewrite Hq | reflexivity]. }
  now rewrite E.
Qed.

(** C1: a block event delivered while [isSafeMode] is set returns at once
    and leaves the world as it is, so no call of any kind (a fortiori no
    exit, swap, mint or state write) is made; and nothing clears the flag:
    neither [onNewBlock], nor any step of the process; from a state reached
    in safe mode, no sequence of events changes the process at all. *)
Theorem safe_mode_inert_and_terminal :
  (forall blockNumber w,
     isSafeMode w = true ->
     Scheduler.blockListener cfg env blockNumber w = (Ok tt, w)) /\
  (forall blockNumber, keepsSafeMode (Scheduler.onNewBlock cfg env blockNumber)) /\
  (forall p ev,
     isSafeMode (Scheduler.world p) = true ->
     isSafeMode (Scheduler.world (Scheduler.step cfg env p ev)) = true) /\
  (forall f evs evs',
     let p := Scheduler.run cfg env (Scheduler.startProc f) evs in
     isSafeMode (Scheduler.world p) = true ->
     Scheduler.run cfg env p evs' = p /\
     newCalls (Scheduler.world p)
       (Scheduler.world (Scheduler.run cfg env p evs')) = []).
Proof.
  assert (Hidle : forall f evs,
             isSafeMode
               (Scheduler.world
                  (Scheduler.run cfg env (Scheduler.startProc f) evs)) = true ->
             Scheduler.inFlight
               (Scheduler.run cfg env (Scheduler.startProc f) evs) = []).
  { intros f evs Hs.
    destruct (run_guardInv evs _ (start_guardInv f))
      as [[_ Hq] | (_ & Hs' & _)]; [assumption | congruence]. }
  split; [| split; [| split]].
  - intros bn w Hw. unfold Scheduler.blockListener. now rewrite Hw.
  - apply onNewBlock_keeps_safe_mode.
  - apply step_keeps_safe_mode.
  - intros f evs evs' p Hs.
    assert (E : Scheduler.run cfg env p evs' = p)
      by (apply safe_and_idle_is_frozen; [assumption | now apply Hidle]).
    split; [exact E |].
    rewrite E. unfold newCalls. now rewrite skipn_all.
Qed.

(** C6: at most one evaluation is in flight in every reachable state; a
    block event that arrives while [isProcessing] is set changes nothing (it
    is neither run nor queued); when an evaluation settles, by returning or
    by throwing, the error is caught and [isProcessing] is false again, so
    the next block event starts an evaluation unless safe mode was
    entered. *)
Theorem single_flight_guard :
  (forall f evs,
     (List.length
        (Scheduler.inFlight
           (Scheduler.run cfg env (Scheduler.startProc f) evs)) <= 1)%nat) /\
  (forall p blockNumber,
     isProcessing (Scheduler.world p) = true ->
     Scheduler.step cfg env p (Scheduler.BlockEvent blockNumber) = p) /\
  (forall p blockNumber rest,
     Scheduler.inFlight p = blockNumber :: rest ->
     let p' := Scheduler.step cfg env p Scheduler.Settle in
     isProcessing (Scheduler.world p') = false /\
     Scheduler.inFlight p' = rest) /\
  (forall blockNumber w,
     isSafeMode w = false -> isProcessing w = false ->
     fst (Scheduler.blockListener cfg env blockNumber w) = Ok tt /\
     isProcessing (snd (Scheduler.blockListener cfg env blockNumber w)) = false) /\
  (forall p blockNumber,
     isProcessing (Scheduler.world p) = false ->
     isSafeMode (Scheduler.world p) = false ->
     Scheduler.inFlight
       (Scheduler.step cfg env p (Scheduler.BlockEvent blockNumber)) =
     Scheduler.inFlight p ++ [blockNumber]).
Proof.
  split; [| split; [| split; [| split]]].
  - intros f evs.
    destruct (run_guardInv evs _ (start_guardInv f))
      as [[_ Hq] | (_ & _ & bn & Hq)]; rewrite Hq; cbn; lia.
  - intros p bn Hp. cbn. rewrite Hp.
    now destruct (isSafeMode (Scheduler.world p)).
  - intros p bn rest Hq. cbn. rewrite Hq.
    pose proof (listener_body_lowers_guard bn (Scheduler.world p)) as Hl.
    destruct (tryFinally _ _ (Scheduler.world p)) as [r w'].
    split; [exact Hl | reflexivity].
  - intros bn w Hs Hp. unfold Scheduler.blockListener. rewrite Hs, Hp.
    split; [apply listener_body_catches | apply listener_body_lowers_guard].
  - intros p bn Hp Hs. cbn. now rewrite Hp, Hs.
Qed.

(** The listener run to completion is a block event followed by the
    settling of its evaluation. *)
Lemma blockListener_is_block_then_settle (blockNumber : Z) (w : World) :
  isSafeMode w = false -> isProcessing w = false ->
  Scheduler.world
    (Scheduler.run cfg env {| Scheduler.world := w; Scheduler.inFlight := [] |}
       [Scheduler.BlockEvent blockNumber; Scheduler.Settle]) =
  snd (Scheduler.blockListener cfg env blockNumber w).
Proof.
  intros Hs Hp. unfold Scheduler.blockListener. cbn. rewrite Hs, Hp. cbn.
  destruct (tryFinally _ _ (set_isProcessing true w)) as [r w']. reflexivity.
Qed.

(** C10: when a position is tracked and the health check passes, and fewer
    than 60000 ms have passed since [lastHedgeTime], the evaluation ends
    after the state load and the health check: the pool and the position
    are not read, and neither the rebalance nor the hedge adjustment is
    called, whatever the pool would have answered. *)
Theorem hedge_interval_gate (blockNumber : Z) (w : World) (id : string) :
  state_loadState env (trace w) = Ok (Some id) ->
  Scheduler.noActivePosition (Some id) = false ->
  aave_checkHealthAndPanic env (trace w ++ [StateModuleLoad]) id = Ok true ->
  clock env (trace w ++ [StateModuleLoad; CheckHealthAndPanic id])
    - lastHedgeTime w < HEDGE_CHECK_INTERVAL_MS ->
  Scheduler.onNewBlock cfg env blockNumber w =
    (Ok tt, logCalls [StateModuleLoad; CheckHealthAndPanic id] w).
Proof.
  intros Hload Hid Hhealth Hgate.
  unfold Scheduler.onNewBlock, bind at 1, call at 1.
  rewrite Hload, Hid. cbn [Scheduler.idOf].
  unfold bind at 1, call at 1. cbn [trace logCall].
  rewrite Hhealth. cbn [negb].
  unfold bind, Scheduler.dateNow, gets. cbn [trace logCall lastHedgeTime].
  rewrite <- app_assoc. cbn [app].
  apply Z.ltb_lt in Hgate. rewrite Hgate.
  unfold ret. rewrite !logCall_logCalls, logCalls_app. reflexivity.
Qed.

End SchedulerProcess.

(** *** Scenarios *)

(** Witness of C1. *)
Lemma safe_mode_inert_and_terminal_witness :
  let env := scriptedEnv sampleScript in
  let w := set_isSafeMode true (initialWorld NoFile) in
  Scheduler.blockListener sampleConfig env 100 w = (Ok tt, w).
Proof.
  intros env w.
  apply (proj1 (safe_mode_inert_and_terminal sampleConfig env)).
  reflexivity.
Defined.

(** A failed health check: the alert is sent, safe mode is entered, and the
    blocks that follow leave no trace. *)
Example panic_then_silence :
  let env := scriptedEnv (withHealth (Ok false) sampleScript) in
  let p := Scheduler.run sampleConfig env (Scheduler.startProc NoFile)
             [Scheduler.BlockEvent 1; Scheduler.Settle;
              Scheduler.BlockEvent 2; Scheduler.Settle;
              Scheduler.Reconnect; Scheduler.BlockEvent 3; Scheduler.Settle] in
  isSafeMode (Scheduler.world p) = true /\
  trace (Scheduler.world p) =
    [StateModuleLoad; CheckHealthAndPanic "77";
     SendEmailAlert "Bot Stopped" "Entered SAFE MODE after panic exit."].
Proof. split; reflexivity. Qed.

(** Witness of C6: the second of two back-to-back blocks is dropped, and
    the guard is down again after an evaluation that threw. *)
Lemma single_flight_guard_witness :
  let env := scriptedEnv (withRebalance (Throw (Rejected 3)) sampleScript) in
  let p1 := Scheduler.run sampleConfig env (Scheduler.startProc NoFile)
              [Scheduler.BlockEvent 1; Scheduler.BlockEvent 2] in
  let p2 := Scheduler.step sampleConfig env p1 Scheduler.Settle in
  Scheduler.inFlight p1 = [1] /\
  fst (Scheduler.onNewBlock sampleConfig env 1 (Scheduler.world p1)) =
    Throw (Rejected 3) /\
  isProcessing (Scheduler.world p2) = false /\
  Scheduler.inFlight p2 = [] /\
  Scheduler.inFlight
    (Scheduler.step sampleConfig env p2 (Scheduler.BlockEvent 3)) = [3].
Proof.
  intros env p1 p2.
  destruct (single_flight_guard sampleConfig env) as (_ & _ & H3 & _ & _).
  split; [reflexivity |]. split; [reflexivity |].
  destruct (H3 p1 1 [] eq_refl) as [Hp Hq].
  split; [exact Hp |]. split; [exact Hq |]. reflexivity.
Defined.

(** Witness of C10: 1000 ms after the last hedge check, an out-of-range
    position is not even looked at. *)
Lemma hedge_interval_gate_witness :
  let env := scriptedEnv sampleScript in
  let w := set_lastHedgeTime (1700000000000 - 1000) (initialWorld NoFile) in
  Scheduler.onNewBlock sampleConfig env 100 w =
    (Ok tt, logCalls [StateModuleLoad; CheckHealthAndPanic "77"] w).
Proof.
  apply (hedge_interval_gate sampleConfig (scriptedEnv sampleScript) 100
           (set_lastHedgeTime (1700000000000 - 1000) (initialWorld NoFile))
           "77"); reflexivity.
Defined.

(** Once the interval has passed, the same position is rebalanced. *)
Example hedge_interval_elapsed :
  let env := scriptedEnv sampleScript in
  let w := set_lastHedgeTime (1700000000000 - 60000) (initialWorld NoFile) in
  newCalls w (snd (Scheduler.onNewBlock sampleConfig env 100 w)) =
    [StateModuleLoad; CheckHealthAndPanic "77"; PoolSlot0; PoolLiquidity;
     NpmPositions "77"; ActionsExecuteFullRebalance "77"].
Proof. reflexivity. Qed.

(* ===================================================================== *)
(** * Further properties *)
(* ===================================================================== *)

(** ** Slippage bound *)

(** X2: for a non-negative quote, the minimum output is the quote scaled by
    0.995 and rounded down: it never exceeds the quote and is less than one
    unit below 99.5% of it. *)
Theorem minAmountOutOf_bounds (expectedOutput : Z) :
  0 <= expectedOutput ->
  let m := Monolith.minAmountOutOf expectedOutput in
  10000 * m <= 9950 * expectedOutput < 10000 * (m + 1) /\
  0 <= m <= expectedOutput.
Proof.
  intros He m. subst m. rewrite minAmountOutOf_eq.
  pose proof (Z.quot_rem' (expectedOutput * 9950) 10000) as E.
  pose proof (Z.rem_bound_pos (expectedOutput * 9950) 10000
                ltac:(lia) ltac:(lia)) as B.
  lia.
Qed.

Lemma minAmountOutOf_bounds_witness :
  Monolith.minAmountOutOf 1600000000000001 = 1592000000000000 /\
  10000 * Monolith.minAmountOutOf 1600000000000001
    <= 9950 * 1600000000000001
    < 10000 * (Monolith.minAmountOutOf 1600000000000001 + 1).
Proof.
  split; [reflexivity |].
  apply (minAmountOutOf_bounds 1600000000000001). lia.
Defined.

(** ** Retry harness: worst case *)

Lemma totalSleep_app (cs ds : Trace) :
  totalSleep (cs ++ ds) = totalSleep cs + totalSleep ds.
Proof.
  induction cs as [| c cs IH]; cbn [List.app totalSleep]; [lia |].
  destruct c; lia.
Qed.

Lemma totalSleep_failedAttempts (MAX r : Z) (c : Call) (j : nat) :
  totalSleep [c] = 0 ->
  totalSleep (failedAttempts MAX r c j) =
  1000 * (MAX - r) * Z.of_nat j + 500 * Z.of_nat j * (Z.of_nat j + 1).
Proof.
  intros Hc. unfold failedAttempts.
  induction j as [| j IH]; [cbn; lia |].
  rewrite seq_S, flat_map_app, totalSleep_app, IH.
  cbn [flat_map List.app Nat.add].
  change [c; Sleep (retryDelay MAX r (S j))]
    with ([c] ++ [Sleep (retryDelay MAX r (S j))]).
  rewrite totalSleep_app, Hc. cbn [totalSleep]. unfold retryDelay. lia.
Qed.

(** X3: when every attempt of a call fails, [withRetry] with the default
    budget gives up after [MAX_RETRIES + 1] attempts, having slept
    [1000 + 2000 + ... + 1000 * MAX_RETRIES = 500 * MAX_RETRIES *
    (MAX_RETRIES + 1)] ms in total, and throws. *)
Theorem withRetry_worst_case (MAX : Z) {T} (c : Call) (f : Trace -> Res T)
    (w : World) :
  0 <= MAX ->
  totalSleep [c] = 0 ->
  (forall h, isOk (f h) = false) ->
  let run := Utils.withRetryDefault MAX (call c f) w in
  isOk (fst run) = false /\
  newCalls w (snd run) = failedAttempts MAX MAX c (Z.to_nat MAX) ++ [c] /\
  totalSleep (newCalls w (snd run)) = 500 * MAX * (MAX + 1).
Proof.
  intros HM Hc Hf run. subst run. unfold Utils.withRetryDefault, Utils.withRetry.
  destruct (withRetry_rec_spec MAX c f (Z.to_nat MAX) MAX w)
    as (j & Hj & _ & Hrun & Hlast).
  destruct Hlast as [Hl | ->]; [now rewrite Hf in Hl |].
  rewrite Hrun. cbn [fst snd]. rewrite newCalls_logCalls.
  split; [apply Hf |]. split; [reflexivity |].
  rewrite totalSleep_app, Hc, totalSleep_failedAttempts by assumption.
  rewrite Z2Nat.id by assumption. lia.
Qed.

Lemma withRetry_worst_case_witness :
  let f := fun _ : Trace => Throw (A := Z) (Rejected 7) in
  let run := Utils.withRetryDefault 3 (call (Erc20BalanceOf USDC) f)
               (initialWorld NoFile) in
  newCalls (initialWorld NoFile) (snd run) =
    [Erc20BalanceOf USDC; Sleep 1000; Erc20BalanceOf USDC; Sleep 2000;
     Erc20BalanceOf USDC; Sleep 3000; Erc20BalanceOf USDC] /\
  totalSleep (newCalls (initialWorld NoFile) (snd run)) = 6000.
Proof.
  intros f run. split; [reflexivity |].
  apply (withRetry_worst_case 3 (Erc20BalanceOf USDC) f (initialWorld NoFile));
    [lia | reflexivity | reflexivity].
Defined.

(** ** Range: alignment and containment *)

(** Turns the boolean tests met in the hypotheses into propositions. *)
Ltac tests_to_props :=
  repeat match goal with
    | H : (_ >? _) = _ |- _ => rewrite Z.gtb_ltb in H
    | H : (_ <? _) = true |- _ => apply Z.ltb_lt in H
    | H : (_ <? _) = false |- _ => apply Z.ltb_ge in H
    | H : (_ =? _) = true |- _ => apply Z.eqb_eq in H
    | H : (_ =? _) = false |- _ => apply Z.eqb_neq in H
    end.

(** Splits on the outermost test of the goal whose operands are settled. *)
Ltac split_test :=
  match goal with
  | |- context [if ?c then _ else _] =>
      lazymatch c with
      | context [if _ then _ else _] => fail
      | _ => let E := fresh "T" in destruct c eqn:E
      end
  end.

(** X4: for a spacing [s] of at most the half-width and a tick between the
    outermost aligned ticks [-(floor(887272 / s) * s)] (inclusive) and
    [floor(887272 / s) * s] (exclusive), the computed range contains the
    tick ([tickLower <= tick < tickUpper]), both bounds are multiples of the
    spacing, and the range is narrower than [2 * 2000 + s]. *)
Theorem computeRange_contains_tick (tick s : Z) :
  0 < s <= Range.WIDTH ->
  - (Range.MAX_TICK / s * s) <= tick < Range.MAX_TICK / s * s ->
  let r := Range.computeRange tick s in
  fst r <= tick < snd r /\
  fst r mod s = 0 /\ snd r mod s = 0 /\
  snd r - fst r < 2 * Range.WIDTH + s.
Proof.
  intros Hs Ht r. subst r.
  pose proof (Z.div_mod Range.MAX_TICK s ltac:(lia)) as EM.
  pose proof (Z.mod_pos_bound Range.MAX_TICK s ltac:(lia)) as BM.
  assert (Htick : Range.MIN_TICK <= tick <= Range.MAX_TICK)
    by (unfold Range.MIN_TICK, Range.MAX_TICK in *; lia).
  destruct (window_facts tick s Htick Hs)
    as (W1 & W2 & W3 & Q12 & Q1M & QM2 & QM1).
  unfold Range.computeRange, Range.window, Range.clampNormalize,
    Range.floorDiv, Range.ceilDiv.
  replace (- Range.MIN_TICK) with Range.MAX_TICK by reflexivity.
  set (q1 := (tick - Range.WIDTH) / s) in *.
  set (q2 := (tick + Range.WIDTH) / s) in *.
  set (qM := Range.MAX_TICK / s) in *.
  unfold Range.MIN_TICK, Range.MAX_TICK, Range.WIDTH in *.
  repeat split_test; tests_to_props; cbn [fst snd];
    try (exfalso; nia);
    (split; [nia |]);
    rewrite ?Z.mod_mul by lia;
    (split; [reflexivity |]); (split; [reflexivity | nia]).
Qed.

Lemma computeRange_contains_tick_witness :
  let r := Range.computeRange (-201337) 60 in
  r = (-203340, -199380) /\
  fst r <= -201337 < snd r /\
  fst r mod 60 = 0 /\ snd r mod 60 = 0 /\
  snd r - fst r < 2 * Range.WIDTH + 60.
Proof.
  split; [reflexivity |].
  apply (computeRange_contains_tick (-201337) 60);
    unfold Range.WIDTH, Range.MAX_TICK; cbn; lia.
Defined.

(** X5: the range of the polling entry points (no clamp), for a spacing of
    at most the width: it contains the tick, its bounds are multiples of the
    spacing and ordered, and it reaches at least [WIDTH - s] beyond the tick
    on each side, so that within [WIDTH - s] of the upper tick limit the
    upper bound lies above the limit. *)
Theorem computeRangeUnclamped_contains_tick (W tick s : Z) :
  0 < s <= W ->
  let r := Variants.computeRangeUnclamped W tick s in
  fst r <= tick - W /\ tick + W - s < snd r /\
  fst r <= tick < snd r /\
  fst r mod s = 0 /\ snd r mod s = 0 /\
  (Range.MAX_TICK + s <= tick + W -> Range.MAX_TICK < snd r).
Proof.
  intros Hs r. subst r.
  pose proof (Z.div_mod (tick - W) s ltac:(lia)) as E1.
  pose proof (Z.mod_pos_bound (tick - W) s ltac:(lia)) as B1.
  pose proof (Z.div_mod (tick + W) s ltac:(lia)) as E2.
  pose proof (Z.mod_pos_bound (tick + W) s ltac:(lia)) as B2.
  unfold Variants.computeRangeUnclamped, Range.floorDiv.
  set (q1 := (tick - W) / s) in *.
  set (q2 := (tick + W) / s) in *.
  assert (Q : q1 < q2) by nia.
  repeat split_test; tests_to_props; cbn [fst snd];
    try (exfalso; nia);
    repeat split; rewrite ?Z.mod_mul by lia; try nia.
Qed.

Lemma computeRangeUnclamped_contains_tick_witness :
  let r := Variants.computeRangeUnclamped 2000 887000 60 in
  r = (885000, 888960) /\
  fst r <= 887000 < snd r /\ Range.MAX_TICK < snd r.
Proof.
  split; [reflexivity |].
  destruct (computeRangeUnclamped_contains_tick 2000 887000 60 ltac:(lia))
    as (_ & _ & H & _ & _ & Hmax).
  split; [exact H |]. apply Hmax. unfold Range.MAX_TICK. lia.
Defined.

(** ** Analytics *)

(** X6: [getEthRsi] never throws.  It asks for [period + 10] candles of
    ETHUSDT and returns the last value of the RSI series of their close
    prices (column 4); when the request fails, the RSI library throws or
    the series is empty, it returns the neutral value 50. *)
Theorem getEthRsi_total
    (rsiValue : Type) (parseFloat : option string -> rsiValue)
    (RSI_calculate : list rsiValue -> Z -> Res (list rsiValue))
    (neutral : rsiValue)
    (axios_get : string -> string -> Z -> Res (list (list string)))
    (interval : string) (period : Z) :
  let result :=
    Analytics.getEthRsiFrom rsiValue parseFloat RSI_calculate neutral axios_get
      interval period in
  (exists v, result = Ok v) /\
  (forall data series,
     axios_get "ETHUSDT" interval (period + 10) = Ok data ->
     RSI_calculate (map (fun candle => parseFloat (nth_error candle 4)) data)
       period = Ok series ->
     series <> [] ->
     result = Ok (last series neutral)) /\
  (result <> Ok neutral ->
   exists data series,
     axios_get "ETHUSDT" interval (period + 10) = Ok data /\
     RSI_calculate (map (fun candle => parseFloat (nth_error candle 4)) data)
       period = Ok series /\
     series <> [] /\ result = Ok (last series neutral)).
Proof.
  intros result. subst result. unfold Analytics.getEthRsiFrom.
  assert (Hlast : forall (l : list rsiValue) x xs,
             rev l = x :: xs -> last l neutral = x /\ l <> []).
  { intros l x xs H. apply (f_equal (@rev _)) in H.
    rewrite rev_involutive in H. subst l. cbn [rev].
    split; [apply last_last | intros E; now apply app_eq_nil in E as [_ E]]. }
  assert (Hnil : forall l : list rsiValue, rev l = [] -> l = []).
  { intros l H. apply (f_equal (@rev _)) in H.
    now rewrite rev_involutive in H. }
  destruct (axios_get "ETHUSDT" interval (period + 10)) as [data | e].
  2:{ split; [now exists neutral |].
      split; [intros ? ? [=] | intros H; now contradiction H]. }
  destruct (RSI_calculate
              (map (fun candle => parseFloat (nth_error candle 4)) data) period)
    as [series | e] eqn:ER.
  2:{ split; [now exists neutral |].
      split; [intros ? ? [= <-] E; congruence | intros H; now contradiction H]. }
  destruct (rev series) as [| x xs] eqn:Er.
  - split; [now exists neutral |]. split.
    + intros ? sr [= <-] E Hne. rewrite ER in E. injection E as <-.
      now apply Hnil in Er.
    + intros H; now contradiction H.
  - destruct (Hlast series x xs Er) as [Hl Hne].
    split; [now exists x |]. split.
    + intros ? sr [= <-] E _. rewrite ER in E. injection E as <-.
      now rewrite Hl.
    + intros _. exists data, series. now rewrite Hl.
Qed.

(** ** Frame rules for the retry and timeout harness *)

Lemma emits_withRetry_rec (P : Call -> bool) (MAX : Z) {T} (op : M T)
    (fuel : nat) (retries : Z) :
  (forall ms, P (Sleep ms) = true) -> emits P op ->
  emits P (Utils.withRetry_rec MAX op fuel retries).
Proof.
  intros Hs Hop. revert retries.
  induction fuel as [| fuel IH]; intros retries; cbn [Utils.withRetry_rec];
    apply emits_tryCatch; try assumption; intros e.
  - apply emits_throw.
  - apply emits_bind; [apply emits_call, Hs | intros _; apply IH].
Qed.

Lemma emits_withRetry (P : Call -> bool) (cfg : Config) {T} (op : M T) :
  (forall ms, P (Sleep ms) = true) -> emits P op ->
  emits P (Actions.withRetry cfg op).
Proof. intros Hs Hop. now apply emits_withRetry_rec. Qed.

Lemma keeps_withRetry_rec {X} (sel : World -> X) (MAX : Z) {T} (op : M T)
    (fuel : nat) (retries : Z) :
  (forall c w, sel (logCall c w) = sel w) -> keeps sel op ->
  keeps sel (Utils.withRetry_rec MAX op fuel retries).
Proof.
  intros Hs Hop. revert retries.
  induction fuel as [| fuel IH]; intros retries; cbn [Utils.withRetry_rec];
    apply keeps_tryCatch; try assumption; intros e.
  - apply keeps_throw.
  - apply keeps_bind; [apply keeps_call, Hs | intros _; apply IH].
Qed.

Lemma keeps_withRetry {X} (sel : World -> X) (cfg : Config) {T} (op : M T) :
  (forall c w, sel (logCall c w) = sel w) -> keeps sel op ->
  keeps sel (Actions.withRetry cfg op).
Proof. intros Hs Hop. now apply keeps_withRetry_rec. Qed.

Lemma emits_waitWithTimeout (P : Call -> bool) (env : Env) (tx : Tx) (ms : Z) :
  P (TxWaitRace tx ms) = true -> emits P (Actions.waitWithTimeout env tx ms).
Proof.
  intros H. unfold Actions.waitWithTimeout, Utils.waitWithTimeout.
  apply emits_bind; [now apply emits_call |].
  intros [rc |]; [apply emits_ret | apply emits_throw].
Qed.

(** Splits on the next answer, the outcome of a race included. *)
Ltac next_outcome :=
  match goal with
  | |- context [match tx_race ?e ?h ?t ?m with _ => _ end] =>
      let E := fresh "E" in destruct (tx_race e h t m) eqn:E
  | |- context [let '(_, _) := ?p in _] =>
      is_var p; destruct p
  | _ => next_answer
  end.

Lemma emits_run (P : Call -> bool) {A} (c : M A) (w : World) :
  emits P c ->
  exists cs, trace (snd (c w)) = trace w ++ cs /\ forallb P cs = true.
Proof. intros H. apply H. Qed.

Lemma newCalls_trace (w w' : World) (cs : list Call) :
  trace w' = trace w ++ cs -> newCalls w w' = cs.
Proof.
  intros H. unfold newCalls.
  now rewrite H, skipn_app, skipn_all, Nat.sub_diag.
Qed.

(** ** The batched exit of src/actions *)

(** X7: [atomicExitPosition] submits the whole exit as one transaction.
    When the position read fails (after its retries) the error comes out
    and nothing was submitted; otherwise exactly one transaction is
    submitted, whatever happens to it: a multicall holding the withdrawal
    of the full liquidity (only when the liquidity is positive), the
    collection of everything owed and the burn, in this order and all for
    the given token. *)
Theorem atomicExitPosition_one_batch
    (cfg : Config) (env : Env) (id : string) (w : World) :
  let read := Actions.withRetry cfg
                (call (NpmPositions id) (fun h => npm_positions env h id)) in
  let run := Actions.atomicExitPosition cfg env id w in
  match read w with
  | (Throw e, w1) =>
      run = (Throw e, w1) /\ filter isTransaction (newCalls w w1) = []
  | (Ok pos, w1) =>
      filter isTransaction (newCalls w (snd run)) =
        [NpmMulticall
           (exitBatch id (liquidity pos) (deadlineAt (clock env (trace w1))))]
  end.
Proof.
  intros read run.
  assert (Hread : emits notTransaction read).
  { apply emits_withRetry; [reflexivity | now apply emits_call]. }
  destruct (emits_run _ read w Hread) as (cs & T & Pcs).
  subst run.
  destruct (read w) as [[pos | e] w1] eqn:Eread; cbn [snd] in T;
    unfold Actions.atomicExitPosition; fold read;
    unfold bind at 1; rewrite Eread.
  - unfold bind at 1, Actions.dateNow, gets.
    unfold Actions.waitWithTimeout, Utils.waitWithTimeout.
    unfold tryCatch, bind, call, throw, ret, exitBatch.
    assert (Hcs : filter isTransaction cs = [])
      by now apply forallb_negb_filter.
    repeat next_outcome; cbn [snd];
      (erewrite newCalls_trace
         by (cbn [trace logCall]; rewrite T, <- ?app_assoc; reflexivity));
      rewrite filter_app, Hcs, ?T; reflexivity.
  - split; [reflexivity |].
    rewrite (newCalls_trace _ _ _ T). now apply forallb_negb_filter.
Qed.

(** ** The exit step of the monolithic protocol *)

(** X8: the exit step of the monolithic [executeFullRebalance] submits its
    transactions in a fixed order and stops at the first failure: what it
    submitted is always an initial part of withdrawal (only when the
    liquidity read is positive), collection, burn, all for the given token;
    when the step ends normally, all of them were submitted.  When the
    position read fails, nothing is submitted. *)
Theorem exitOldPosition_order (env : Env) (id : string) (w : World) :
  let run := Monolith.exitOldPosition env id w in
  match npm_positions env (trace w) id with
  | Throw e => run = (Throw e, logCall (NpmPositions id) w)
  | Ok pos =>
      let deadline :=
        deadlineAt (clock env (trace w ++ [NpmPositions id])) in
      exists rest,
        filter mutating (newCalls w (snd run)) ++ rest =
          exitTransactions id (liquidity pos) deadline /\
        (fst run = Ok tt -> rest = [])
  end.
Proof.
  intros run. subst run.
  unfold Monolith.exitOldPosition, Monolith.txWait, Monolith.dateNow,
    exitTransactions.
  unfold bind, call, gets, ret.
  destruct (npm_positions env (trace w) id) as [pos | e]; [| reflexivity].
  cbn [trace logCall].
  destruct (liquidity pos >? 0);
    repeat next_answer; cbn [fst snd];
    (erewrite newCalls_trace
       by (cbn [trace logCall]; rewrite <- ?app_assoc; reflexivity));
    cbn [List.app filter mutating];
    eexists; (split; [reflexivity | try discriminate; reflexivity]).
Qed.

(** Position 77 holds liquidity 500: withdrawal, collection and burn are
    submitted, in this order. *)
Lemma exitOldPosition_order_witness :
  let env := scriptedEnv sampleScript in
  let w := initialWorld NoFile in
  let run := Monolith.exitOldPosition env "77" w in
  exists rest,
    filter mutating (newCalls w (snd run)) ++ rest =
      exitTransactions "77" 500 1700000120 /\
    (fst run = Ok tt -> rest = []).
Proof.
  intros env w run. exact (exitOldPosition_order env "77" w).
Defined.

(** ** The range and mint steps of the monolithic protocol *)

Lemma emits_not_In (P : Call -> bool) (cs : list Call) (c : Call) :
  forallb (fun x => negb (P x)) cs = true -> P c = true -> ~ In c cs.
Proof.
  intros H Hc Hin. rewrite forallb_forall in H. specialize (H c Hin).
  now rewrite Hc in H.
Qed.

Lemma emits_saveState (P : Call -> bool) (env : Env) (id : string) :
  (forall st, P (WriteStateFile st) = true) ->
  emits P (Monolith.saveState env id).
Proof.
  intros H w. eexists. split; [reflexivity |]. cbn. now rewrite H.
Qed.

Lemma emits_loadState (P : Call -> bool) : emits P Monolith.loadState.
Proof.
  intros w. exists []. unfold Monolith.loadState.
  destruct (stateFile w); cbn; now rewrite app_nil_r.
Qed.

(** What [mintMaxLiquidity] adds to the trace: no swap, and at most one
    mint, submitted for the bounds it was given. *)
Lemma mintMaxLiquidity_calls (env : Env) (pool : Pool) (tl tu : Z) (w : World) :
  exists cs,
    trace (snd (Monolith.mintMaxLiquidity env pool tl tu w)) = trace w ++ cs /\
    filter isSwap cs = [] /\
    filter isWriteStateFile cs = [] /\
    forall p, In (NpmMint p) cs ->
      mint_tickLower p = tl /\ mint_tickUpper p = tu /\
      filter isMint cs = [NpmMint p].
Proof.
  unfold Monolith.mintMaxLiquidity, Monolith.getBalance, Monolith.txWait,
    Monolith.dateNow, decodeTokenId.
  unfold bind, call, liftRes, gets, throw, ret.
  repeat next_answer; cbn [snd trace logCall]; rewrite <- ?app_assoc;
    (eexists; split; [reflexivity |]);
    (split; [reflexivity |]); (split; [reflexivity |]);
    cbn [List.app In]; intros p Hin;
    repeat match goal with
           | H : _ \/ _ |- _ => destruct H as [H | H]
           | H : False |- _ => contradiction
           end;
    try discriminate;
    injection Hin as <-; repeat split; reflexivity.
Qed.

(** X9: the range of a mint comes from the price read after the rebalance
    swap.  In every run of [executeFullRebalance], a submitted mint is the
    only one of the run; it follows a [slot0] read that succeeded, with no
    swap and no mint between the two, and its bounds are the range computed
    from the tick of that read and the spacing of the pool. *)
Theorem mint_uses_refreshed_tick
    (F : NumOps) (env : Env) (pool : Pool) (old : string) (w : World)
    (p : MintParams) :
  let calls :=
    newCalls w (snd (Monolith.executeFullRebalance F env pool old w)) in
  In (NpmMint p) calls ->
  exists pre post slot0,
    calls = pre ++ PoolSlot0 :: post /\
    pool_slot0 env (trace w ++ pre) = Ok slot0 /\
    (mint_tickLower p, mint_tickUpper p) =
      Range.computeRange (tick slot0) (tickSpacing pool) /\
    filter isMint pre = [] /\
    filter isMint post = [NpmMint p] /\
    filter isSwap post = [].
Proof.
  intros calls.
  assert (Hc : calls =
    newCalls w (snd (Monolith.executeFullRebalance F env pool old w)))
    by reflexivity.
  clearbody calls.
  assert (E1 : emits notMint (Monolith.exitIfAny env old)).
  { unfold Monolith.exitIfAny, Monolith.exitOldPosition, Monolith.txWait,
      Monolith.dateNow. frame. }
  assert (E2 : emits notMint (Monolith.rebalancePortfolio F env pool)).
  { unfold Monolith.rebalancePortfolio, Monolith.swapExactInput,
      Monolith.getBalance, Monolith.txWait, Monolith.dateNow. frame. }
  unfold Monolith.executeFullRebalance in Hc.
  unfold bind at 1 in Hc.
  destruct (emits_run _ _ w E1) as (cs1 & T1 & P1).
  destruct (Monolith.exitIfAny env old w) as [[[] | e1] w1]; cbn [snd] in *.
  2:{ rewrite (newCalls_trace _ _ _ T1) in Hc. subst calls. intros Hin.
      now apply (emits_not_In isMint) in Hin. }
  unfold bind at 1 in Hc.
  destruct (emits_run _ _ w1 E2) as (cs2 & T2 & P2).
  assert (P12 : filter isMint (cs1 ++ cs2) = []).
  { apply forallb_negb_filter. unfold notMint in *.
    now rewrite forallb_app, P1, P2. }
  assert (N12 : forall q, ~ In (NpmMint q) (cs1 ++ cs2)).
  { intros q. apply (emits_not_In isMint); [| reflexivity].
    unfold notMint in *. now rewrite forallb_app, P1, P2. }
  destruct (Monolith.rebalancePortfolio F env pool w1) as [[[] | e2] w2];
    cbn [snd] in *.
  2:{ rewrite (newCalls_trace w w2 (cs1 ++ cs2)) in Hc
        by (now rewrite T2, T1, <- app_assoc).
      subst calls. intros Hin. now apply N12 in Hin. }
  assert (T12 : trace w2 = trace w ++ cs1 ++ cs2)
    by (now rewrite T2, T1, <- app_assoc).
  unfold Monolith.refreshRangeMintSave in Hc.
  unfold bind at 1, call at 1 in Hc.
  destruct (pool_slot0 env (trace w2)) as [slot0 | e3] eqn:Eslot.
  2:{ rewrite (newCalls_trace w _ ((cs1 ++ cs2) ++ [PoolSlot0])) in Hc
        by (cbn [snd trace logCall]; now rewrite T12, <- !app_assoc).
      subst calls. intros Hin.
      apply in_app_or in Hin as [Hin | [Hin | []]];
        [now apply N12 in Hin | discriminate]. }
  destruct (Range.computeRange (tick slot0) (tickSpacing pool))
    as [tl tu] eqn:Erange.
  destruct (mintMaxLiquidity_calls env pool tl tu (logCall PoolSlot0 w2))
    as (cs3 & T3 & S3 & W3 & M3).
  unfold bind at 1 in Hc.
  destruct (Monolith.mintMaxLiquidity env pool tl tu (logCall PoolSlot0 w2))
    as [[newId | e4] w3]; cbn [snd trace logCall] in T3.
  - rewrite saveState_run in Hc. cbn [snd] in Hc.
    match type of Hc with
    | context [logCalls [WriteStateFile ?st] _] => set (st0 := st) in Hc
    end.
    rewrite (newCalls_trace w _
               ((cs1 ++ cs2) ++ PoolSlot0 :: cs3 ++ [WriteStateFile st0]))
      in Hc
      by (cbn [snd trace logCalls set_stateFile];
          rewrite T3, T12, <- !app_assoc; reflexivity).
    subst calls.
    intros Hin. apply in_app_or in Hin as [Hin | Hin];
      [now apply N12 in Hin |].
    destruct Hin as [Hin | Hin]; [discriminate |].
    apply in_app_or in Hin as [Hin | [Hin | []]]; [| discriminate].
    destruct (M3 p Hin) as (Hl & Hu & Hm).
    exists (cs1 ++ cs2), (cs3 ++ [WriteStateFile st0]), slot0.
    split; [reflexivity |]. split; [now rewrite <- T12 |].
    split; [now rewrite Hl, Hu |]. split; [exact P12 |].
    rewrite !filter_app, Hm, S3. split; reflexivity.
  - rewrite (newCalls_trace w _ ((cs1 ++ cs2) ++ PoolSlot0 :: cs3)) in Hc
      by (cbn [snd]; rewrite T3, T12, <- !app_assoc; reflexivity).
    subst calls.
    intros Hin. apply in_app_or in Hin as [Hin | Hin];
      [now apply N12 in Hin |].
    destruct Hin as [Hin | Hin]; [discriminate |].
    destruct (M3 p Hin) as (Hl & Hu & Hm).
    exists (cs1 ++ cs2), cs3, slot0.
    split; [reflexivity |]. split; [now rewrite <- T12 |].
    split; [now rewrite Hl, Hu |]. split; [exact P12 |].
    split; assumption.
Qed.

(** A run that exits position 77, swaps and mints: the mint is for
    [-1500, 2460], the range around the refreshed tick 500. *)
Lemma mint_uses_refreshed_tick_witness :
  let env := scriptedEnv sampleScript in
  let pool := samplePool 1600000000000000 in
  let w := initialWorld (Stored {| tokenId := "77"; lastCheck := 0 |}) in
  let p := {| mint_token0 := WETH; mint_token1 := USDC; mint_fee := 3000;
              mint_tickLower := -1500; mint_tickUpper := 2460;
              amount0Desired := 0; amount1Desired := 10000000;
              amount0Min := 0; amount1Min := 0;
              mint_deadline := 1700000120 |} in
  let calls :=
    newCalls w (snd (Monolith.executeFullRebalance QNum env pool "77" w)) in
  In (NpmMint p) calls /\
  exists pre post slot0,
    calls = pre ++ PoolSlot0 :: post /\
    pool_slot0 env (trace w ++ pre) = Ok slot0 /\
    (mint_tickLower p, mint_tickUpper p) =
      Range.computeRange (tick slot0) (tickSpacing pool) /\
    filter isMint pre = [] /\
    filter isMint post = [NpmMint p] /\
    filter isSwap post = [].
Proof.
  intros env pool w p calls.
  assert (Hin : In (NpmMint p) calls).
  { vm_compute. repeat first [left; reflexivity | right]. }
  split; [exact Hin |].
  exact (mint_uses_refreshed_tick QNum env pool "77" w p Hin).
Defined.

(** ** The life cycle of the monolithic entry point *)

(** X10: with a tracked position, a cycle of [runLifeCycle] that got past
    its start-up never throws, whatever fails later (the errors of the
    position read and of the whole rebalance protocol are caught and
    logged).  When the position read fails, and when the position is in
    range, the cycle ends right after that read: it submits nothing and
    leaves the state file alone. *)
Theorem runLifeCycle_tracked_position
    (F : NumOps) (env : Env) (w w1 : World) (slot0 : Slot0) (pool : Pool)
    (st : BotState) :
  Monolith.startup env w = (Ok (slot0, pool), w1) ->
  stateFile w = Stored st ->
  tokenId st <> "0" ->
  let read := npm_positions env (trace w1) (tokenId st) in
  let idle := (Ok tt, logCall (NpmPositions (tokenId st)) w1) in
  fst (Monolith.runLifeCycle F env w) = Ok tt /\
  (isOk read = false -> Monolith.runLifeCycle F env w = idle) /\
  (forall pos,
     read = Ok pos ->
     liquidity pos <> 0 \/ tickLower pos <> 0 ->
     tickLower pos <= tick slot0 <= tickUpper pos ->
     Monolith.runLifeCycle F env w = idle).
Proof.
  intros Hstart Hfile Hid read idle. subst read idle.
  pose proof (proj1 (startup_frame env) w) as K.
  rewrite Hstart in K. cbn [snd] in K.
  assert (Hne : String.eqb (tokenId st) "0" = false)
    by now apply String.eqb_neq.
  remember (Monolith.runLifeCycle F env w) as run eqn:Hrun.
  unfold Monolith.runLifeCycle in Hrun.
  unfold bind at 1 in Hrun. rewrite Hstart in Hrun.
  unfold bind at 1 in Hrun. rewrite loadState_run, K, Hfile in Hrun.
  cbn [recordOf] in Hrun. rewrite Hne in Hrun.
  unfold tryCatch, bind at 1, call at 1 in Hrun.
  destruct (npm_positions env (trace w1) (tokenId st)) as [pos | e].
  - split; [| split].
    + subst run.
      destruct ((liquidity pos =? 0) && (tickLower pos =? 0));
        [| destruct ((tick slot0 <? tickLower pos) ||
                     (tick slot0 >? tickUpper pos))];
        try reflexivity;
        match goal with
        | |- context [Monolith.executeFullRebalance F env pool ?old ?w0] =>
            destruct (Monolith.executeFullRebalance F env pool old w0)
              as [[[] | e] w2]; reflexivity
        end.
    + discriminate.
    + intros pos' [= <-] Hlive Hin.
      replace ((liquidity pos =? 0) && (tickLower pos =? 0)) with false
        in Hrun
        by (symmetry; apply andb_false_iff;
            destruct Hlive; [left | right]; now apply Z.eqb_neq).
      replace ((tick slot0 <? tickLower pos) || (tick slot0 >? tickUpper pos))
        with false in Hrun
        by (symmetry; apply orb_false_iff; split;
            [apply Z.ltb_ge | rewrite Z.gtb_ltb; apply Z.ltb_ge]; lia).
      exact Hrun.
  - subst run. split; [reflexivity |]. split; [reflexivity | discriminate].
Qed.

(** Position 77 spans [100, 200] and the tick is 150: the cycle reads the
    position and stops. *)
Lemma runLifeCycle_tracked_position_witness :
  let sl := {| sqrtPriceX96 := 1; tick := 150 |} in
  let env := scriptedEnv
    {| s_now := 1700000000000; s_loaded := Some "77"; s_healthy := Ok true;
       s_positions := Ok {| liquidity := 500; tickLower := 100;
                            tickUpper := 200;
                            tokensOwed0 := 0; tokensOwed1 := 0 |};
       s_owned := []; s_balances := fun _ => 0; s_quote := 1;
       s_swap := Ok 7; s_slot0 := Ok sl;
       s_mintLogs := Some (mintReceipt 78); s_rebalance := Ok tt |} in
  let w := initialWorld (Stored {| tokenId := "77"; lastCheck := 0 |}) in
  Monolith.runLifeCycle QNum env w =
    (Ok tt, logCall (NpmPositions "77") (snd (Monolith.startup env w))).
Proof.
  intros sl env w.
  refine (proj2 (proj2 (runLifeCycle_tracked_position QNum env w
                          (snd (Monolith.startup env w)) sl (samplePool 1)
                          {| tokenId := "77"; lastCheck := 0 |}
                          eq_refl eq_refl _))
            {| liquidity := 500; tickLower := 100; tickUpper := 200;
               tokensOwed0 := 0; tokensOwed1 := 0 |} eq_refl _ _).
  - discriminate.
  - left. discriminate.
  - cbn. lia.
Defined.

(** X11: a cycle of [runLifeCycle] that starts from a record without a
    position (no file, an unreadable file, or "0") never reads, withdraws
    from, collects from or burns a position, alone or batched, whatever the
    reconciler finds: a recovered position is recorded but not exited. *)
Theorem runLifeCycle_first_run_never_exits
    (F : NumOps) (env : Env) (w : World) :
  tokenId (recordOf (stateFile w)) = "0" ->
  filter isExitCall (newCalls w (snd (Monolith.runLifeCycle F env w))) = [].
Proof.
  intros Hrec.
  assert (E1 : emits notExitCall (Monolith.startup env)).
  { unfold Monolith.startup, Monolith.approveAll, Monolith.checkAndApprove,
      Monolith.txWait. frame. }
  assert (E2 : forall pool, emits notExitCall
            (recoveredId <- Monolith.findOrphanedPosition env ;;
             (if negb (String.eqb recoveredId "0")
              then Monolith.saveState env recoveredId else ret tt) ;;;
             Monolith.executeFullRebalance F env pool "0")).
  { intros pool.
    apply emits_bind; [unfold Monolith.findOrphanedPosition; frame |].
    intros recoveredId. apply emits_bind.
    { destruct (negb (String.eqb recoveredId "0"));
        [now apply emits_saveState | apply emits_ret]. }
    intros _. unfold Monolith.executeFullRebalance, Monolith.exitIfAny.
    cbn [String.eqb Ascii.eqb Bool.eqb negb].
    apply emits_bind; [apply emits_ret | intros _].
    apply emits_bind.
    { unfold Monolith.rebalancePortfolio, Monolith.swapExactInput,
        Monolith.getBalance, Monolith.txWait, Monolith.dateNow. frame. }
    intros _. unfold Monolith.refreshRangeMintSave.
    apply emits_bind; [now apply emits_call |]. intros newSlot0.
    destruct (Range.computeRange _ _) as [tl tu].
    apply emits_bind; [| intros newId; now apply emits_saveState].
    unfold Monolith.mintMaxLiquidity, decodeTokenId,
      Monolith.getBalance, Monolith.txWait, Monolith.dateNow. frame. }
  pose proof (proj1 (startup_frame env) w) as K.
  destruct (emits_run _ _ w E1) as (cs1 & T1 & P1).
  unfold Monolith.runLifeCycle. unfold bind at 1.
  destruct (Monolith.startup env w) as [[[slot0 pool] | e] w1];
    cbn [snd] in *.
  2:{ rewrite (newCalls_trace _ _ _ T1). now apply forallb_negb_filter. }
  unfold bind at 1. rewrite loadState_run, K, Hrec.
  cbn [String.eqb Ascii.eqb Bool.eqb].
  destruct (emits_run _ _ w1 (E2 pool)) as (cs2 & T2 & P2).
  rewrite (newCalls_trace w _ (cs1 ++ cs2))
    by (now rewrite T2, T1, <- app_assoc).
  apply forallb_negb_filter. unfold notExitCall in *.
  now rewrite forallb_app, P1, P2.
Qed.

(** An account that owns tokens 41 and 42 and has no state file. *)
Lemma runLifeCycle_first_run_never_exits_witness :
  let env := scriptedEnv (withOwned [41; 42] sampleScript) in
  let w := initialWorld NoFile in
  filter isExitCall (newCalls w (snd (Monolith.runLifeCycle QNum env w))) = [].
Proof.
  intros env w.
  apply (runLifeCycle_first_run_never_exits QNum env w). reflexivity.
Defined.

(** ** One evaluation of the scheduler *)

(** Runs [onNewBlock] symbolically: one goal per combination of answers. *)
Ltac run_onNewBlock :=
  unfold Scheduler.onNewBlock, Scheduler.readPool,
    Scheduler.executeFullRebalance, Scheduler.sendEmailAlert,
    Scheduler.dateNow;
  unfold bind, promiseAll2, call, gets, modify, liftRes, ret;
  cbv beta iota zeta;
  repeat (next_outcome; cbv beta iota zeta).

Ltac world_fields :=
  cbn [fst snd trace stateFile isProcessing lastHedgeTime isSafeMode
       logCall set_lastHedgeTime set_isSafeMode].

(** X12: an evaluation that starts outside safe mode ends in safe mode
    exactly when the state holds a position, the health check answers
    [false] and the alert is sent successfully.  In particular, when the
    alert fails, the flag stays down although the panic exit was made. *)
Theorem safe_mode_entry
    (cfg : Config) (env : Env) (blockNumber : Z) (w : World) :
  isSafeMode w = false ->
  isSafeMode (snd (Scheduler.onNewBlock cfg env blockNumber w)) = true <->
  exists id,
    state_loadState env (trace w) = Ok (Some id) /\
    Scheduler.noActivePosition (Some id) = false /\
    aave_checkHealthAndPanic env (trace w ++ [StateModuleLoad]) id
      = Ok false /\
    utils_sendEmailAlert env
      (trace w ++ [StateModuleLoad; CheckHealthAndPanic id])
      "Bot Stopped" "Entered SAFE MODE after panic exit." = Ok tt.
Proof.
  intros Hw.
  run_onNewBlock; world_fields;
    cbn [trace logCall] in *; rewrite <- ?app_assoc in *;
    cbn [List.app] in *;
    (split;
     [ intros H; try congruence
     | first
         [ reflexivity
         | intros (id & H1 & H2 & H3 & H4); exfalso;
           try discriminate H1; try (injection H1 as ->);
           cbn [Scheduler.idOf] in *; try congruence;
           rewrite H3 in *;
           match goal with
           | H : Ok false = Ok _ |- _ => injection H as <-
           | H : Ok false = Throw _ |- _ => discriminate H
           end;
           cbn [negb] in *; try discriminate;
           rewrite H4 in *; discriminate ] ]).
  destruct a as [id |]; [| discriminate].
  exists id. cbn [Scheduler.idOf] in *.
  destruct a0; [discriminate |]. destruct a1.
  repeat split; assumption.
Qed.

(** The health check of position 77 fails and the alert goes out. *)
Lemma safe_mode_entry_witness :
  let env := scriptedEnv (withHealth (Ok false) sampleScript) in
  let w := initialWorld NoFile in
  isSafeMode (snd (Scheduler.onNewBlock sampleConfig env 1 w)) = true.
Proof.
  intros env w.
  apply (proj2 (safe_mode_entry sampleConfig env 1 w eq_refl)).
  exists "77". repeat split.
Defined.

(** X13: one evaluation makes at most one of the two strategy actions, a
    rebalance or a hedge adjustment, never both and never twice; and a
    rebalance is requested for "0" when the state holds no position and
    for the tracked position otherwise, never for another one. *)
Theorem onNewBlock_single_action
    (cfg : Config) (env : Env) (blockNumber : Z) (w : World) :
  let calls :=
    newCalls w (snd (Scheduler.onNewBlock cfg env blockNumber w)) in
  (List.length (filter isAction calls) <= 1)%nat /\
  forall old,
    In (ActionsExecuteFullRebalance old) calls ->
    exists loaded,
      state_loadState env (trace w) = Ok loaded /\
      old = if Scheduler.noActivePosition loaded then "0"
            else Scheduler.idOf loaded.
Proof.
  intros calls. subst calls.
  run_onNewBlock; world_fields;
    (erewrite newCalls_trace
       by (world_fields; rewrite <- ?app_assoc; reflexivity));
    cbn [List.app filter isAction List.length In];
    (split; [lia |]);
    intros old Hin;
    repeat match goal with
           | H : _ \/ _ |- _ => destruct H as [H | H]
           | H : False |- _ => contradiction
           end;
    try discriminate;
    injection Hin as <-;
    eexists; (split; [reflexivity |]);
    match goal with
    | H : Scheduler.noActivePosition _ = _ |- _ => now rewrite H
    end.
Qed.

(** Position 77 is out of range: one rebalance, for 77, and no hedge. *)
Lemma onNewBlock_single_action_witness :
  let env := scriptedEnv sampleScript in
  let w := initialWorld NoFile in
  let calls := newCalls w (snd (Scheduler.onNewBlock sampleConfig env 1 w)) in
  In (ActionsExecuteFullRebalance "77") calls /\
  filter isAction calls = [ActionsExecuteFullRebalance "77"] /\
  exists loaded,
    state_loadState env (trace w) = Ok loaded /\
    "77" = if Scheduler.noActivePosition loaded then "0"
           else Scheduler.idOf loaded.
Proof.
  intros env w calls.
  assert (Hin : In (ActionsExecuteFullRebalance "77") calls).
  { vm_compute. repeat first [left; reflexivity | right]. }
  split; [exact Hin |]. split; [reflexivity |].
  exact (proj2 (onNewBlock_single_action sampleConfig env 1 w) "77" Hin).
Defined.

(** X14: the hedge timer and the safe-mode flag are written only by an
    evaluation that ends normally.  When [onNewBlock] throws, both are as
    before, so the next block repeats the work; and the timer changes only
    after a rebalance or a hedge adjustment was carried out. *)
Theorem onNewBlock_commits_on_success
    (cfg : Config) (env : Env) (blockNumber : Z) (w : World) :
  let run := Scheduler.onNewBlock cfg env blockNumber w in
  (isOk (fst run) = false ->
   lastHedgeTime (snd run) = lastHedgeTime w /\
   isSafeMode (snd run) = isSafeMode w) /\
  (lastHedgeTime (snd run) <> lastHedgeTime w ->
   fst run = Ok tt /\
   exists c, In c (newCalls w (snd run)) /\ isAction c = true).
Proof.
  intros run. subst run.
  run_onNewBlock; world_fields;
    (split;
     [ intros H; first [discriminate H | split; reflexivity]
     | intros H; first [now contradiction H | idtac] ]);
    (split; [first [reflexivity | now destruct a] |]);
    (erewrite newCalls_trace
       by (world_fields; rewrite <- ?app_assoc; reflexivity));
    cbn [List.app In];
    match goal with
    | |- context [ActionsExecuteFullRebalance ?old] =>
        exists (ActionsExecuteFullRebalance old)
    | |- context [AdjustHedge ?amount ?id] => exists (AdjustHedge amount id)
    end;
    (split; [repeat first [left; reflexivity | right] | reflexivity]).
Qed.

(** The rebalance of the out-of-range position 77 is rejected: the
    evaluation throws and the timer stays at 0. *)
Lemma onNewBlock_commits_on_success_witness :
  let env := scriptedEnv (withRebalance (Throw (Rejected 9)) sampleScript) in
  let w := initialWorld NoFile in
  let run := Scheduler.onNewBlock sampleConfig env 1 w in
  fst run = Throw (Rejected 9) /\
  lastHedgeTime (snd run) = lastHedgeTime w /\
  isSafeMode (snd run) = isSafeMode w.
Proof.
  intros env w run. split; [reflexivity |].
  apply (proj1 (onNewBlock_commits_on_success sampleConfig env 1 w)).
  reflexivity.
Defined.

(** ** The rebalance swap of src/actions *)

(** [Fraction.quotient] rounds towards zero, so twice the quotient of a
    non-negative fraction stays below twice the fraction. *)
Lemma quotient_half_le (q : Q) (z : Z) :
  (0 <= q)%Q -> (q * inject_Z 2 <= inject_Z z)%Q -> 2 * quotient q <= z.
Proof.
  destruct q as [n d]. unfold Qle, Qmult, quotient, inject_Z.
  cbn [Qnum Qden].
  intros H0 H1. rewrite Z.quot_div_nonneg by lia.
  assert (Hk : Z.pos d * (n / Z.pos d) <= n) by (apply Z.mul_div_le; lia).
  rewrite Pos.mul_1_r in H1. nia.
Qed.

Lemma sell_usdc_bound (u wt : Z) (pW : Q) :
  0 <= wt -> (0 <= pW)%Q ->
  (inject_Z u ?= pW * inject_Z wt)%Q = Gt ->
  2 * quotient ((inject_Z u - pW * inject_Z wt) / inject_Z 2) <= u.
Proof.
  intros Hwt HpW Hgt. apply Qgt_alt in Hgt.
  assert (Hv : (0 <= pW * inject_Z wt)%Q).
  { apply Qmult_le_0_compat; [assumption |].
    unfold Qle, inject_Z; cbn; lia. }
  apply quotient_half_le.
  - setoid_replace ((inject_Z u - pW * inject_Z wt) / inject_Z 2)%Q
      with ((inject_Z u - pW * inject_Z wt) * (1 # 2))%Q by (now field).
    apply Qmult_le_0_compat; [| discriminate].
    apply Qlt_le_weak in Hgt. now apply -> Qle_minus_iff in Hgt.
  - setoid_replace
      ((inject_Z u - pW * inject_Z wt) / inject_Z 2 * inject_Z 2)%Q
      with (inject_Z u - pW * inject_Z wt)%Q by (now field).
    apply Qle_minus_iff.
    setoid_replace (inject_Z u + - (inject_Z u - pW * inject_Z wt))%Q
      with (pW * inject_Z wt)%Q by ring.
    assumption.
Qed.

Lemma sell_weth_bound (u wt : Z) (pW pU : Q) :
  0 <= u -> (0 <= pU)%Q -> (pU * pW == 1)%Q ->
  (inject_Z u ?= pW * inject_Z wt)%Q <> Gt ->
  2 * quotient (pU * ((pW * inject_Z wt - inject_Z u) / inject_Z 2)) <= wt.
Proof.
  intros Hu HpU Hinv Hle. apply Qle_alt in Hle.
  assert (Hd : (0 <= pW * inject_Z wt - inject_Z u)%Q)
    by now apply -> Qle_minus_iff in Hle.
  apply quotient_half_le.
  - apply Qmult_le_0_compat; [assumption |].
    setoid_replace ((pW * inject_Z wt - inject_Z u) / inject_Z 2)%Q
      with ((pW * inject_Z wt - inject_Z u) * (1 # 2))%Q by (now field).
    apply Qmult_le_0_compat; [assumption | discriminate].
  - setoid_replace
      (pU * ((pW * inject_Z wt - inject_Z u) / inject_Z 2) * inject_Z 2)%Q
      with ((pU * pW) * inject_Z wt - pU * inject_Z u)%Q by (now field).
    rewrite Hinv.
    apply Qle_minus_iff.
    setoid_replace (inject_Z wt + - (1 * inject_Z wt - pU * inject_Z u))%Q
      with (pU * inject_Z u)%Q by ring.
    apply Qmult_le_0_compat; [assumption |].
    unfold Qle, inject_Z; cbn; lia.
Qed.

(** X15: the rebalance step of src/actions, once both balances are read,
    submits at most one transaction, a swap without a minimum output.  For a
    pool whose two prices are non-negative and inverse to each other and
    non-negative balances, the swap sells at most half of the balance of
    the token it sells, and at least the threshold: 5 USDC when USDC is
    sold for WETH, 0.002 WETH when WETH is sold for USDC. *)
Theorem actions_swap_size
    (cfg : Config) (env : Env) (pool : Pool) (w w1 w2 : World)
    (balUSDC balWETH : Z) :
  Actions.getBalance cfg env USDC w = (Ok balUSDC, w1) ->
  Actions.getBalance cfg env WETH w1 = (Ok balWETH, w2) ->
  0 <= balUSDC -> 0 <= balWETH ->
  (0 <= token0Price pool)%Q -> (0 <= token1Price pool)%Q ->
  (token0Price pool * token1Price pool == 1)%Q ->
  let calls :=
    newCalls w2 (snd (Actions.rebalancePortfolio cfg env pool w)) in
  filter isTransaction calls = [] \/
  exists p,
    filter isTransaction calls = [RouterExactInputSingle p] /\
    amountOutMinimum p = 0 /\
    ((tokenIn p = USDC /\ tokenOut p = WETH /\
      5 * 10 ^ 6 <= amountIn p /\ 2 * amountIn p <= balUSDC) \/
     (tokenIn p = WETH /\ tokenOut p = USDC /\
      2 * 10 ^ 15 <= amountIn p /\ 2 * amountIn p <= balWETH)).
Proof.
  intros HU HW Hu Hwt Hp0 Hp1 Hinv calls. subst calls.
  remember (Actions.rebalancePortfolio cfg env pool w) as run eqn:Hrun.
  unfold Actions.rebalancePortfolio in Hrun.
  unfold bind at 1 in Hrun. rewrite HU in Hrun.
  unfold bind at 1 in Hrun. rewrite HW in Hrun.
  cbv zeta in Hrun. subst run.
  set (pW := if Token_eqb (token0 pool) WETH
             then token0Price pool else token1Price pool).
  set (pU := if Token_eqb (token0 pool) USDC
             then token0Price pool else token1Price pool).
  assert (HpW : (0 <= pW)%Q)
    by (unfold pW; destruct (Token_eqb (token0 pool) WETH); assumption).
  assert (HpU : (0 <= pU)%Q)
    by (unfold pU; destruct (Token_eqb (token0 pool) USDC); assumption).
  assert (Hinv' : (pU * pW == 1)%Q).
  { unfold pU, pW. destruct (token0 pool); cbn [Token_eqb];
      [| rewrite Qmult_comm]; exact Hinv. }
  clearbody pW pU.
  destruct (Qcompare (inject_Z balUSDC) (pW * inject_Z balWETH)) eqn:Ecmp.
  3:{ pose proof (sell_usdc_bound balUSDC balWETH pW Hwt HpW Ecmp) as Hb.
      destruct (_ <? _) eqn:Eth.
      { left. now rewrite newCalls_self. }
      apply Z.ltb_ge in Eth. right.
      unfold Actions.swapExactInput, Actions.dateNow, Actions.waitWithTimeout,
        Utils.waitWithTimeout.
      unfold bind, call, gets, throw, ret.
      repeat next_outcome; cbn [snd];
        (erewrite newCalls_trace
           by (cbn [trace logCall]; rewrite <- ?app_assoc; reflexivity));
        cbn [List.app filter isTransaction mutating];
        (eexists; split; [reflexivity |]);
        cbn [amountOutMinimum tokenIn tokenOut amountIn];
        (split; [reflexivity | left; repeat split; assumption]). }
  all: assert (Hle : Qcompare (inject_Z balUSDC) (pW * inject_Z balWETH) <> Gt)
         by (rewrite Ecmp; discriminate).
  all: pose proof (sell_weth_bound balUSDC balWETH pW pU Hu HpU Hinv' Hle)
         as Hb.
  all: destruct (_ <? _) eqn:Eth; [left; now rewrite newCalls_self |].
  all: apply Z.ltb_ge in Eth; right.
  all: unfold Actions.swapExactInput, Actions.dateNow, Actions.waitWithTimeout,
         Utils.waitWithTimeout.
  all: unfold bind, call, gets, throw, ret.
  all: repeat next_outcome; cbn [snd];
         (erewrite newCalls_trace
            by (cbn [trace logCall]; rewrite <- ?app_assoc; reflexivity));
         cbn [List.app filter isTransaction mutating];
         (eexists; split; [reflexivity |]);
         cbn [amountOutMinimum tokenIn tokenOut amountIn];
         (split; [reflexivity | right; repeat split; assumption]).
Qed.

(** 10 USDC and no WETH at 3000 USDC per WETH: 5 USDC are sold. *)
Lemma actions_swap_size_witness :
  let env := scriptedEnv sampleScript in
  let pool := samplePool 1600000000000000 in
  let w := initialWorld NoFile in
  let w2 := logCalls [Erc20BalanceOf USDC; Erc20BalanceOf WETH] w in
  let calls :=
    newCalls w2 (snd (Actions.rebalancePortfolio sampleConfig env pool w)) in
  filter isTransaction calls = [] \/
  exists p,
    filter isTransaction calls = [RouterExactInputSingle p] /\
    amountOutMinimum p = 0 /\
    ((tokenIn p = USDC /\ tokenOut p = WETH /\
      5 * 10 ^ 6 <= amountIn p /\ 2 * amountIn p <= 10000000) \/
     (tokenIn p = WETH /\ tokenOut p = USDC /\
      2 * 10 ^ 15 <= amountIn p /\ 2 * amountIn p <= 0)).
Proof.
  intros env pool w w2 calls.
  apply (actions_swap_size sampleConfig env pool w
           (logCall (Erc20BalanceOf USDC) w) w2 10000000 0);
    first [reflexivity | lia | (unfold Qle; cbn; lia)].
Defined.

Lemma forallb_forall_split {A} (P Q : A -> bool) (l : list A) :
  forallb (fun x => P x && Q x) l = true ->
  forallb P l = true /\ forallb Q l = true.
Proof.
  induction l as [| x l IH]; cbn; [now split |].
  intros H. apply andb_prop in H as [Hx Hl].
  apply andb_prop in Hx as [HP HQ]. destruct (IH Hl) as [IP IQ].
  now rewrite HP, HQ, IP, IQ.
Qed.

(** ** The mint of src/actions *)

(** X16: [mintMaxLiquidity] of src/actions never submits twice.  Although
    the balance reads are retried, a run submits either nothing, and then
    it throws, or exactly one transaction, a mint, after both balance reads
    answered and the SDK derived a position from the WETH and USDC balances
    (in this order) for the bounds given: the mint is for these bounds, on
    the tokens of the pool, with the desired amounts of that position and
    its minimum amounts for the slippage tolerance, and a deadline 120 s
    after the clock at submission.  It never writes the state file. *)
Theorem actions_mint_once
    (cfg : Config) (env : Env) (pool : Pool) (tl tu : Z) (w : World) :
  let run := Actions.mintMaxLiquidity cfg env pool tl tu w in
  let txs := filter isTransaction (newCalls w (snd run)) in
  stateFile (snd run) = stateFile w /\
  filter isWriteStateFile (newCalls w (snd run)) = [] /\
  ((txs = [] /\ isOk (fst run) = false) \/
   exists balUSDC balWETH w1 w2 position,
     Actions.getBalance cfg env USDC w = (Ok balUSDC, w1) /\
     Actions.getBalance cfg env WETH w1 = (Ok balWETH, w2) /\
     fromAmounts pool tl tu balWETH balUSDC = Ok position /\
     txs =
       [NpmMint
          {| mint_token0 := token0 pool;
             mint_token1 := token1 pool;
             mint_fee := POOL_FEE;
             mint_tickLower := tl;
             mint_tickUpper := tu;
             amount0Desired := fst (mintAmounts position);
             amount1Desired := snd (mintAmounts position);
             amount0Min := fst (mintAmountsWithSlippage position);
             amount1Min := snd (mintAmountsWithSlippage position);
             mint_deadline := deadlineAt (clock env (trace w2)) |}]).
Proof.
  intros run txs. subst txs run.
  assert (Hbal : forall t, emits (fun c => notTransaction c && notStateWrite c)
                             (Actions.getBalance cfg env t)).
  { intros t. apply emits_withRetry; [reflexivity | now apply emits_call]. }
  assert (Kbal : forall t, keeps stateFile (Actions.getBalance cfg env t)).
  { intros t. apply keeps_withRetry; [reflexivity | now apply keeps_call]. }
  remember (Actions.mintMaxLiquidity cfg env pool tl tu w) as run eqn:Hrun.
  unfold Actions.mintMaxLiquidity in Hrun.
  unfold bind at 1 in Hrun.
  destruct (Hbal USDC w) as (cs1 & T1 & P1). pose proof (Kbal USDC w) as K1.
  destruct (Actions.getBalance cfg env USDC w) as [[balUSDC | e1] w1] eqn:EU;
    cbn [snd] in T1, K1.
  2:{ subst run. cbn [fst snd]. rewrite (newCalls_trace _ _ _ T1).
      apply forallb_forall_split in P1 as [Q1 Q2].
      split; [assumption |]. split; [now apply forallb_negb_filter |].
      left. split; [now apply forallb_negb_filter | reflexivity]. }
  unfold bind at 1 in Hrun.
  destruct (Hbal WETH w1) as (cs2 & T2 & P2). pose proof (Kbal WETH w1) as K2.
  destruct (Actions.getBalance cfg env WETH w1) as [[balWETH | e2] w2] eqn:EW;
    cbn [snd] in T2, K2.
  all: assert (T12 : trace w2 = trace w ++ cs1 ++ cs2)
         by (now rewrite T2, T1, <- app_assoc).
  all: assert (P12 : forallb (fun c => notTransaction c && notStateWrite c)
                       (cs1 ++ cs2) = true)
         by (now rewrite forallb_app, P1, P2).
  all: apply forallb_forall_split in P12 as [Q1 Q2].
  all: assert (F1 : filter isTransaction (cs1 ++ cs2) = [])
         by now apply forallb_negb_filter.
  all: assert (F2 : filter isWriteStateFile (cs1 ++ cs2) = [])
         by now apply forallb_negb_filter.
  2:{ subst run. cbn [fst snd]. rewrite (newCalls_trace _ _ _ T12).
      split; [congruence |]. split; [assumption |].
      left. split; [assumption | reflexivity]. }
  unfold bind at 1, liftRes at 1 in Hrun.
  destruct (fromAmounts pool tl tu balWETH balUSDC) as [position | e3] eqn:EP.
  2:{ subst run. cbn [fst snd]. rewrite (newCalls_trace _ _ _ T12).
      split; [congruence |]. split; [assumption |].
      left. split; [assumption | reflexivity]. }
  destruct (mintAmountsWithSlippage position) as [m0 m1] eqn:Em.
  unfold Actions.dateNow, Actions.waitWithTimeout, Utils.waitWithTimeout,
    decodeTokenId in Hrun.
  unfold bind, call, gets, throw, ret in Hrun.
  remember (deadlineAt (clock env (trace w2))) as deadline eqn:Edl.
  subst run.
  repeat next_outcome; cbn [fst snd stateFile logCall];
    (split; [congruence |]);
    (erewrite newCalls_trace
       by (cbn [trace logCall]; rewrite T12, <- ?app_assoc; reflexivity));
    rewrite !app_assoc, !filter_app;
    rewrite filter_app in F1, F2; rewrite F1, F2;
    (split; [reflexivity |]);
    right; exists balUSDC, balWETH, w1, w2, position;
    (split; [first [reflexivity | exact EU] |]);
    (split; [exact EW |]); (split; [exact EP |]);
    rewrite Em, <- Edl; reflexivity.
Qed.

(** ** Approvals of src/actions *)

(** X17: [approveAll] of src/actions touches no position and makes no
    swap, and leaves the state file alone; when no allowance is zero it
    submits nothing at all: it makes the four allowance reads, token by
    token (USDC for the position manager and the router, then WETH for
    both), and returns. *)
Theorem actions_approveAll_reads (cfg : Config) (env : Env) :
  emits notMutating (ActionsSetup.approveAll cfg env) /\
  keeps stateFile (ActionsSetup.approveAll cfg env) /\
  ((forall h t s, exists a, erc20_allowance env h t s = Ok a /\ a <> 0) ->
   forall w,
     ActionsSetup.approveAll cfg env w =
       (Ok tt,
        logCalls [Erc20Allowance USDC NONFUNGIBLE_POSITION_MANAGER_ADDR;
                  Erc20Allowance USDC SWAP_ROUTER_ADDR;
                  Erc20Allowance WETH NONFUNGIBLE_POSITION_MANAGER_ADDR;
                  Erc20Allowance WETH SWAP_ROUTER_ADDR] w)).
Proof.
  split; [| split].
  - unfold ActionsSetup.approveAll, ActionsSetup.approveIfNeeded.
    cbn [forEach].
    repeat first
      [ apply emits_withRetry; [reflexivity |]
      | apply emits_waitWithTimeout; reflexivity
      | progress frame ].
  - unfold ActionsSetup.approveAll, ActionsSetup.approveIfNeeded,
      Actions.waitWithTimeout, Utils.waitWithTimeout.
    cbn [forEach].
    repeat first
      [ apply keeps_withRetry; [reflexivity |]
      | progress frame ].
  - intros Hnz w.
    assert (Hone : forall t s w0,
              ActionsSetup.approveIfNeeded cfg env t s w0 =
                (Ok tt, logCall (Erc20Allowance t s) w0)).
    { intros t s w0. unfold ActionsSetup.approveIfNeeded.
      destruct (Hnz (trace w0) t s) as (a & Ha & Hne).
      unfold bind at 1.
      rewrite (withRetry_first_success cfg _ a w0
                 (logCall (Erc20Allowance t s) w0))
        by (unfold call; now rewrite Ha).
      apply Z.eqb_neq in Hne. now rewrite Hne. }
    unfold ActionsSetup.approveAll. cbn [forEach].
    unfold bind, ret. cbv beta.
    rewrite (Hone USDC NONFUNGIBLE_POSITION_MANAGER_ADDR). cbv beta iota.
    rewrite (Hone USDC SWAP_ROUTER_ADDR). cbv beta iota.
    rewrite (Hone WETH NONFUNGIBLE_POSITION_MANAGER_ADDR). cbv beta iota.
    rewrite (Hone WETH SWAP_ROUTER_ADDR). cbv beta iota.
    now norm_world.
Qed.

Lemma actions_approveAll_reads_witness :
  let env := scriptedEnv sampleScript in
  let w := initialWorld NoFile in
  ActionsSetup.approveAll sampleConfig env w =
    (Ok tt,
     logCalls [Erc20Allowance USDC NONFUNGIBLE_POSITION_MANAGER_ADDR;
               Erc20Allowance USDC SWAP_ROUTER_ADDR;
               Erc20Allowance WETH NONFUNGIBLE_POSITION_MANAGER_ADDR;
               Erc20Allowance WETH SWAP_ROUTER_ADDR] w).
Proof.
  intros env w.
  apply (proj2 (proj2 (actions_approveAll_reads sampleConfig env))).
  intros h t s. exists 1. split; [reflexivity | lia].
Defined.

(** ** The polling entry point *)

(** X18: in the polling entry point the exit guards the rest of the
    cycle.  When the tracked position is out of range and the batched exit
    fails, the cycle ends there: it returns normally, in the world the
    failed exit left, so that no swap and no mint is made and the state is
    not saved. *)
Theorem polling_exit_failure_aborts
    (cfg : Config) (env : Env)
    (loadState : M BotState) (saveState : string -> M unit)
    (w w1 w2 w3 : World) (slot0 : Slot0) (pool : Pool)
    (st : BotState) (pos : PositionInfo) :
  Polling.startup cfg env w = (Ok (slot0, pool), w1) ->
  loadState w1 = (Ok st, w2) ->
  tokenId st <> "0" ->
  Actions.withRetry cfg
    (call (NpmPositions (tokenId st))
       (fun h => npm_positions env h (tokenId st))) w2 = (Ok pos, w3) ->
  liquidity pos <> 0 \/ tickLower pos <> 0 ->
  tick slot0 < tickLower pos \/ tickUpper pos < tick slot0 ->
  let exit := Actions.atomicExitPosition cfg env (tokenId st) w3 in
  isOk (fst exit) = false ->
  Polling.runLifeCycle cfg env loadState saveState w = (Ok tt, snd exit) /\
  filter isSwap (newCalls w3 (snd exit)) = [] /\
  filter isMint (newCalls w3 (snd exit)) = [].
Proof.
  intros Hstart Hload Hid Hpos Hlive Hout exit Hfail.
  split.
  - unfold Polling.runLifeCycle.
    unfold bind at 1. rewrite Hstart.
    unfold bind at 1. rewrite Hload.
    replace (String.eqb (tokenId st) "0") with false
      by (symmetry; now apply String.eqb_neq).
    unfold tryCatch, bind at 1. rewrite Hpos.
    replace ((liquidity pos =? 0) && (tickLower pos =? 0)) with false
      by (symmetry; apply andb_false_iff;
          destruct Hlive; [left | right]; now apply Z.eqb_neq).
    replace ((tick slot0 <? tickLower pos) || (tick slot0 >? tickUpper pos))
      with true
      by (symmetry; apply orb_true_iff; rewrite Z.gtb_ltb;
          destruct Hout; [left | right]; now apply Z.ltb_lt).
    unfold bind at 1. fold exit.
    destruct exit as [[[] | e] w4]; [discriminate | reflexivity].
  - assert (E : emits (fun c => notSwap c && notMint c)
                  (Actions.atomicExitPosition cfg env (tokenId st))).
    { unfold Actions.atomicExitPosition, Actions.dateNow.
      repeat first
        [ apply emits_withRetry; [reflexivity |]
        | apply emits_waitWithTimeout; reflexivity
        | progress frame ]. }
    destruct (emits_run _ _ w3 E) as (cs & T & P). fold exit in T.
    rewrite (newCalls_trace _ _ _ T).
    apply forallb_forall_split in P as [P1 P2].
    split; now apply forallb_negb_filter.
Qed.

(** Position 77 is out of range and the exit transaction is dropped. *)
Lemma polling_exit_failure_aborts_witness :
  let env := scriptedEnv (withReceipt None sampleScript) in
  let w := initialWorld (Stored {| tokenId := "77"; lastCheck := 0 |}) in
  let w1 := snd (Polling.startup sampleConfig env w) in
  let w3 := logCall (NpmPositions "77") w1 in
  let exit := Actions.atomicExitPosition sampleConfig env "77" w3 in
  fst exit = Throw (JsError "Tx dropped or failed") /\
  Polling.runLifeCycle sampleConfig env Monolith.loadState
    (Monolith.saveState env) w = (Ok tt, snd exit) /\
  filter isSwap (newCalls w3 (snd exit)) = [] /\
  filter isMint (newCalls w3 (snd exit)) = [].
Proof.
  intros env w w1 w3 exit. split; [reflexivity |].
  apply (polling_exit_failure_aborts sampleConfig env Monolith.loadState
           (Monolith.saveState env) w w1 w1 w3
           {| sqrtPriceX96 := 1; tick := 500 |}
           (samplePool 1600000000000000)
           {| tokenId := "77"; lastCheck := 0 |}
           {| liquidity := 500; tickLower := 100; tickUpper := 200;
              tokensOwed0 := 0; tokensOwed1 := 0 |});
    first [reflexivity | discriminate | (left; discriminate)
          | (right; cbn; lia)].
Defined.

(** X19: with a tracked position, a cycle of the polling [runLifeCycle]
    that got past its start-up and the state load never throws.  When the
    position read fails (after its retries) and when the position is in
    range, the cycle ends with that read; when the position is dead (no
    liquidity and a zero lower tick), the cycle only resets the state to
    "0": the exit, the swap and the mint are left to the next cycle. *)
Theorem polling_tracked_position
    (cfg : Config) (env : Env)
    (loadState : M BotState) (saveState : string -> M unit)
    (w w1 w2 : World) (slot0 : Slot0) (pool : Pool) (st : BotState) :
  Polling.startup cfg env w = (Ok (slot0, pool), w1) ->
  loadState w1 = (Ok st, w2) ->
  tokenId st <> "0" ->
  let read := Actions.withRetry cfg
                (call (NpmPositions (tokenId st))
                   (fun h => npm_positions env h (tokenId st))) w2 in
  let run := Polling.runLifeCycle cfg env loadState saveState w in
  fst run = Ok tt /\
  (isOk (fst read) = false -> snd run = snd read) /\
  (forall pos,
     fst read = Ok pos ->
     (liquidity pos <> 0 \/ tickLower pos <> 0) ->
     tickLower pos <= tick slot0 <= tickUpper pos ->
     snd run = snd read) /\
  (forall pos,
     fst read = Ok pos ->
     liquidity pos = 0 -> tickLower pos = 0 ->
     snd run = snd (saveState "0" (snd read))).
Proof.
  intros Hstart Hload Hid read run.
  assert (Hrun : run =
            tryCatch
              (pos <- Actions.withRetry cfg
                        (call (NpmPositions (tokenId st))
                           (fun h => npm_positions env h (tokenId st))) ;;
               if (liquidity pos =? 0) && (tickLower pos =? 0)
               then saveState "0"
               else
                 if (tick slot0 <? tickLower pos) ||
                    (tick slot0 >? tickUpper pos)
                 then
                   Actions.atomicExitPosition cfg env (tokenId st) ;;;
                   Polling.rebalanceMintSave cfg env saveState pool
                 else ret tt)
              (fun _ => ret tt) w2).
  { subst run. unfold Polling.runLifeCycle.
    unfold bind at 1. rewrite Hstart.
    unfold bind at 1. rewrite Hload.
    replace (String.eqb (tokenId st) "0") with false
      by (symmetry; now apply String.eqb_neq).
    reflexivity. }
  clearbody run. subst run.
  assert (Hbody : forall k : PositionInfo -> M unit,
            bind (Actions.withRetry cfg
                    (call (NpmPositions (tokenId st))
                       (fun h => npm_positions env h (tokenId st)))) k w2 =
            match read with
            | (Ok pos, w') => k pos w'
            | (Throw e, w') => (Throw e, w')
            end) by reflexivity.
  unfold tryCatch. rewrite Hbody. clear Hbody. clearbody read.
  destruct read as [[pos | e] w3]; cbn [fst snd].
  - split; [| split; [discriminate | split]].
    + match goal with
      | |- fst (let '(r, w') := ?c in _) = _ =>
          destruct c as [[[] | e] w4]; reflexivity
      end.
    + intros pos' [= <-] Hlive Hin.
      replace ((liquidity pos =? 0) && (tickLower pos =? 0)) with false
        by (symmetry; apply andb_false_iff;
            destruct Hlive; [left | right]; now apply Z.eqb_neq).
      replace ((tick slot0 <? tickLower pos) || (tick slot0 >? tickUpper pos))
        with false
        by (symmetry; apply orb_false_iff; split;
            [apply Z.ltb_ge | rewrite Z.gtb_ltb; apply Z.ltb_ge]; lia).
      reflexivity.
    + intros pos' [= <-] Hl Ht. rewrite Hl, Ht. cbn [Z.eqb andb].
      destruct (saveState "0" w3) as [[[] | e] w4]; reflexivity.
  - split; [reflexivity |]. split; [reflexivity |].
    split; intros pos'; discriminate.
Qed.

(** Position 77 has neither liquidity nor ticks left: the cycle writes "0"
    to the state file and does nothing else. *)
Lemma polling_tracked_position_witness :
  let dead := {| liquidity := 0; tickLower := 0; tickUpper := 0;
                 tokensOwed0 := 0; tokensOwed1 := 0 |} in
  let env := scriptedEnv (withPositions (Ok dead) sampleScript) in
  let w := initialWorld (Stored {| tokenId := "77"; lastCheck := 0 |}) in
  let w3 := logCall (NpmPositions "77")
              (snd (Polling.startup sampleConfig env w)) in
  let run := Polling.runLifeCycle sampleConfig env Monolith.loadState
               (Monolith.saveState env) w in
  snd run = snd (Monolith.saveState env "0" w3) /\
  stateFile (snd run) =
    Stored {| tokenId := "0"; lastCheck := 1700000000000 |} /\
  filter isTransaction (newCalls w (snd run)) = [].
Proof.
  intros dead env w w3 run.
  split; [| split; reflexivity].
  refine (proj2 (proj2 (proj2
            (polling_tracked_position sampleConfig env Monolith.loadState
               (Monolith.saveState env) w
               (snd (Polling.startup sampleConfig env w))
               (snd (Polling.startup sampleConfig env w))
               {| sqrtPriceX96 := 1; tick := 500 |}
               (samplePool 1600000000000000)
               {| tokenId := "77"; lastCheck := 0 |}
               eq_refl eq_refl _)))
            dead eq_refl eq_refl eq_refl).
  discriminate.
Defined.
